(** * Sanctions screening tool: extraction and screening, verified

    A shallow embedding of [sanctions_app.py]: the two PDF extractors
    ([parse_un_style_pdf], [parse_kdn_pdf]), the record store built by
    [main], and the search logic of [main].

    Strings are Python [str] values restricted to code points below 256
    (Latin-1); a character is an [ascii] whose number is its code point.

    The library calls of the program are modelled by functions named
    after them, written from the behaviour of the libraries:
    - the [str] methods and [re] of Python 3.7 or later (a split takes
      place at an empty match);
    - [pdfplumber], through what its calls return or raise on a document;
    - [pandas], as far as the columns and rows of a frame go;
    - [thefuzz] 0.20 or later, which processes with [rapidfuzz.utils] and
      scores and ranks with [rapidfuzz]; a score is a rational number here
      where the library has a float.

    [st.cache_data] only keeps results of the extractors for later calls;
    the page layout and the download buttons are left out. *)

From Stdlib Require Import String Ascii List ZArith QArith Qround Lia Lqa Bool Arith Sorted.
Import ListNotations.
Open Scope string_scope.
Open Scope nat_scope.

(* ================================================================== *)
(** ** Python [str] *)
(* ================================================================== *)

Module PyStr.

Definition ord (c : ascii) : nat := nat_of_ascii c.

Definition LF : ascii := ascii_of_nat 10.
Definition dquote : ascii := ascii_of_nat 34.
Definition NBSP : ascii := ascii_of_nat 160.

(** The one-character string of a line feed. *)
Definition NL : string := String LF EmptyString.

Definition in_range (lo hi : nat) (c : ascii) : bool :=
  (lo <=? ord c) && (ord c <=? hi).

(** [str.isspace] on one character; also the class [\s] of [re]:
    TAB LF VT FF CR, FS GS RS US, SPACE, NEL and NBSP. *)
Definition is_space (c : ascii) : bool :=
  in_range 9 13 c || in_range 28 32 c || (ord c =? 133) || (ord c =? 160).

Definition is_digit (c : ascii) : bool := in_range 48 57 c.
Definition is_upper_az (c : ascii) : bool := in_range 65 90 c.
Definition is_lower_az (c : ascii) : bool := in_range 97 122 c.
Definition is_ascii (c : ascii) : bool := ord c <? 128.

(** The ASCII letters and digits. *)
Definition is_ascii_alnum (c : ascii) : bool :=
  is_digit c || is_upper_az c || is_lower_az c.

(** The class [\w] of [re] on a [str] pattern: alphanumeric code points
    and the underscore. *)
Definition is_word (c : ascii) : bool :=
  is_ascii_alnum c || (ord c =? 95)
  || (ord c =? 170) || (ord c =? 178) || (ord c =? 179) || (ord c =? 181)
  || (ord c =? 185) || (ord c =? 186) || in_range 188 190 c
  || in_range 192 214 c || in_range 216 246 c || in_range 248 255 c.

(** [str.isprintable] on one character. *)
Definition is_printable (c : ascii) : bool :=
  in_range 32 126 c || (in_range 161 255 c && negb (ord c =? 173)).

Definition lower_char (c : ascii) : ascii :=
  if is_upper_az c || (in_range 192 222 c && negb (ord c =? 215))
  then ascii_of_nat (ord c + 32) else c.

Fixpoint smap (f : ascii -> ascii) (s : string) : string :=
  match s with
  | EmptyString => EmptyString
  | String c s' => String (f c) (smap f s')
  end.

Fixpoint sfilter (p : ascii -> bool) (s : string) : string :=
  match s with
  | EmptyString => EmptyString
  | String c s' => if p c then String c (sfilter p s') else sfilter p s'
  end.

(** Every character of [s] passes [p]; some character of [s] does. *)
Fixpoint sall (p : ascii -> bool) (s : string) : bool :=
  match s with
  | EmptyString => true
  | String c s' => p c && sall p s'
  end.

Fixpoint sany (p : ascii -> bool) (s : string) : bool :=
  match s with
  | EmptyString => false
  | String c s' => p c || sany p s'
  end.

(** [s.lower()] *)
Definition lower (s : string) : string := smap lower_char s.

Fixpoint lstrip_by (p : ascii -> bool) (s : string) : string :=
  match s with
  | EmptyString => EmptyString
  | String c s' => if p c then lstrip_by p s' else s
  end.

Fixpoint rstrip_by (p : ascii -> bool) (s : string) : string :=
  match s with
  | EmptyString => EmptyString
  | String c s' =>
      match rstrip_by p s' with
      | EmptyString => if p c then EmptyString else String c EmptyString
      | t => String c t
      end
  end.

Definition strip_by (p : ascii -> bool) (s : string) : string :=
  rstrip_by p (lstrip_by p s).

(** [s.strip()] *)
Definition strip (s : string) : string := strip_by is_space s.

Fixpoint mem_char (c : ascii) (chars : string) : bool :=
  match chars with
  | EmptyString => false
  | String d chars' => Ascii.eqb c d || mem_char c chars'
  end.

(** [s.strip(chars)] *)
Definition strip_chars (chars s : string) : string :=
  strip_by (fun c => mem_char c chars) s.

(** [s.startswith(p)] *)
Fixpoint startswith (p s : string) : bool :=
  match p with
  | EmptyString => true
  | String a p' =>
      match s with
      | EmptyString => false
      | String b s' => Ascii.eqb a b && startswith p' s'
      end
  end.

(** [sub in s] *)
Fixpoint contains (sub s : string) : bool :=
  startswith sub s
  || match s with
     | EmptyString => false
     | String _ s' => contains sub s'
     end.

(** [s.replace(old, new)] for a non-empty [old]: the occurrences of [old]
    are replaced from left to right, without overlap.  [skip] counts the
    characters of an occurrence that are still to be passed over. *)
Fixpoint replace_from (old new : string) (skip : nat) (s : string) : string :=
  match s with
  | EmptyString => EmptyString
  | String c s' =>
      match skip with
      | S k => replace_from old new k s'
      | O =>
          if startswith old s
          then new ++ replace_from old new (String.length old - 1) s'
          else String c (replace_from old new 0 s')
      end
  end.

Definition replace (old new s : string) : string := replace_from old new 0 s.

(** [sep.join(l)] *)
Fixpoint join (sep : string) (l : list string) : string :=
  match l with
  | [] => EmptyString
  | [x] => x
  | x :: l' => x ++ sep ++ join sep l'
  end.

(** [s[:n]] *)
Fixpoint take (n : nat) (s : string) : string :=
  match n, s with
  | S k, String c s' => String c (take k s')
  | _, _ => EmptyString
  end.

(** [s[a:b]] for [a <= b] *)
Definition slice (a b : nat) (s : string) : string :=
  String.substring a (b - a) s.

(** [s.split()]: the maximal runs of characters that are not white
    space. *)
Fixpoint split (s : string) : list string :=
  match s with
  | EmptyString => []
  | String c s' =>
      if is_space c then split s'
      else
        match s' with
        | EmptyString => [String c EmptyString]
        | String c' _ =>
            if is_space c' then String c EmptyString :: split s'
            else
              match split s' with
              | t :: ts => String c t :: ts
              | [] => [String c EmptyString]
              end
        end
  end.

(** [bool(s)] *)
Definition truthy (s : string) : bool :=
  match s with EmptyString => false | _ => true end.

Definition hex_digit (n : nat) : ascii :=
  if n <? 10 then ascii_of_nat (48 + n) else ascii_of_nat (87 + n).

(** The escape of one character in [repr(s)], [q] being the quote that
    encloses the literal. *)
Definition repr_char (q c : ascii) : string :=
  if Ascii.eqb c q || Ascii.eqb c "\"%char then String "\"%char (String c EmptyString)
  else if ord c =? 9 then "\t"
  else if ord c =? 10 then "\n"
  else if ord c =? 13 then "\r"
  else if is_printable c then String c EmptyString
  else String "\"%char (String "x"%char
         (String (hex_digit (ord c / 16)) (String (hex_digit (ord c mod 16)) EmptyString))).

Fixpoint repr_body (q : ascii) (s : string) : string :=
  match s with
  | EmptyString => EmptyString
  | String c s' => repr_char q c ++ repr_body q s'
  end.

(** [repr(s)]: single quotes, unless [s] has a single quote and no double
    quote. *)
Definition repr (s : string) : string :=
  let q := if mem_char "'"%char s && negb (mem_char dquote s)
           then dquote else "'"%char in
  String q (repr_body q s ++ String q EmptyString).

End PyStr.

(* ================================================================== *)
(** ** Python [re]: a backtracking matcher *)
(* ================================================================== *)

Module Re.
Import PyStr.

(** The patterns of the program repeat single characters only, so the
    repetitions range over a character class. *)
Inductive regex : Type :=
| Lit (l : string)                 (* literal text *)
| Cls (p : ascii -> bool)          (* one character of a class *)
| Star (p : ascii -> bool)         (* p*   greedy *)
| PlusLazy (p : ascii -> bool)     (* p+?  lazy *)
| Seq (r1 r2 : regex)
| Alt (r1 r2 : regex)
| Grp (n : nat) (r : regex)        (* capturing group number n *)
| Ahead (r : regex).               (* (?=r) *)

(** p+ greedy *)
Definition Plus (p : ascii -> bool) : regex := Seq (Cls p) (Star p).

Fixpoint seq (rs : list regex) : regex :=
  match rs with
  | [] => Lit EmptyString
  | [r] => r
  | r :: rs' => Seq r (seq rs')
  end.

Fixpoint alt (r : regex) (rs : list regex) : regex :=
  match rs with
  | [] => r
  | r' :: rs' => Alt r (alt r' rs')
  end.

(** The span of each group that has matched, latest first. *)
Definition captures : Type := list (nat * (nat * nat)).

(** What is left to match: the rest of the subject, the position reached
    and the captures so far; [None] makes the matcher backtrack. *)
Definition cont : Type := string -> nat -> captures -> option (nat * captures).

Fixpoint lit_rest (l s : string) : option string :=
  match l with
  | EmptyString => Some s
  | String a l' =>
      match s with
      | EmptyString => None
      | String b s' => if Ascii.eqb a b then lit_rest l' s' else None
      end
  end.

Definition or_else {A : Type} (x y : option A) : option A :=
  match x with Some _ => x | None => y end.

(** Greedy repetition: the longest run first, then shorter ones. *)
Fixpoint star_greedy (p : ascii -> bool) (k : cont)
         (s : string) (pos : nat) (caps : captures) : option (nat * captures) :=
  match s with
  | String c s' =>
      if p c then or_else (star_greedy p k s' (S pos) caps) (k s pos caps)
      else k s pos caps
  | EmptyString => k s pos caps
  end.

(** Lazy repetition: the shortest run first, then longer ones. *)
Fixpoint star_lazy (p : ascii -> bool) (k : cont)
         (s : string) (pos : nat) (caps : captures) : option (nat * captures) :=
  match k s pos caps with
  | Some r => Some r
  | None =>
      match s with
      | String c s' => if p c then star_lazy p k s' (S pos) caps else None
      | EmptyString => None
      end
  end.

(** [m r k s pos caps]: match [r] at the head of [s], which starts at
    offset [pos] of the subject, then go on with [k].  The alternatives
    are tried in the order of [re]; the first complete match wins. *)
Fixpoint m (r : regex) (k : cont) (s : string) (pos : nat) (caps : captures)
  : option (nat * captures) :=
  match r with
  | Lit l =>
      match lit_rest l s with
      | Some s' => k s' (pos + String.length l) caps
      | None => None
      end
  | Cls p =>
      match s with
      | String c s' => if p c then k s' (S pos) caps else None
      | EmptyString => None
      end
  | Star p => star_greedy p k s pos caps
  | PlusLazy p =>
      match s with
      | String c s' => if p c then star_lazy p k s' (S pos) caps else None
      | EmptyString => None
      end
  | Seq r1 r2 => m r1 (m r2 k) s pos caps
  | Alt r1 r2 => or_else (m r1 k s pos caps) (m r2 k s pos caps)
  | Grp n r1 => m r1 (fun s' pos' caps' => k s' pos' ((n, (pos, pos')) :: caps')) s pos caps
  | Ahead r1 =>
      match m r1 (fun _ pos' caps' => Some (pos', caps')) s pos caps with
      | Some (_, caps') => k s pos caps'
      | None => None
      end
  end.

(** A match: where it starts, where it ends, and its groups. *)
Record rmatch : Type := { m_start : nat; m_end : nat; m_caps : captures }.

(** The end of the pattern.  With [must_advance], set after an empty
    match, an empty match at the same place is refused. *)
Definition success (must_advance : bool) (start : nat) : cont :=
  fun _ pos caps =>
    if must_advance && (pos =? start) then None else Some (pos, caps).

Definition match_at (r : regex) (must_advance : bool) (s : string) (pos : nat)
  : option rmatch :=
  match m r (success must_advance pos) s pos [] with
  | Some (e, caps) => Some {| m_start := pos; m_end := e; m_caps := caps |}
  | None => None
  end.

(** The leftmost match in [s], which starts at offset [pos]. *)
Fixpoint search_from (r : regex) (s : string) (pos : nat) : option rmatch :=
  match match_at r false s pos with
  | Some x => Some x
  | None =>
      match s with
      | String _ s' => search_from r s' (S pos)
      | EmptyString => None
      end
  end.

(** [re.search(r, s)] *)
Definition search (r : regex) (s : string) : option rmatch := search_from r s 0.

Fixpoint lookup (n : nat) (caps : captures) : option (nat * nat) :=
  match caps with
  | [] => None
  | (i, sp) :: caps' => if i =? n then Some sp else lookup n caps'
  end.

(** [mt.group(n)] on the subject [s], for a group that took part in the
    match. *)
Definition group (s : string) (mt : rmatch) (n : nat) : string :=
  match lookup n (m_caps mt) with
  | Some (a, b) => slice a b s
  | None => EmptyString
  end.

(** The successive matches of [re.finditer], [re.split] and [re.sub]:
    each search starts where the match before ended, and after an empty
    match the next one may not be empty at the same place.  [skip] counts
    the characters of the last match still to be passed over. *)
Fixpoint finditer_from (r : regex) (s : string) (pos skip : nat) : list rmatch :=
  let rest :=
    match s with
    | String _ s' => fun k => finditer_from r s' (S pos) k
    | EmptyString => fun _ => []
    end in
  match skip with
  | S k => rest k
  | O =>
      match match_at r false s pos with
      | None => rest 0
      | Some x =>
          if m_end x =? pos then
            x :: match match_at r true s pos with
                 | Some y => y :: rest (m_end y - pos - 1)
                 | None => rest 0
                 end
          else x :: rest (m_end x - pos - 1)
      end
  end.

Definition finditer (r : regex) (s : string) : list rmatch := finditer_from r s 0 0.

(** The pieces of [s] between the matches, from offset [last] on. *)
Fixpoint pieces (s : string) (last : nat) (ms : list rmatch) : list string :=
  match ms with
  | [] => [slice last (String.length s) s]
  | x :: ms' => slice last (m_start x) s :: pieces s (m_end x) ms'
  end.

(** [re.split(r, s)] for a pattern without capturing groups. *)
Definition split (r : regex) (s : string) : list string :=
  pieces s 0 (finditer r s).

(** [re.sub(r, repl, s)] for a replacement text without group
    references. *)
Definition sub (r : regex) (repl s : string) : string :=
  String.concat repl (pieces s 0 (finditer r s)).

Definition any (c : ascii) : bool := true.
Definition not_newline (c : ascii) : bool := negb (Ascii.eqb c LF).

End Re.

(* ================================================================== *)
(** ** Records, data frames and documents *)
(* ================================================================== *)

(** One row of the consolidated database: the dictionary that both
    extractors append to [data]. *)
Record Row : Type := mkRow {
  Source : string;
  Reference_No : string;
  Name : string;
  Aliases : string;
  DOB : string;
  Designation : string;
  Nationality : string;
  Raw_Data : string
}.

(** The list of what a loop body appends: one element or none. *)
Definition option_list {A : Type} (o : option A) : list A :=
  match o with Some a => [a] | None => [] end.

(** What a call into [pdfplumber] does: it returns, or it raises. *)
Inductive outcome (A : Type) : Type :=
| Returns (a : A)
| Raises.
Arguments Returns {A} a.
Arguments Raises {A}.

(** A PDF as the narrative extractor sees it: [pdfplumber.open] returns the
    pages or raises, and [extract_text] on a page returns a text, [None],
    or raises. *)
Definition text_pdf : Type := outcome (list (outcome (option string))).

(** A table is a list of rows, a row a list of cells, a cell a text or
    [None]. *)
Definition cell : Type := option string.
Definition table : Type := list (list cell).

(** A PDF as the tabular extractor sees it: [extract_tables] on a page
    returns the tables of the page or raises. *)
Definition table_pdf : Type := outcome (list (outcome (list table))).

Module Pandas.

(** A [DataFrame] of rows: its column labels and its rows.  The column
    [Search_Vector], which [main] adds, is kept apart. *)
Record DataFrame : Type := mkDF {
  columns : list string;
  rows : list Row;
  search_vector : option (list string)
}.

Definition row_keys : list string :=
  ["Source"; "Reference_No"; "Name"; "Aliases"; "DOB"; "Designation";
   "Nationality"; "Raw_Data"].

(** [pd.DataFrame(data)] for a list of dictionaries: the columns are the
    keys of the dictionaries, so an empty list gives a frame with no
    column. *)
Definition of_records (data : list Row) : DataFrame :=
  {| columns := match data with [] => [] | _ => row_keys end;
     rows := data;
     search_vector := None |}.

Definition has_column (df : DataFrame) (key : string) : bool :=
  existsb (String.eqb key) (columns df).

(** The labels of [extra] that [acc] has not yet, after [acc]. *)
Fixpoint union_labels (acc extra : list string) : list string :=
  match extra with
  | [] => acc
  | x :: extra' =>
      if existsb (String.eqb x) acc then union_labels acc extra'
      else union_labels (acc ++ [x]) extra'
  end.

(** [pd.concat(frames, ignore_index=True)] for frames without the added
    column: the rows one after the other, under the union of the
    columns. *)
Definition concat (frames : list DataFrame) : DataFrame :=
  {| columns := fold_left union_labels (map columns frames) [];
     rows := flat_map rows frames;
     search_vector := None |}.

(** [len(df)] *)
Definition len (df : DataFrame) : nat := List.length (rows df).

(** The frames an extractor returns: they have the columns of the
    records when they have a row, and no column when they have none. *)
Definition from_records (df : DataFrame) : Prop := exists data, df = of_records data.

End Pandas.

(* ================================================================== *)
(** ** The narrative extractor: [parse_un_style_pdf] *)
(* ================================================================== *)

Module UN.
Import PyStr Re.

(** [[i|e]]: a class of three characters, the bar included. *)
Definition ie_bar (c : ascii) : bool := mem_char c "i|e".

(** [[A-Z]{2}[i|e]\.\d+] *)
Definition ref_pattern : regex :=
  seq [Cls is_upper_az; Cls is_upper_az; Cls ie_bar; Lit "."; Plus is_digit].

(** [(?=\s+[A-Z]{2}[i|e]\.\d+)] *)
Definition entry_boundary : regex := Ahead (Seq (Plus is_space) ref_pattern).

(** [([A-Z]{2}[i|e]\.\d+)] *)
Definition ref_re : regex := Grp 1 ref_pattern.

(** [Name:\s*(.+?)\s+(?:Name \(original|Title:|Designation:|DOB:)] with
    [re.DOTALL] *)
Definition name_re : regex :=
  seq [Lit "Name:"; Star is_space; Grp 1 (PlusLazy any); Plus is_space;
       alt (Lit "Name (original") [Lit "Title:"; Lit "Designation:"; Lit "DOB:"]].

(** [(Good quality a\.k\.a\.:|Low quality a\.k\.a\.:)(.+?)(Nationality:|Passport no:|National identification|Address:)]
    with [re.DOTALL] *)
Definition alias_re : regex :=
  seq [Grp 1 (Alt (Lit "Good quality a.k.a.:") (Lit "Low quality a.k.a.:"));
       Grp 2 (PlusLazy any);
       Grp 3 (alt (Lit "Nationality:")
                  [Lit "Passport no:"; Lit "National identification"; Lit "Address:"])].

(** [DOB:\s*(.+?)\s+(?:POB:|Good quality)] *)
Definition dob_re : regex :=
  seq [Lit "DOB:"; Star is_space; Grp 1 (PlusLazy not_newline); Plus is_space;
       Alt (Lit "POB:") (Lit "Good quality")].

(** [\d+:] *)
Definition marker_re : regex := Seq (Plus is_digit) (Lit ":").

(** [[a-z]\)] *)
Definition enum_re : regex := Seq (Cls is_lower_az) (Lit ")").

(** Step 3, the cleaning of the text the name pattern captured. *)
Definition clean_raw_name (raw_name : string) : string :=
  let clean_name := sub marker_re "" raw_name in
  let clean_name := strip (replace NL " " (replace "na" "" clean_name)) in
  sub (Plus is_space) " " clean_name.

(** Step 3: the name of an entry. *)
Definition extract_name (entry : string) : string :=
  match search name_re entry with
  | Some name_match => clean_raw_name (group entry name_match 1)
  | None => "Unknown Name"
  end.

(** The condition of the comprehension of step 4. *)
Definition keeps_fragment (a : string) : bool :=
  (2 <? String.length a) && negb (String.eqb (lower a) "na").

(** [a.strip(' ;').strip()] *)
Definition trim_fragment (a : string) : string := strip (strip_chars " ;" a).

(** Step 4, from the text between the alias label and its terminator. *)
Definition aliases_of_block (block : string) : list string :=
  let raw_aliases := replace NL " " block in
  let cleaned := Re.split enum_re raw_aliases in
  map trim_fragment (filter keeps_fragment cleaned).

(** Step 4: the aliases of an entry. *)
Definition extract_aliases (entry : string) : list string :=
  match search alias_re entry with
  | Some alias_section => aliases_of_block (group entry alias_section 2)
  | None => []
  end.

(** Step 5: the date of birth of an entry. *)
Definition extract_dob (entry : string) : string :=
  match search dob_re entry with
  | Some dob_match => strip (group entry dob_match 1)
  | None => "NA"
  end.

(** The dictionary appended for an entry. *)
Definition make_record (list_name ref_no name : string) (aliases : list string)
           (dob entry : string) : Row :=
  {| Source := list_name;
     Reference_No := ref_no;
     Name := name;
     Aliases := join " | " aliases;
     DOB := dob;
     Designation := "UN Sanctioned";
     Nationality := "International";
     Raw_Data := take 300 entry |}.

(** The body of the loop over the entries: the record of one chunk, or
    nothing when the chunk is skipped. *)
Definition parse_entry (list_name entry : string) : option Row :=
  if negb (truthy (strip entry)) then None
  else
    match search ref_re entry with
    | None => None
    | Some ref_match =>
        let ref_no := group entry ref_match 1 in
        Some (make_record list_name ref_no (extract_name entry)
                          (extract_aliases entry) (extract_dob entry) entry)
    end.

(** The part of the [try] block after the text has been read. *)
Definition parse_text (full_text list_name : string) : list Row :=
  let entries := Re.split entry_boundary full_text in
  flat_map (fun entry => option_list (parse_entry list_name entry)) entries.

(** The loop over the pages: the text read so far, or the exception. *)
Fixpoint read_pages (pages : list (outcome (option string))) (full_text : string)
  : outcome string :=
  match pages with
  | [] => Returns full_text
  | Raises :: _ => Raises
  | Returns page_text :: pages' =>
      match page_text with
      | Some t =>
          if truthy t then read_pages pages' (full_text ++ t ++ NL)
          else read_pages pages' full_text
      | None => read_pages pages' full_text
      end
  end.

(** The list [data] when the [try] statement is left.  The text is read
    before the first record is appended, and nothing after it raises. *)
Definition parse_data (pdf : text_pdf) (list_name : string) : list Row :=
  match pdf with
  | Raises => []
  | Returns pages =>
      match read_pages pages "" with
      | Raises => []
      | Returns full_text => parse_text full_text list_name
      end
  end.

Definition parse_un_style_pdf (pdf : text_pdf) (list_name : string)
  : Pandas.DataFrame :=
  Pandas.of_records (parse_data pdf list_name).

End UN.

(* ================================================================== *)
(** ** The tabular extractor: [parse_kdn_pdf] *)
(* ================================================================== *)

Module KDN.
Import PyStr.

(** [repr] of a cell and [str(row)]. *)
Definition repr_cell (c : cell) : string :=
  match c with
  | None => "None"
  | Some s => repr s
  end.

Definition str_row (row : list cell) : string :=
  "[" ++ join ", " (map repr_cell row) ++ "]".

(** [cell and "KDN" in str(cell)] *)
Definition is_kdn_cell (c : cell) : bool :=
  match c with
  | None => false
  | Some s => truthy s && contains "KDN" s
  end.

(** The scan of the row for the reference: the first cell that passes
    the test, or [ref] as it was when none does. *)
Fixpoint scan_ref (row : list cell) (ref : cell) : cell :=
  match row with
  | [] => ref
  | c :: row' => if is_kdn_cell c then c else scan_ref row' ref
  end.

(** [if len(row) > i: x = row[i]], [x] holding [init] before. *)
Definition cell_at (i : nat) (row : list cell) (init : cell) : cell :=
  if i <? List.length row then nth i row None else init.

(** [str(x).replace('\n', sep) if x else default] *)
Definition clean (x : cell) (sep default : string) : string :=
  match x with
  | None => default
  | Some s => if truthy s then replace NL sep s else default
  end.

(** The body of the loop over the rows: the record of a qualifying row. *)
Definition parse_row (row : list cell) : option Row :=
  let row_str := str_row row in
  if contains "KDN" row_str then
    let ref := scan_ref row (Some "Unknown") in
    let name := cell_at 2 row (Some "Unknown") in
    let alias := cell_at 7 row (Some "") in
    let dob := cell_at 5 row (Some "") in
    let id_num := cell_at 10 row (Some "") in
    let ref := clean ref " | " "N/A" in
    let name := clean name " " "N/A" in
    let alias := clean alias " " "" in
    let dob := clean dob " | " "" in
    let id_num := clean id_num " | " "" in
    Some {| Source := "MOHA Domestic List (Malaysia)";
            Reference_No := ref;
            Name := name;
            Aliases := alias;
            DOB := dob;
            Designation := "Specified Entity (Domestic)";
            Nationality := "Malaysia/Other";
            Raw_Data := "ID: " ++ id_num |}
  else None.

Definition parse_table (t : table) : list Row :=
  flat_map (fun row => option_list (parse_row row)) t.

(** The loop over the pages, [data] being the records appended so far.
    When [extract_tables] raises, the [try] statement is left with the
    records of the pages before. *)
Fixpoint parse_pages (pages : list (outcome (list table))) (data : list Row)
  : list Row :=
  match pages with
  | [] => data
  | Raises :: _ => data
  | Returns tables :: pages' =>
      parse_pages pages' (data ++ flat_map parse_table tables)
  end.

(** The list [data] when the [try] statement is left. *)
Definition parse_data (pdf : table_pdf) : list Row :=
  match pdf with
  | Raises => []
  | Returns pages => parse_pages pages []
  end.

Definition parse_kdn_pdf (pdf : table_pdf) : Pandas.DataFrame :=
  Pandas.of_records (parse_data pdf).

End KDN.

(* ================================================================== *)
(** ** [thefuzz]: [fuzz.token_set_ratio] and [process.extract] *)
(* ================================================================== *)

Module Fuzz.
Import PyStr.

(** [utils.ascii_only]: the code points from 128 to 255 are deleted. *)
Definition ascii_only (s : string) : string := sfilter is_ascii s.

Definition word_or_space (c : ascii) : ascii := if is_word c then c else " "%char.

(** [rapidfuzz.utils.default_process]: every character that is not a word
    character becomes a space, then the text is stripped and lowered. *)
Definition default_process (s : string) : string :=
  lower (strip (smap word_or_space s)).

(** The characters of a processed ASCII text: ASCII word characters and
    the space. *)
Definition tidy (c : ascii) : bool :=
  is_ascii c && (is_word c || Ascii.eqb c " "%char).

(** [utils.full_process(s, force_ascii)] *)
Definition full_process (force_ascii : bool) (s : string) : string :=
  default_process (if force_ascii then ascii_only s else s).

Definition mem (x : string) (l : list string) : bool := existsb (String.eqb x) l.

(** [set(l)], as the list of the distinct elements. *)
Fixpoint to_set (l : list string) : list string :=
  match l with
  | [] => []
  | x :: l' => if mem x l' then to_set l' else x :: to_set l'
  end.

(** [a.intersection(b)] and [a.difference(b)] *)
Definition intersection (a b : list string) : list string := filter (fun x => mem x b) a.
Definition difference (a b : list string) : list string := filter (fun x => negb (mem x b)) a.

Fixpoint insert_sorted (x : string) (l : list string) : list string :=
  match l with
  | [] => [x]
  | y :: l' => if String.leb x y then x :: l else y :: insert_sorted x l'
  end.

(** [sorted(l)] on strings. *)
Definition sorted (l : list string) : list string := fold_right insert_sorted [] l.

(** One row of the distance table: [up_row] is the row above from the
    second column on, [diag] and [left] the neighbours of the first cell
    to fill. *)
Fixpoint indel_row (x : ascii) (b : string) (up_row : list nat) (diag left : nat)
  : list nat :=
  match b, up_row with
  | String y b', up :: up_row' =>
      let cur := if Ascii.eqb x y then diag else S (Nat.min up left) in
      cur :: indel_row x b' up_row' up cur
  | _, _ => []
  end.

Fixpoint indel_rows (a b : string) (row : list nat) (i : nat) : list nat :=
  match a with
  | EmptyString => row
  | String x a' => indel_rows a' b (indel_row x b row i (S i)) (S i)
  end.

(** [Indel.distance(a, b)]: the least number of insertions and deletions
    that turn [a] into [b]. *)
Definition indel_distance (a b : string) : nat :=
  last (indel_rows a b (List.seq 1 (String.length b)) 0) (String.length a).

Definition Qnat (n : nat) : Q := inject_Z (Z.of_nat n).

(** [norm_distance(dist, lensum, score_cutoff)] *)
Definition norm_distance (dist lensum : nat) (score_cutoff : Q) : Q :=
  let score := if lensum =? 0 then 100%Q
               else (100 - 100 * Qnat dist / Qnat lensum)%Q in
  if Qle_bool score_cutoff score then score else 0%Q.

(** [max(a, b, c)]: the first of the largest. *)
Definition max2 (a b : Q) : Q := if Qle_bool b a then a else b.
Definition max3 (a b c : Q) : Q := max2 (max2 a b) c.

Definition nonzero (n : nat) : nat := if n =? 0 then 0 else 1.

(** [rapidfuzz.fuzz.token_set_ratio(s1, s2, score_cutoff=score_cutoff)]
    without a processor. *)
Definition token_set_ratio (s1 s2 : string) (score_cutoff : Q) : Q :=
  if negb (truthy s1) || negb (truthy s2) then 0%Q
  else
    let tokens_a := to_set (split s1) in
    let tokens_b := to_set (split s2) in
    match tokens_a, tokens_b with
    | [], _ | _, [] => 0%Q
    | _, _ =>
        let intersect := intersection tokens_b tokens_a in
        let diff_ab := difference tokens_a tokens_b in
        let diff_ba := difference tokens_b tokens_a in
        if negb (match intersect with [] => true | _ => false end)
           && (match diff_ab with [] => true | _ => false end
               || match diff_ba with [] => true | _ => false end)
        then 100%Q
        else
          let diff_ab_joined := join " " (sorted diff_ab) in
          let diff_ba_joined := join " " (sorted diff_ba) in
          let ab_len := String.length diff_ab_joined in
          let ba_len := String.length diff_ba_joined in
          let sect_len := String.length (join " " intersect) in
          let sect_ab_len := sect_len + nonzero sect_len + ab_len in
          let sect_ba_len := sect_len + nonzero sect_len + ba_len in
          let cutoff_distance :=
            Qceiling (Qnat (sect_ab_len + sect_ba_len) * (1 - score_cutoff / 100))%Q in
          let dist := indel_distance diff_ab_joined diff_ba_joined in
          let result :=
            if (Z.of_nat dist <=? cutoff_distance)%Z
            then norm_distance dist (sect_ab_len + sect_ba_len) score_cutoff
            else 0%Q in
          if sect_len =? 0 then result
          else
            let sect_ab_dist := nonzero sect_len + ab_len in
            let sect_ab_ratio :=
              norm_distance sect_ab_dist (sect_len + sect_ab_len) score_cutoff in
            let sect_ba_dist := nonzero sect_len + ba_len in
            let sect_ba_ratio :=
              norm_distance sect_ba_dist (sect_len + sect_ba_len) score_cutoff in
            max3 result sect_ab_ratio sect_ba_ratio
    end.

(** [int(round(x))]: to the nearest integer, a half going to the even
    neighbour. *)
Definition py_round (x : Q) : Z :=
  let n := Qnum x in
  let d := Zpos (Qden x) in
  let f := (n / d)%Z in
  let r := (n mod d)%Z in
  if (2 * r <? d)%Z then f
  else if (d <? 2 * r)%Z then (f + 1)%Z
  else if Z.even f then f else (f + 1)%Z.

(** A scored choice of [rapidfuzz.process.extract]. *)
Definition scored : Type := (string * Q)%type.

(** Where [x], which comes before the elements of [l] in the input, goes
    in the sorted [l]: before the first element that does not score
    higher. *)
Fixpoint insert_desc (x : scored) (l : list scored) : list scored :=
  match l with
  | [] => [x]
  | y :: l' =>
      if Qle_bool (snd y) (snd x) then x :: l else y :: insert_desc x l'
  end.

(** The order of a ranking: no later element scores higher. *)
Definition ranks_before (a b : scored) : Prop := (snd b <= snd a)%Q.

(** [sorted(l, key=score, reverse=True)]: highest score first, equal
    scores in the order of the input. *)
Definition sort_desc (l : list scored) : list scored := fold_right insert_desc [] l.

(** [heapq.nlargest(limit, l, key=score)] *)
Definition nlargest (limit : nat) (l : list scored) : list scored :=
  firstn limit (sort_desc l).

(** [rapidfuzz.process.extract] with [processor] and [scorer] as
    [thefuzz] sets them for [fuzz.token_set_ratio]. *)
Definition rapidfuzz_extract (query : string) (choices : list string)
           (limit : nat) (score_cutoff : Q) : list scored :=
  let query := full_process true query in
  let scored_choices :=
    map (fun choice =>
           (choice, token_set_ratio query (full_process true choice) score_cutoff))
        choices in
  nlargest limit (filter (fun x => Qle_bool score_cutoff (snd x)) scored_choices).

(** [process.extract(query, choices, limit=limit, scorer=fuzz.token_set_ratio)]:
    the query goes through the default processor, the choices are scored
    and ranked, and the scores are rounded. *)
Definition extract (query : string) (choices : list string) (limit : nat)
  : list (string * Z) :=
  let query := full_process false query in
  map (fun x => (fst x, py_round (snd x)))
      (rapidfuzz_extract query choices limit 0%Q).

(** The score [extract] reports for one choice. *)
Definition score (query choice : string) : Z :=
  py_round (token_set_ratio (full_process true (full_process false query))
                            (full_process true choice) 0%Q).

End Fuzz.

(* ================================================================== *)
(** ** [main]: the record store and the screening step *)
(* ================================================================== *)

Module App.
Import PyStr Pandas.

(** [get_sample_data] *)
Definition sample_rows : list Row :=
  [ mkRow "MOHA Domestic List (Malaysia)" "KDN.1.08-2014" "Halimah binti Hussein" ""
          "9.12.1961" "Individual" "Malaysia" "ID: 611209-01-5514";
    mkRow "MOHA Domestic List (Malaysia)" "KDN.1.04-2016" "Nor Mahmudah binti Ahmad" "Cik Mud"
          "1.1.1989" "Individual" "Malaysia" "ID: 890101-26-5006";
    mkRow "UNSCR 1267/1989/2253 (ISIL/Al-Qaida)" "QDi.006" "AIMAN MUHAMMED RABI AL-ZAWAHIRI"
          "Ayman Al-Zawahari" "19 Jun. 1951" "Leader of Al-Qaida" "Egypt" "Reportedly deceased";
    mkRow "UNSCR 1988 (Taliban)" "TAi.144" "SIRAJUDDIN JALLALOUDINE HAQQANI"
          "Siraj Haqqani | Khalifa" "1977-1978" "Deputy Commander" "Afghanistan" "Haqqani Network";
    mkRow "UNSCR 1988 (Taliban)" "TAi.173" "ABDUL BASIR NOORZAI"
          "Haji Abdul Basir | Haji Basir Noorzai" "1965" "Haji" "Afghanistan"
          "Owner of Haji Basir and Zarjmil Company";
    mkRow "UNSCR 1718 (DPRK)" "KPi.033" "RI WON HO" "" "17 Jul. 1964" "Official" "DPRK"
          "Ministry of State Security";
    mkRow "UNSCR 2231 (Iran)" "IRi.039" "QASEM SOLEIMANI" "Qasim Soleimani" "11 Mar. 1957"
          "Major General" "Iran" "Commander of Qods Force" ].

Definition get_sample_data : DataFrame := of_records sample_rows.

(** The five uploads of the sidebar; [None] when no file was given. *)
Record uploads : Type := {
  file_moha : option table_pdf;
  file_1267 : option text_pdf;
  file_1988 : option text_pdf;
  file_1718 : option text_pdf;
  file_2231 : option text_pdf
}.

Definition un_frame (f : option text_pdf) (list_name : string) : list DataFrame :=
  match f with
  | Some pdf => [UN.parse_un_style_pdf pdf list_name]
  | None => []
  end.

(** The list [data_frames] after the data loading logic. *)
Definition load_frames (u : uploads) : list DataFrame :=
  match file_moha u with
  | Some pdf => [KDN.parse_kdn_pdf pdf]
  | None => []
  end
  ++ un_frame (file_1267 u) "UNSCR 1267 (ISIL/Al-Qaida)"
  ++ un_frame (file_1988 u) "UNSCR 1988 (Taliban)"
  ++ un_frame (file_1718 u) "UNSCR 1718 (DPRK)"
  ++ un_frame (file_2231 u) "UNSCR 2231 (Iran)".

(** [df_master]: the frames combined, or the sample data when there is
    no frame. *)
Definition combine (data_frames : list DataFrame) : DataFrame :=
  match data_frames with
  | [] => get_sample_data
  | _ => concat data_frames
  end.

(** [st.session_state] *)
Record session_state : Type := {
  search_results : option (list Row);
  search_performed : bool;
  high_risk_matches : list (string * Z)
}.

(** The session state of a new session. *)
Definition initial_state : session_state :=
  {| search_results := None; search_performed := false; high_risk_matches := [] |}.

(** What the search logic does besides its writes to the session state:
    the warning it shows and the call of the screening engine. *)
Inductive event : Type :=
| Warning (text : string)
| Screened (query : string) (choices : list string).

Inductive error : Type :=
| KeyError (key : string)
| IndexError.

(** A run of the search logic ends with the store, the session state and
    the events, or with an exception that nothing catches. *)
Inductive result (A : Type) : Type :=
| Done (a : A)
| Fails (e : error).
Arguments Done {A} a.
Arguments Fails {A} e.

Definition bind {A B : Type} (x : result A) (f : A -> result B) : result B :=
  match x with
  | Done a => f a
  | Fails e => Fails e
  end.

Notation "x <- c ;; k" := (bind c (fun x => k))
  (at level 61, c at next level, right associativity).

Fixpoint mapM {A B : Type} (f : A -> result B) (l : list A) : result (list B) :=
  match l with
  | [] => Done []
  | a :: l' => b <- f a ;; bs <- mapM f l' ;; Done (b :: bs)
  end.

Definition field_of (key : string) : option (Row -> string) :=
  if String.eqb key "Source" then Some Source
  else if String.eqb key "Reference_No" then Some Reference_No
  else if String.eqb key "Name" then Some Name
  else if String.eqb key "Aliases" then Some Aliases
  else if String.eqb key "DOB" then Some DOB
  else if String.eqb key "Designation" then Some Designation
  else if String.eqb key "Nationality" then Some Nationality
  else if String.eqb key "Raw_Data" then Some Raw_Data
  else None.

(** [df[key].astype(str)] for one of the columns of the records. *)
Definition getitem (df : DataFrame) (key : string) : result (list string) :=
  if has_column df key then
    match field_of key with
    | Some f => Done (map f (rows df))
    | None => Fails (KeyError key)
    end
  else Fails (KeyError key).

(** The element-wise [a + " " + b] of two columns. *)
Fixpoint add_columns (a b : list string) : list string :=
  match a, b with
  | x :: a', y :: b' => (x ++ " " ++ y) :: add_columns a' b'
  | _, _ => []
  end.

(** The search key of a record, as the assignment to [Search_Vector]
    computes it. *)
Definition search_key (r : Row) : string := Name r ++ " " ++ Aliases r.

(** [df[df['Search_Vector'] == key].index[0]] *)
Fixpoint first_index (keys : list string) (key : string) (i : nat) : result nat :=
  match keys with
  | [] => Fails IndexError
  | k :: keys' => if String.eqb k key then Done i else first_index keys' key (S i)
  end.

(** [df.loc[i]] *)
Definition loc (df : DataFrame) (i : nat) : result Row :=
  match nth_error (rows df) i with
  | Some r => Done r
  | None => Fails (KeyError "index")
  end.

Definition threshold : Z := 80.

(** The condition of the comprehension that filters the matches. *)
Definition is_high_risk (m : string * Z) : bool := (threshold <=? snd m)%Z.

Definition nonempty {A : Type} (l : list A) : bool :=
  match l with [] => false | _ => true end.

(** Section 5 of [main], the search logic: from the button, the text of
    the input, the store and the session state to the store, the session
    state and the events. *)
Definition search_logic (search_btn : bool) (search_query : string)
           (df_master : DataFrame) (ss : session_state)
  : result (DataFrame * session_state * list event) :=
  if search_btn then
    if truthy search_query then
      names <- getitem df_master "Name" ;;
      aliases <- getitem df_master "Aliases" ;;
      let vector := add_columns names aliases in
      let df_master :=
        {| columns := union_labels (columns df_master) ["Search_Vector"];
           rows := rows df_master;
           search_vector := Some vector |} in
      let matches := Fuzz.extract search_query vector 10 in
      let high_risk := filter is_high_risk matches in
      if nonempty high_risk then
        matched_indices <- mapM (fun m => first_index vector (fst m) 0) high_risk ;;
        found <- mapM (loc df_master) matched_indices ;;
        Done (df_master,
              {| search_results := Some found;
                 search_performed := true;
                 high_risk_matches := high_risk |},
              [Screened search_query vector])
      else
        Done (df_master,
              {| search_results := None;
                 search_performed := true;
                 high_risk_matches := high_risk |},
              [Screened search_query vector])
    else
      Done (df_master,
            {| search_results := search_results ss;
               search_performed := false;
               high_risk_matches := high_risk_matches ss |},
            [Warning "Please enter a name to screen."])
  else Done (df_master, ss, []).

(** What section 6 of [main] displays. *)
Inductive banner : Type := RED_ALERT | NO_MATCH_FOUND | Nothing.

Definition display (ss : session_state) : banner :=
  if search_performed ss then
    if nonempty (high_risk_matches ss) then RED_ALERT else NO_MATCH_FOUND
  else Nothing.

(** One run of [main], from the uploads and the input to the end of the
    search logic. *)
Definition main (u : uploads) (search_btn : bool) (search_query : string)
           (ss : session_state)
  : result (DataFrame * session_state * list event) :=
  search_logic search_btn search_query (combine (load_frames u)) ss.

End App.

(* ================================================================== *)
(** ** A scanner for the marker [KDN] *)
(* ================================================================== *)

Module Marker.

(** How much of the marker the text read so far ends with; [Seen] once
    the whole marker has been read. *)
Inductive state : Type := Start | K | KD | Seen.

Definition step (st : state) (c : ascii) : state :=
  match st with
  | Seen => Seen
  | _ =>
      if Ascii.eqb "K" c then K
      else
        match st with
        | K => if Ascii.eqb "D" c then KD else Start
        | KD => if Ascii.eqb "N" c then Seen else Start
        | _ => Start
        end
  end.

Fixpoint run (st : state) (s : string) : state :=
  match s with
  | EmptyString => st
  | String c s' => run (step st c) s'
  end.

Definition seen (st : state) : bool :=
  match st with Seen => true | _ => false end.

End Marker.

(* ================================================================== *)
(** ** What a pattern can match *)

Module Lang.
Import PyStr Re.

(** The reading of a pattern that does not depend on the order in which
    the matcher tries the alternatives.  [matches r pos w rest new]: where
    the text [w ++ rest] begins at offset [pos] of the subject, the
    pattern [r] can match the text [w] and record the spans [new] for its
    groups, the latest first. *)
Fixpoint matches (r : regex) (pos : nat) (w rest : string) (new : captures) : Prop :=
  match r with
  | Lit l => w = l /\ new = []
  | Cls p => (exists c, w = String c EmptyString /\ p c = true) /\ new = []
  | Star p => sall p w = true /\ new = []
  | PlusLazy p => w <> EmptyString /\ sall p w = true /\ new = []
  | Seq r1 r2 =>
      exists w1 w2 n1 n2,
        w = w1 ++ w2 /\ new = (n2 ++ n1)%list
        /\ matches r1 pos w1 (w2 ++ rest) n1
        /\ matches r2 (pos + String.length w1) w2 rest n2
  | Alt r1 r2 => matches r1 pos w rest new \/ matches r2 pos w rest new
  | Grp n r1 =>
      exists n1, new = (n, (pos, pos + String.length w)) :: n1
                 /\ matches r1 pos w rest n1
  | Ahead r1 =>
      w = EmptyString
      /\ exists w1 rest1, rest = w1 ++ rest1 /\ matches r1 pos w1 rest1 new
  end.

(** Whether a continuation fails does not depend on the spans recorded:
    the patterns have no reference to a group. *)
Definition blind (k : cont) : Prop :=
  forall s pos c1 c2, k s pos c1 = None -> k s pos c2 = None.

(** A reference number as the pattern [ref_pattern] describes it. *)
Definition reference_number (s : string) : Prop :=
  exists (a b c : ascii) (digits : string),
    s = String a (String b (String c ("." ++ digits)))
    /\ is_upper_az a = true /\ is_upper_az b = true
    /\ In c ["i"; "|"; "e"]%char
    /\ digits <> EmptyString /\ sall is_digit digits = true.

End Lang.

(* ================================================================== *)
(** ** Runs of white space *)

Module Runs.
Import PyStr.

(** The length of the run of characters of the class [p] at the head of
    [s]. *)
Fixpoint run_length (p : ascii -> bool) (s : string) : nat :=
  match s with
  | String c s' => if p c then S (run_length p s') else 0
  | EmptyString => 0
  end.

(** [s] with every run of white space replaced by one space.  [in_run]
    tells that the character before was white space, which the space
    already written stands for. *)
Fixpoint squeeze (in_run : bool) (s : string) : string :=
  match s with
  | EmptyString => EmptyString
  | String c s' =>
      if is_space c then
        if in_run then squeeze true s' else String " " (squeeze true s')
      else String c (squeeze false s')
  end.

End Runs.

(* ================================================================== *)
(** ** The statements of the specification *)
(* ================================================================== *)

(** The definitions of this module follow the words of the specification,
    not the code; the theorems compare them with the code. *)
Module Claims.
Import PyStr.

(** "records scoring at least 80 are classified as high-risk matches" *)
Definition classified_high_risk (score : Z) : bool := (80 <=? score)%Z.

(** "screening is rejected": the warning is the only event, the store is
    the one given, and the session keeps its results, with the search
    marked as not performed. *)
Definition rejected (search_query : string) (df : Pandas.DataFrame)
           (ss : App.session_state) : Prop :=
  App.search_logic true search_query df ss =
  App.Done (df,
            {| App.search_results := App.search_results ss;
               App.search_performed := false;
               App.high_risk_matches := App.high_risk_matches ss |},
            [App.Warning "Please enter a name to screen."]).

(** "strip embedded ordinal markers and the literal filler token;
    collapse all whitespace runs to single spaces" *)
Definition is_marker_or_filler (token : string) : bool :=
  existsb (String.eqb token) ["1:"; "2:"; "3:"; "4:"; "na"].

Definition labeled_name (labeled_text : string) : string :=
  join " " (filter (fun t => negb (is_marker_or_filler t)) (split labeled_text)).

(** "trim surrounding whitespace and semicolons" *)
Definition trimmed (fragment : string) : string :=
  strip_by (fun c => is_space c || Ascii.eqb c ";"%char) fragment.

(** "discard fragments that are empty, a single character, or equal
    (case-insensitive) to the filler token" *)
Definition discarded (fragment : string) : bool :=
  (String.length fragment <=? 1) || String.eqb (lower fragment) "na".

Definition block_aliases (block : string) : list string :=
  filter (fun f => negb (discarded f))
         (map trimmed (Re.split UN.enum_re (replace NL " " block))).

(** "name concatenated with all aliases, joined by a single space" *)
Definition joined_key (name : string) (aliases : list string) : string :=
  join " " (name :: aliases).

(** "an extraction-time error occurs": opening the document raises, or
    the extraction from one of its pages does. *)
Definition is_raises {A : Type} (o : outcome A) : bool :=
  match o with Raises => true | Returns _ => false end.

Definition error_occurs {A : Type} (pdf : outcome (list (outcome A))) : bool :=
  match pdf with
  | Raises => true
  | Returns pages => existsb is_raises pages
  end.

(** The earlier records of the store that reach the score 100 for a
    query. *)
Definition ties_before (query : string) (earlier : list Row) : nat :=
  List.length (filter (fun r => (Fuzz.score query (App.search_key r) =? 100)%Z) earlier).

End Claims.

(* ================================================================== *)
(** * Theorems *)
(* ================================================================== *)

Import PyStr Pandas App.

(** ** The screening step *)

Lemma truthy_nonempty (s : string) : truthy s = true <-> s <> "".
Proof. destruct s; simpl; split; congruence. Qed.

Lemma add_columns_map (f g : Row -> string) (l : list Row) :
  add_columns (map f l) (map g l) = map (fun r => f r ++ " " ++ g r) l.
Proof. induction l as [|r l IH]; simpl; [reflexivity | now rewrite IH]. Qed.

Lemma getitem_Name (df : DataFrame) (l : list string) :
  getitem df "Name" = Done l -> l = map Name (rows df).
Proof.
  unfold getitem. destruct (has_column df "Name"); simpl; congruence.
Qed.

Lemma getitem_Aliases (df : DataFrame) (l : list string) :
  getitem df "Aliases" = Done l -> l = map Aliases (rows df).
Proof.
  unfold getitem. destruct (has_column df "Aliases"); simpl; congruence.
Qed.

(** What a completed screening leaves behind: the search vector is
    computed from the rows, the engine is called once on it, and the
    session holds the matches at or above the threshold. *)
Lemma search_logic_screened (query : string) (df df' : DataFrame)
      (ss ss' : session_state) (ev : list event) :
  query <> "" ->
  search_logic true query df ss = Done (df', ss', ev) ->
  let vector := map search_key (rows df) in
  ev = [Screened query vector]
  /\ rows df' = rows df
  /\ search_vector df' = Some vector
  /\ search_performed ss' = true
  /\ high_risk_matches ss' = filter is_high_risk (Fuzz.extract query vector 10).
Proof.
  intros Hq H. apply truthy_nonempty in Hq.
  unfold search_logic in H. rewrite Hq in H.
  destruct (getitem df "Name") as [names|] eqn:Hn; simpl in H; [|discriminate].
  destruct (getitem df "Aliases") as [aliases|] eqn:Ha; simpl in H; [|discriminate].
  apply getitem_Name in Hn. apply getitem_Aliases in Ha. subst names aliases.
  rewrite add_columns_map in H. fold search_key in H.
  change (map (fun r => search_key r) (rows df)) with (map search_key (rows df)) in H.
  destruct (nonempty _) in H.
  - destruct (mapM _ _) as [idx|] in H; simpl in H; [|discriminate].
    destruct (mapM _ idx) as [found|] in H; simpl in H; [|discriminate].
    injection H as <- <- <-. simpl. repeat split.
  - injection H as <- <- <-. simpl. repeat split.
Qed.

Lemma extract_length (query : string) (choices : list string) (limit : nat) :
  List.length (Fuzz.extract query choices limit) <= limit.
Proof.
  unfold Fuzz.extract, Fuzz.rapidfuzz_extract, Fuzz.nlargest.
  rewrite length_map. apply firstn_le_length.
Qed.

Lemma mapM_Forall2 {A B : Type} (f : A -> result B) (l : list A) (l' : list B) :
  mapM f l = Done l' -> Forall2 (fun a b => f a = Done b) l l'.
Proof.
  revert l'. induction l as [|a l IH]; simpl; intros l' H.
  - injection H as <-. constructor.
  - destruct (f a) as [b|] eqn:Hf; simpl in H; [|discriminate].
    destruct (mapM f l) as [bs|]; simpl in H; [|discriminate].
    injection H as <-. constructor; auto.
Qed.

Lemma first_index_nth (keys : list string) (key : string) (i j : nat) :
  first_index keys key i = Done j -> i <= j /\ nth_error keys (j - i) = Some key.
Proof.
  revert i. induction keys as [|k keys IH]; simpl; intros i H; [discriminate|].
  destruct (String.eqb k key) eqn:E.
  - injection H as <-. apply String.eqb_eq in E. subst k.
    rewrite Nat.sub_diag. auto.
  - apply IH in H as [Hle Hn]. split; [lia|].
    replace (j - i) with (S (j - S i)) by lia. exact Hn.
Qed.

(** The rows shown for a match are rows of the store, one for each
    high-risk match and with its text as search key. *)
Lemma search_results_from_matches (query : string) (df df' : DataFrame)
      (ss ss' : session_state) (ev : list event) (found : list Row) :
  query <> "" ->
  search_logic true query df ss = Done (df', ss', ev) ->
  search_results ss' = Some found ->
  Forall2 (fun m r => In r (rows df) /\ search_key r = fst m)
          (high_risk_matches ss') found.
Proof.
  intros Hq H Hf. apply truthy_nonempty in Hq.
  unfold search_logic in H. rewrite Hq in H.
  destruct (getitem df "Name") as [names|] eqn:Hn; simpl in H; [|discriminate].
  destruct (getitem df "Aliases") as [aliases|] eqn:Ha; simpl in H; [|discriminate].
  apply getitem_Name in Hn. apply getitem_Aliases in Ha. subst names aliases.
  rewrite add_columns_map in H. fold search_key in H.
  change (map (fun r => search_key r) (rows df)) with (map search_key (rows df)) in H.
  destruct (nonempty _) in H.
  2:{ injection H as <- <- <-. simpl in Hf. discriminate. }
  destruct (mapM _ _) as [idx|] eqn:Hidx in H; simpl in H; [|discriminate].
  destruct (mapM _ idx) as [found'|] eqn:Hfound in H; simpl in H; [|discriminate].
  injection H as <- <- <-. simpl in Hf. injection Hf as ->. simpl.
  apply mapM_Forall2 in Hidx. apply mapM_Forall2 in Hfound.
  revert found Hfound.
  induction Hidx as [|m i ms idxs Hi _ IH]; intros found Hfound;
    inversion Hfound as [|? r ? rs Hr Hrs]; subst; constructor; auto.
  apply first_index_nth in Hi as [_ Hi]. rewrite Nat.sub_0_r in Hi.
  unfold loc in Hr. simpl in Hr.
  destruct (nth_error (rows df) i) as [r'|] eqn:Hnth; [|discriminate].
  injection Hr as ->. split.
  - eapply nth_error_In; eauto.
  - rewrite nth_error_map, Hnth in Hi. simpl in Hi. congruence.
Qed.

(** C2. In every screening that completes, the engine returns at most ten
    candidates, a returned candidate is among the high-risk matches of
    the session exactly when its score is at least 80 (so 80 is in and 79
    is out), and the rows the caller acts on are one row of the store for
    each high-risk match, with the text of the match as search key. *)
Theorem high_risk_iff_score_at_least_80
        (query : string) (df df' : DataFrame) (ss ss' : session_state)
        (ev : list event) :
  query <> "" ->
  search_logic true query df ss = Done (df', ss', ev) ->
  let matches := Fuzz.extract query (map search_key (rows df)) 10 in
  List.length matches <= 10
  /\ (forall m, In m (high_risk_matches ss') <-> In m matches /\ (80 <= snd m)%Z)
  /\ (forall m, is_high_risk m = Claims.classified_high_risk (snd m))
  /\ (forall c, is_high_risk (c, 80%Z) = true /\ is_high_risk (c, 79%Z) = false)
  /\ (forall found, search_results ss' = Some found ->
        Forall2 (fun m r => In r (rows df) /\ search_key r = fst m)
                (high_risk_matches ss') found).
Proof.
  intros Hq H matches.
  destruct (search_logic_screened _ _ _ _ _ _ Hq H) as (_ & _ & _ & _ & Hhr).
  split; [apply extract_length|].
  split.
  { intro m. rewrite Hhr, filter_In. unfold is_high_risk, threshold.
    rewrite Z.leb_le. reflexivity. }
  split; [reflexivity|].
  split; [intro c; split; reflexivity|].
  intros found Hf. eapply search_results_from_matches; eauto.
Qed.

Lemma high_risk_iff_score_at_least_80_witness :
  exists out,
    search_logic true "Abdul Basir Noorzai" get_sample_data initial_state = Done out
    /\ high_risk_matches (snd (fst out)) =
       [("ABDUL BASIR NOORZAI Haji Abdul Basir | Haji Basir Noorzai", 100%Z)]
    /\ forall m, In m (high_risk_matches (snd (fst out))) <->
                 In m (Fuzz.extract "Abdul Basir Noorzai"
                                    (map search_key (rows get_sample_data)) 10)
                 /\ (80 <= snd m)%Z.
Proof.
  eexists (_, _, _). split; [vm_compute; reflexivity|].
  split; [reflexivity|].
  refine (proj1 (proj2 (high_risk_iff_score_at_least_80
                          "Abdul Basir Noorzai" get_sample_data _ initial_state _ _ _ _))).
  - discriminate.
  - vm_compute; reflexivity.
Defined.

(** ** The empty query *)

(** C3, as stated, fails: a query of one space is empty after trimming,
    and it is screened; no warning is shown and the store gets the search
    vector. *)
Lemma blank_query_is_screened :
  strip " " = ""
  /\ ~ Claims.rejected " " get_sample_data initial_state
  /\ exists df' ss',
       search_logic true " " get_sample_data initial_state =
       Done (df', ss', [Screened " " (map search_key sample_rows)])
       /\ search_performed ss' = true
       /\ df' <> get_sample_data.
Proof.
  split; [reflexivity|]. split.
  - unfold Claims.rejected. vm_compute. discriminate.
  - eexists. eexists. split; [vm_compute; reflexivity|].
    split; [reflexivity|]. vm_compute. discriminate.
Qed.

(** C3, amended. The search logic rejects a query exactly when the query
    is the empty string: then the warning is the only event, the engine
    is not called, and the store and the results of the session are
    unchanged.  Every other query, blank ones included, is screened or
    ends in an exception. *)
Theorem empty_query_rejected (query : string) (df : DataFrame) (ss : session_state) :
  Claims.rejected query df ss <-> query = "".
Proof.
  unfold Claims.rejected. split.
  - intro H. destruct query as [|c q]; [reflexivity|exfalso].
    unfold search_logic in H. simpl truthy in H. cbv iota in H.
    destruct (getitem df "Name") as [names|]; simpl in H; [|discriminate].
    destruct (getitem df "Aliases") as [aliases|]; simpl in H; [|discriminate].
    destruct (nonempty _) in H.
    + destruct (mapM _ _) as [idx|] in H; simpl in H; [|discriminate].
      destruct (mapM _ idx) as [found|] in H; simpl in H; discriminate.
    + discriminate.
  - intros ->. reflexivity.
Qed.

(** ** The search key *)

(** C8, as stated, fails: the aliases of a record are held joined by
    " | ", so the key of a record with two aliases is not the name and the
    aliases joined by single spaces; and the key of a record without alias
    ends with a space. *)
Lemma search_key_not_space_joined :
  search_key (UN.make_record "UNSCR 1988 (Taliban)" "TAi.173" "ABDUL BASIR NOORZAI"
                             ["Haji Abdul Basir"; "Haji Basir Noorzai"] "1965" "")
  = "ABDUL BASIR NOORZAI Haji Abdul Basir | Haji Basir Noorzai"
  /\ Claims.joined_key "ABDUL BASIR NOORZAI" ["Haji Abdul Basir"; "Haji Basir Noorzai"]
     = "ABDUL BASIR NOORZAI Haji Abdul Basir Haji Basir Noorzai"
  /\ search_key (UN.make_record "UNSCR 1718 (DPRK)" "KPi.033" "RI WON HO" [] "NA" "")
     <> Claims.joined_key "RI WON HO" [].
Proof. repeat split. vm_compute. discriminate. Qed.

(** C8, amended. The search key of a record is its name, one space, and
    its alias field, in which the narrative extractor holds the aliases
    joined by " | ".  Every screening computes the keys anew from the
    rows of the store, whatever search vector the store held before, and
    hands exactly these keys to the engine. *)
Theorem search_key_recomputed
        (query : string) (df df' : DataFrame) (ss ss' : session_state)
        (ev : list event) :
  query <> "" ->
  search_logic true query df ss = Done (df', ss', ev) ->
  ev = [Screened query (map (fun r => Name r ++ " " ++ Aliases r) (rows df))]
  /\ search_vector df' = Some (map (fun r => Name r ++ " " ++ Aliases r) (rows df))
  /\ rows df' = rows df
  /\ forall list_name ref_no name aliases dob entry,
       search_key (UN.make_record list_name ref_no name aliases dob entry)
       = name ++ " " ++ join " | " aliases.
Proof.
  intros Hq H.
  destruct (search_logic_screened _ _ _ _ _ _ Hq H) as (Hev & Hrows & Hv & _).
  repeat split; assumption.
Qed.

Lemma search_key_recomputed_witness :
  exists out,
    search_logic true "Ri Won Ho"
                 {| columns := row_keys; rows := sample_rows;
                    search_vector := Some ["stale"] |}
                 initial_state = Done out
    /\ search_vector (fst (fst out)) = Some (map search_key sample_rows).
Proof.
  eexists (_, _, _). split; [vm_compute; reflexivity|].
  refine (proj1 (proj2 (search_key_recomputed
                          "Ri Won Ho" (mkDF row_keys sample_rows (Some ["stale"]))
                          _ initial_state _ _ _ _))).
  - discriminate.
  - vm_compute; reflexivity.
Defined.

(** ** The empty store *)

Lemma fold_union_no_columns (frames : list DataFrame) (acc : list string) :
  Forall (fun df => columns df = []) frames ->
  fold_left union_labels (map columns frames) acc = acc.
Proof.
  intro H. revert acc.
  induction H as [|df frames Hdf _ IH]; intro acc; simpl; [reflexivity|].
  rewrite Hdf. simpl. apply IH.
Qed.

Lemma concat_no_columns (frames : list DataFrame) :
  Forall (fun df => columns df = []) frames -> columns (concat frames) = [].
Proof. intro H. unfold concat. simpl. now apply fold_union_no_columns. Qed.

Lemma load_frames_from_records (u : uploads) :
  Forall from_records (load_frames u).
Proof.
  unfold load_frames, un_frame.
  destruct u as [f0 f1 f2 f3 f4]; simpl.
  destruct f0, f1, f2, f3, f4; simpl;
    repeat (constructor; [eexists; reflexivity|]); constructor.
Qed.

Lemma flat_map_no_rows (frames : list DataFrame) :
  Forall (fun df => rows df = []) frames -> flat_map rows frames = [].
Proof.
  induction 1 as [|df l Hdf _ IH]; [reflexivity|].
  simpl. now rewrite Hdf, IH.
Qed.

(** C10 fails on every input it speaks of.  When at least one document
    was supplied and every supplied document gave zero records, the
    combined store has no column, and the screening of any non-empty query
    ends with the exception [KeyError: 'Name'] instead of an empty list of
    high-risk matches. *)
Theorem empty_store_raises_KeyError
        (u : uploads) (query : string) (ss : session_state) :
  load_frames u <> [] ->
  Forall (fun df => rows df = []) (load_frames u) ->
  query <> "" ->
  len (combine (load_frames u)) = 0
  /\ main u true query ss = Fails (KeyError "Name").
Proof.
  intros Hne Hempty Hq. apply truthy_nonempty in Hq.
  assert (Hcols : Forall (fun df => columns df = []) (load_frames u)).
  { pose proof (load_frames_from_records u) as Hfr.
    rewrite Forall_forall in *. intros df Hin.
    destruct (Hfr df Hin) as [data ->]. specialize (Hempty _ Hin).
    simpl in Hempty. subst data. reflexivity. }
  unfold main. destruct (load_frames u) as [|df0 frames] eqn:E; [congruence|].
  unfold combine. split.
  - change (List.length (flat_map rows (df0 :: frames)) = 0).
    now rewrite (flat_map_no_rows _ Hempty).
  - unfold search_logic. rewrite Hq. unfold getitem, has_column.
    rewrite (concat_no_columns _ Hcols). reflexivity.
Qed.

Lemma empty_store_raises_KeyError_witness :
  main {| file_moha := Some Raises; file_1267 := None; file_1988 := None;
          file_1718 := None; file_2231 := None |}
       true "Halimah" initial_state
  = Fails (KeyError "Name").
Proof.
  refine (proj2 (empty_store_raises_KeyError _ "Halimah" initial_state _ _ _)).
  - discriminate.
  - repeat constructor.
  - discriminate.
Defined.

(** ** Errors during the extraction *)

Lemma read_pages_raises (pages : list (outcome (option string))) (full_text : string) :
  existsb Claims.is_raises pages = true -> UN.read_pages pages full_text = Raises.
Proof.
  revert full_text. induction pages as [|p pages IH]; simpl; intros full_text H.
  - discriminate.
  - destruct p as [[t|]|]; simpl in H; auto.
    destruct (truthy t); auto.
Qed.

Lemma parse_pages_raises (pages : list (outcome (list table))) (data : list Row) :
  existsb Claims.is_raises pages = true ->
  exists before after,
    pages = (map Returns before ++ Raises :: after)%list
    /\ KDN.parse_pages pages data
       = (data ++ flat_map (flat_map KDN.parse_table) before)%list.
Proof.
  revert data. induction pages as [|p pages IH]; simpl; intros data H.
  - discriminate.
  - destruct p as [tables|]; simpl in H.
    + destruct (IH (data ++ flat_map KDN.parse_table tables)%list H)
        as (before & after & -> & Hp).
      exists (tables :: before), after. split; [reflexivity|].
      rewrite Hp. simpl. now rewrite app_assoc.
    + exists [], pages. split; [reflexivity|]. simpl. now rewrite app_nil_r.
Qed.

(** C9, as stated, fails for the tabular extractor: when the second page
    of a document raises, the record of the first page is returned. *)
Lemma tabular_error_keeps_earlier_records :
  let pdf : table_pdf :=
    Returns [Returns [[[Some "1"; Some "KDN.I.08-2014"; Some "Halimah binti Hussein"]]];
             Raises] in
  Claims.error_occurs pdf = true
  /\ map Name (rows (KDN.parse_kdn_pdf pdf)) = ["Halimah binti Hussein"]
  /\ KDN.parse_kdn_pdf pdf <> of_records [].
Proof. repeat split. vm_compute. discriminate. Qed.

(** C9, amended. Neither extractor lets an error of the extraction reach
    its caller: both return a frame for every document.  When an error
    occurs, the narrative extractor returns the empty frame; the tabular
    extractor returns the records of the pages before the one that
    raised, which is the empty frame when opening the document raised or
    no page before had a qualifying row. *)
Theorem extraction_error_policy :
  (forall (pdf : text_pdf) (list_name : string),
      Claims.error_occurs pdf = true ->
      UN.parse_un_style_pdf pdf list_name = of_records [])
  /\ (forall pdf : table_pdf,
        Claims.error_occurs pdf = true ->
        (pdf = Raises /\ KDN.parse_kdn_pdf pdf = of_records [])
        \/ exists before after,
             pdf = Returns (map Returns before ++ Raises :: after)%list
             /\ KDN.parse_kdn_pdf pdf =
                of_records (flat_map (flat_map KDN.parse_table) before)).
Proof.
  split.
  - intros [pages|] list_name H; [|reflexivity].
    unfold UN.parse_un_style_pdf, UN.parse_data. simpl in H.
    now rewrite (read_pages_raises _ _ H).
  - intros [pages|] H; [right|left; split; reflexivity].
    simpl in H. destruct (parse_pages_raises pages [] H) as (before & after & -> & Hp).
    exists before, after. split; [reflexivity|].
    unfold KDN.parse_kdn_pdf, KDN.parse_data. now rewrite Hp.
Qed.

Lemma extraction_error_policy_witness :
  UN.parse_un_style_pdf
    (Returns [Returns (Some " QDi.006 Name: 1: AIMAN 2: na Title: na"); Raises])
    "UNSCR 1267 (ISIL/Al-Qaida)"
  = of_records []
  /\ exists before after,
       Returns [Returns [[[Some "1"; Some "KDN.I.08-2014"]]]; Raises]
       = Returns (map Returns before ++ Raises :: after)%list
       /\ KDN.parse_kdn_pdf (Returns [Returns [[[Some "1"; Some "KDN.I.08-2014"]]]; Raises])
          = of_records (flat_map (flat_map KDN.parse_table) before).
Proof.
  split.
  - apply (proj1 extraction_error_policy). reflexivity.
  - destruct (proj2 extraction_error_policy
                (Returns [Returns [[[Some "1"; Some "KDN.I.08-2014"]]]; Raises]) eq_refl)
      as [[H _]|H]; [discriminate | exact H].
Defined.

(** ** Qualifying rows of a table *)

Lemma run_app (st : Marker.state) (a b : string) :
  Marker.run st (a ++ b) = Marker.run (Marker.run st a) b.
Proof. revert st. induction a as [|c a IH]; intro st; simpl; auto. Qed.

Lemma run_Seen (s : string) : Marker.run Marker.Seen s = Marker.Seen.
Proof. induction s; simpl; auto. Qed.

(** The scanner decides [in]: from each state, the marker is reached when
    the text goes on with what is missing of it, or holds it further on. *)
Lemma run_contains (s : string) (st : Marker.state) :
  Marker.seen (Marker.run st s) =
  match st with
  | Marker.Seen => true
  | Marker.Start => contains "KDN" s
  | Marker.K => startswith "DN" s || contains "KDN" s
  | Marker.KD => startswith "N" s || contains "KDN" s
  end.
Proof.
  revert st. induction s as [|c s IH]; intro st.
  - destruct st; reflexivity.
  - cbn [Marker.run]. rewrite IH. clear IH.
    destruct st; cbn [Marker.step contains startswith];
      destruct (Ascii.eqb_spec "K" c) as [HK|HK];
      destruct (Ascii.eqb_spec "D" c) as [HD|HD];
      destruct (Ascii.eqb_spec "N" c) as [HN|HN];
      try (subst c; discriminate); cbn [andb orb]; reflexivity.
Qed.

(** The escape of a character moves the scanner as the character itself
    does: an escape has none of the letters of the marker. *)
Lemma run_repr_char (q c : ascii) (st : Marker.state) :
  q = "'"%char \/ q = dquote ->
  Marker.run st (repr_char q c) = Marker.step st c.
Proof.
  intros [-> | ->]; destruct c as [[] [] [] [] [] [] [] []], st; reflexivity.
Qed.

Lemma run_repr_body (q : ascii) (s : string) (st : Marker.state) :
  q = "'"%char \/ q = dquote ->
  Marker.run st (repr_body q s) = Marker.run st s.
Proof.
  intro Hq. revert st. induction s as [|c s IH]; intro st; [reflexivity|].
  cbn [repr_body Marker.run]. now rewrite run_app, run_repr_char, IH.
Qed.

Lemma is_kdn_cell_contains (s : string) :
  KDN.is_kdn_cell (Some s) = contains "KDN" s.
Proof. destruct s; reflexivity. Qed.

(** The scanner after [repr] of a cell, started at [Start]: at [Seen] when
    the cell has the marker, back at [Start] when not. *)
Lemma run_repr_cell (c : cell) :
  Marker.run Marker.Start (KDN.repr_cell c) =
  if KDN.is_kdn_cell c then Marker.Seen else Marker.Start.
Proof.
  destruct c as [s|]; [|reflexivity].
  rewrite is_kdn_cell_contains.
  pose proof (run_contains s Marker.Start) as H. cbn beta iota in H. rewrite <- H.
  unfold KDN.repr_cell, repr.
  destruct (mem_char "'"%char s && negb (mem_char dquote s));
    cbn [Marker.run]; rewrite run_app, run_repr_body by auto;
    change (Marker.step Marker.Start _) with Marker.Start;
    destruct (Marker.run Marker.Start s); reflexivity.
Qed.

Lemma run_join_cells (row : list cell) :
  Marker.run Marker.Start (join ", " (map KDN.repr_cell row)) =
  if existsb KDN.is_kdn_cell row then Marker.Seen else Marker.Start.
Proof.
  induction row as [|c row IH]; [reflexivity|].
  destruct row as [|c' row].
  - simpl. rewrite run_repr_cell. now rewrite orb_false_r.
  - change (join ", " (map KDN.repr_cell (c :: c' :: row)))
      with (KDN.repr_cell c ++ ", " ++ join ", " (map KDN.repr_cell (c' :: row))).
    rewrite !run_app, run_repr_cell.
    cbn [existsb] in *. destruct (KDN.is_kdn_cell c); cbn [orb].
    + now rewrite !run_Seen.
    + exact IH.
Qed.

(** A row qualifies exactly when one of its cells holds the marker, so the
    scan for the reference of a qualifying row always finds a cell. *)
Lemma qualifies_iff_kdn_cell (row : list cell) :
  contains "KDN" (KDN.str_row row) = existsb KDN.is_kdn_cell row.
Proof.
  pose proof (run_contains (KDN.str_row row) Marker.Start) as H.
  cbn beta iota in H. rewrite <- H.
  unfold KDN.str_row. cbn [append Marker.run Marker.step]. simpl Ascii.eqb. cbn iota.
  rewrite run_app, run_join_cells.
  destruct (existsb KDN.is_kdn_cell row); reflexivity.
Qed.

Lemma scan_ref_find (row : list cell) (init : cell) :
  KDN.scan_ref row init =
  match find KDN.is_kdn_cell row with Some c => c | None => init end.
Proof.
  induction row as [|c row IH]; simpl; [reflexivity|].
  destruct (KDN.is_kdn_cell c); auto.
Qed.

Lemma existsb_find {A : Type} (p : A -> bool) (l : list A) :
  existsb p l = true -> exists x, find p l = Some x /\ p x = true.
Proof.
  induction l as [|a l IH]; simpl; [discriminate|].
  destruct (p a) eqn:E; simpl; eauto.
Qed.

(** C6, as stated, fails: in a qualifying row of two cells the name is the
    sentinel "Unknown", not "N/A". *)
Lemma short_row_name_is_Unknown :
  let row := [Some "KDN.I.08-2014"; Some "Halimah binti Hussein"] in
  contains "KDN" (KDN.str_row row) = true
  /\ ~ 2 < List.length row
  /\ exists r, KDN.parse_row row = Some r /\ Name r = "Unknown" /\ Name r <> "N/A".
Proof.
  split; [reflexivity|]. split; [simpl; lia|].
  eexists. split; [reflexivity|]. split; [reflexivity|]. discriminate.
Qed.

(** C6, amended. Every qualifying row gives a record.  Its reference
    number is the first cell, from the left, that holds "KDN", with each
    line break replaced by " | "; such a cell always exists, so no
    sentinel stands in for the reference.  Its name is the cell at index
    2 with each line break replaced by a space when the row has more than
    2 cells and that cell is not empty, "N/A" when that cell is empty or
    absent from the table, and "Unknown" when the row has at most 2
    cells. *)
Theorem kdn_row_name_and_reference (row : list cell) :
  contains "KDN" (KDN.str_row row) = true ->
  exists r s,
    KDN.parse_row row = Some r
    /\ find KDN.is_kdn_cell row = Some (Some s)
    /\ contains "KDN" s = true
    /\ Reference_No r = replace NL " | " s
    /\ Name r = if 2 <? List.length row
                then match nth 2 row None with
                     | Some n => if truthy n then replace NL " " n else "N/A"
                     | None => "N/A"
                     end
                else "Unknown".
Proof.
  intro H. unfold KDN.parse_row. rewrite H.
  rewrite qualifies_iff_kdn_cell in H.
  destruct (existsb_find _ _ H) as ([s|] & Hfind & Hk); [|discriminate].
  eexists. exists s. split; [reflexivity|]. cbn [Reference_No Name].
  split; [exact Hfind|].
  split; [now rewrite <- is_kdn_cell_contains|].
  split.
  - rewrite scan_ref_find, Hfind. unfold KDN.clean.
    simpl in Hk. destruct (truthy s); [reflexivity|discriminate].
  - unfold KDN.cell_at, KDN.clean.
    destruct (2 <? List.length row); [|reflexivity].
    destruct (nth 2 row None) as [n|]; reflexivity.
Qed.

Lemma kdn_row_name_and_reference_witness :
  exists r,
    KDN.parse_row [Some "1"; Some "KDN.I.08-2014"; Some "Halimah binti Hussein";
                   None; None; Some "9.12.1961"] = Some r
    /\ Reference_No r = "KDN.I.08-2014"
    /\ Name r = "Halimah binti Hussein".
Proof.
  destruct (kdn_row_name_and_reference
              [Some "1"; Some "KDN.I.08-2014"; Some "Halimah binti Hussein";
               None; None; Some "9.12.1961"] eq_refl)
    as (r & s & Hr & Hfind & _ & Href & Hname).
  exists r. split; [exact Hr|].
  injection Hfind as <-. split; [exact Href | exact Hname].
Defined.

(** ** Names of narrative entries *)

Lemma lit_rest_startswith (l s : string) :
  startswith l s = false -> Re.lit_rest l s = None.
Proof.
  revert s. induction l as [|a l IH]; intros [|b s]; simpl; try discriminate; auto.
  destruct (Ascii.eqb a b); simpl; auto.
Qed.

(** A pattern that begins with a literal text matches nowhere in a subject
    that does not hold the text. *)
Lemma search_from_without_literal (l : string) (r : Re.regex) (s : string) (pos : nat) :
  contains l s = false -> Re.search_from (Re.Seq (Re.Lit l) r) s pos = None.
Proof.
  revert pos. induction s as [|c s IH]; intros pos H; simpl in H;
    apply orb_false_iff in H as [Hs Hc]; cbn [Re.search_from];
    unfold Re.match_at; cbn [Re.m]; rewrite (lit_rest_startswith _ _ Hs); auto.
Qed.

(** An entry without the label "Name:" gets the sentinel name. *)
Lemma name_without_label (entry : string) :
  contains "Name:" entry = false -> UN.extract_name entry = "Unknown Name".
Proof.
  intro H. unfold UN.extract_name, Re.search.
  change UN.name_re with (Re.Seq (Re.Lit "Name:")
    (Re.seq [Re.Star is_space; Re.Grp 1 (Re.PlusLazy Re.any); Re.Plus is_space;
             Re.alt (Re.Lit "Name (original")
                    [Re.Lit "Title:"; Re.Lit "Designation:"; Re.Lit "DOB:"]])).
  now rewrite search_from_without_literal.
Qed.

(** C4 holds of the specification and fails on the code.  The entry below
    has the label "Name:", the name "Ghana Relief Fund" and the terminator
    "Title:".  The labeled text has no marker and no filler token, and its
    words are one space apart, so the claimed name is the text itself; the
    extracted name lacks the letters "na" of "Ghana", because the code
    deletes every occurrence of "na", inside words too. *)
Theorem name_loses_na_inside_words :
  let entry := "QDe.001 Name: Ghana Relief Fund Title: na Designation: na" in
  option_map (fun mt => Re.group entry mt 1) (Re.search UN.name_re entry)
  = Some "Ghana Relief Fund"
  /\ Claims.labeled_name "Ghana Relief Fund" = "Ghana Relief Fund"
  /\ UN.extract_name entry = "Gha Relief Fund"
  /\ map Name (rows (UN.parse_un_style_pdf (Returns [Returns (Some entry)])
                                           "UNSCR 1267 (ISIL/Al-Qaida)"))
     = ["Gha Relief Fund"].
Proof. repeat split. Qed.

(** On the names the lists usually carry, in capitals with the markers
    "1:" to "4:" and the filler "na", the code and the claim agree. *)
Example name_of_numbered_entry :
  let entry := "TAi.173 Name: 1: ABDUL 2: BASIR 3: NOORZAI 4: na" ++ NL
               ++ "Title: Haji Designation: na DOB: 1965 POB: na" in
  UN.extract_name entry = "ABDUL BASIR NOORZAI"
  /\ Claims.labeled_name "1: ABDUL 2: BASIR 3: NOORZAI 4: na" = "ABDUL BASIR NOORZAI".
Proof. split; reflexivity. Qed.

(** ** Aliases of narrative entries *)

Lemma length_smap (f : ascii -> ascii) (s : string) :
  String.length (smap f s) = String.length s.
Proof. induction s; simpl; auto. Qed.

(** The second test of the comprehension never decides: a fragment longer
    than two characters is not "na", in any case of the letters. *)
Lemma keeps_fragment_length (a : string) :
  UN.keeps_fragment a = (2 <? String.length a).
Proof.
  unfold UN.keeps_fragment. destruct (2 <? String.length a) eqn:E; [|reflexivity].
  destruct (String.eqb_spec (lower a) "na") as [H|H]; [|reflexivity].
  apply (f_equal String.length) in H. unfold lower in H. rewrite length_smap in H.
  apply Nat.ltb_lt in E. simpl in H. lia.
Qed.

(** C5, as stated, fails: the fragment "Li", of two characters and not the
    filler, is an alias by the claim, and the code discards it. *)
Lemma two_letter_alias_discarded :
  let entry := "QDi.001 Name: LI Title: na Good quality a.k.a.: a) Bo Chen b)LiNationality: na" in
  option_map (fun mt => Re.group entry mt 2) (Re.search UN.alias_re entry)
  = Some " a) Bo Chen b)Li"
  /\ Re.split UN.enum_re " a) Bo Chen b)Li" = [" "; " Bo Chen "; "Li"]
  /\ Claims.block_aliases " a) Bo Chen b)Li" = ["Bo Chen"; "Li"]
  /\ UN.extract_aliases entry = ["Bo Chen"]
  /\ List.length (UN.extract_aliases entry)
     <> List.length (Claims.block_aliases " a) Bo Chen b)Li").
Proof. repeat split. vm_compute. discriminate. Qed.

(** C5, amended. The aliases of a block are its fragments of more than two
    characters, counted before trimming, in their order, each trimmed of
    the spaces and semicolons around it and then of the white space
    around it; so there are as many aliases as fragments of more than two
    characters.  This is stated for the blocks none of whose fragments is
    the filler "na" once trimmed. *)
Theorem aliases_are_long_fragments (block : string) :
  let fragments := Re.split UN.enum_re (replace NL " " block) in
  forallb (fun f => negb (String.eqb (lower (UN.trim_fragment f)) "na")) fragments = true ->
  UN.aliases_of_block block
  = map UN.trim_fragment (filter (fun f => 2 <? String.length f) fragments)
  /\ List.length (UN.aliases_of_block block)
     = List.length (filter (fun f => 2 <? String.length f) fragments)
  /\ forall entry mt,
       Re.search UN.alias_re entry = Some mt ->
       Re.group entry mt 2 = block ->
       UN.extract_aliases entry = UN.aliases_of_block block.
Proof.
  intros fragments _. unfold UN.aliases_of_block. fold fragments.
  rewrite (filter_ext _ _ keeps_fragment_length).
  split; [reflexivity|]. split; [apply length_map|].
  intros entry mt Hs Hg. unfold UN.extract_aliases. rewrite Hs, Hg.
  unfold UN.aliases_of_block. fold fragments.
  now rewrite (filter_ext _ _ keeps_fragment_length).
Qed.

Lemma aliases_are_long_fragments_witness :
  UN.aliases_of_block " a) Haji Abdul Basir b) Haji Basir Noorzai "
  = ["Haji Abdul Basir"; "Haji Basir Noorzai"].
Proof.
  refine (eq_trans (proj1 (aliases_are_long_fragments
            " a) Haji Abdul Basir b) Haji Basir Noorzai " _)) _);
    reflexivity.
Defined.

(** ** Sources and names of the records *)

Lemma replace_nonempty (old new s : string) :
  new <> "" -> s <> "" -> replace old new s <> "".
Proof.
  intros Hnew Hs. destruct s as [|c s]; [congruence|].
  unfold replace. cbn [replace_from].
  destruct (startswith old (String c s)); [|discriminate].
  destruct new; [congruence|discriminate].
Qed.

(** The tabular extractor names every record: the guard on the cell gives
    "N/A" for an empty cell. *)
Lemma kdn_record_named (row : list cell) (r : Row) :
  KDN.parse_row row = Some r -> Source r <> "" /\ Name r <> "".
Proof.
  unfold KDN.parse_row. destruct (contains "KDN" (KDN.str_row row)); [|discriminate].
  intro H. injection H as <-. cbn [Source Name]. split; [discriminate|].
  unfold KDN.clean. destruct (KDN.cell_at 2 row (Some "Unknown")) as [n|]; [|discriminate].
  destruct (truthy n) eqn:E; [|discriminate].
  apply replace_nonempty; [discriminate|]. now apply truthy_nonempty.
Qed.

(** The narrative extractor drops no chunk that has a reference number:
    the fields that are not found get their sentinels. *)
Lemma un_chunk_with_reference_kept (list_name entry : string) (mt : Re.rmatch) :
  strip entry <> "" ->
  Re.search UN.ref_re entry = Some mt ->
  exists r, UN.parse_entry list_name entry = Some r
            /\ Source r = list_name
            /\ Reference_No r = Re.group entry mt 1.
Proof.
  intros Hs Hm. apply truthy_nonempty in Hs.
  unfold UN.parse_entry. rewrite Hs, Hm. simpl. eauto.
Qed.

(** C7 holds of the specification and fails on the code.  The entry below
    has a reference number and a name field that holds only markers and
    fillers; the narrative extractor makes a record of it whose name is
    the empty string, where the tabular extractor guards the name with a
    sentinel. *)
Theorem narrative_record_with_empty_name :
  let pdf : text_pdf :=
    Returns [Returns (Some "QDi.001 Name: 1: na 2: na 3: na 4: na Title: na Designation: na")] in
  map (fun r => (Source r, Reference_No r, Name r))
      (rows (UN.parse_un_style_pdf pdf "UNSCR 1267 (ISIL/Al-Qaida)"))
  = [("UNSCR 1267 (ISIL/Al-Qaida)", "QDi.001", "")].
Proof. reflexivity. Qed.

(** ** Processed texts and their tokens *)

Ltac each_char c := destruct c as [[] [] [] [] [] [] [] []]; reflexivity.

Lemma is_space_lower_char (c : ascii) : is_space (lower_char c) = is_space c.
Proof. each_char c. Qed.

Lemma lower_char_idem (c : ascii) : lower_char (lower_char c) = lower_char c.
Proof. each_char c. Qed.

Lemma tidy_lower_char (c : ascii) : Fuzz.tidy c = true -> Fuzz.tidy (lower_char c) = true.
Proof. destruct c as [[] [] [] [] [] [] [] []]; intro H; try discriminate H; reflexivity. Qed.

Lemma tidy_word_or_space (c : ascii) :
  is_ascii c = true -> Fuzz.tidy (Fuzz.word_or_space c) = true.
Proof. destruct c as [[] [] [] [] [] [] [] []]; intro H; try discriminate H; reflexivity. Qed.

Lemma tidy_fixed (c : ascii) :
  Fuzz.tidy c = true -> is_ascii c = true /\ Fuzz.word_or_space c = c.
Proof.
  destruct c as [[] [] [] [] [] [] [] []]; intro H; try discriminate H; split; reflexivity.
Qed.

Lemma is_space_word_or_space (c : ascii) :
  is_ascii_alnum c = true -> is_space (Fuzz.word_or_space c) = false.
Proof. destruct c as [[] [] [] [] [] [] [] []]; intro H; try discriminate H; reflexivity. Qed.

Lemma smap_app (f : ascii -> ascii) (a b : string) :
  smap f (a ++ b) = smap f a ++ smap f b.
Proof. induction a as [|c a IH]; simpl; [reflexivity | now rewrite IH]. Qed.

Lemma sfilter_app (p : ascii -> bool) (a b : string) :
  sfilter p (a ++ b) = sfilter p a ++ sfilter p b.
Proof.
  induction a as [|c a IH]; simpl; [reflexivity|].
  destruct (p c); simpl; now rewrite IH.
Qed.

Lemma sfilter_sall (p : ascii -> bool) (s : string) :
  sall p s = true -> sfilter p s = s.
Proof.
  induction s as [|c s IH]; simpl; [reflexivity|].
  intro H. apply andb_prop in H as [Hc Hs]. rewrite Hc. now rewrite IH.
Qed.

Lemma sall_impl (p q : ascii -> bool) (s : string) :
  (forall c, p c = true -> q c = true) -> sall p s = true -> sall q s = true.
Proof.
  intro Hpq. induction s as [|c s IH]; simpl; [reflexivity|].
  intro H. apply andb_prop in H as [Hc Hs]. now rewrite (Hpq _ Hc), IH.
Qed.

Lemma sall_smap (p q : ascii -> bool) (f : ascii -> ascii) (s : string) :
  (forall c, p c = true -> q (f c) = true) -> sall p s = true -> sall q (smap f s) = true.
Proof.
  intro Hpq. induction s as [|c s IH]; simpl; [reflexivity|].
  intro H. apply andb_prop in H as [Hc Hs]. now rewrite (Hpq _ Hc), IH.
Qed.

Lemma smap_fixed (p : ascii -> bool) (f : ascii -> ascii) (s : string) :
  (forall c, p c = true -> f c = c) -> sall p s = true -> smap f s = s.
Proof.
  intro Hf. induction s as [|c s IH]; simpl; [reflexivity|].
  intro H. apply andb_prop in H as [Hc Hs]. now rewrite (Hf _ Hc), IH.
Qed.

Lemma sall_lstrip (p q : ascii -> bool) (s : string) :
  sall p s = true -> sall p (lstrip_by q s) = true.
Proof.
  induction s as [|c s IH]; simpl; [reflexivity|].
  intro H. destruct (q c); [|exact H].
  apply andb_prop in H as [_ Hs]. auto.
Qed.

Lemma sall_rstrip (p q : ascii -> bool) (s : string) :
  sall p s = true -> sall p (rstrip_by q s) = true.
Proof.
  induction s as [|c s IH]; simpl; [reflexivity|].
  intro H. apply andb_prop in H as [Hc Hs]. specialize (IH Hs).
  destruct (rstrip_by q s) as [|d t].
  - destruct (q c); simpl; [reflexivity | now rewrite Hc].
  - change (p c && sall p (String d t) = true). now rewrite Hc, IH.
Qed.

Lemma sall_strip (p : ascii -> bool) (s : string) :
  sall p s = true -> sall p (strip s) = true.
Proof. intro H. unfold strip, strip_by. now apply sall_rstrip, sall_lstrip. Qed.

(** The head of a text decides how its first word starts. *)
Lemma split_nonspace_cons (c : ascii) (s : string) :
  is_space c = false -> split (String c s) <> [].
Proof.
  intro Hc. cbn [split]. rewrite Hc.
  destruct s as [|d s]; [discriminate|].
  destruct (is_space d); [discriminate|].
  destruct (split (String d s)); discriminate.
Qed.

Lemma split_sany (s : string) :
  sany (fun c => negb (is_space c)) s = true -> split s <> [].
Proof.
  induction s as [|c s IH]; [discriminate|].
  destruct (is_space c) eqn:Hc.
  - cbn [sany split]. rewrite Hc. exact IH.
  - intros _. now apply split_nonspace_cons.
Qed.

Lemma split_app_space (a b : string) :
  split (a ++ " " ++ b) = (split a ++ split b)%list.
Proof.
  induction a as [|c a IH]; [reflexivity|].
  change ((String c a ++ " " ++ b)%string) with (String c (a ++ " " ++ b)).
  cbn [split]. destruct (is_space c) eqn:Hc; [exact IH|].
  destruct a as [|d a].
  - reflexivity.
  - change ((String d a ++ " " ++ b)%string) with (String d (a ++ " " ++ b)) in *.
    destruct (is_space d) eqn:Hd; rewrite ?Hd.
    + now rewrite IH.
    + rewrite IH. pose proof (split_nonspace_cons d a Hd) as Hne.
      destruct (split (String d a)); [congruence|reflexivity].
Qed.

Lemma split_smap (f : ascii -> ascii) (s : string) :
  (forall c, is_space (f c) = is_space c) ->
  split (smap f s) = map (smap f) (split s).
Proof.
  intro Hf. induction s as [|c s IH]; [reflexivity|].
  cbn [smap split]. rewrite Hf. destruct (is_space c); [exact IH|].
  destruct s as [|d s]; [reflexivity|].
  cbn [smap] in *. rewrite Hf. destruct (is_space d) eqn:Hd; rewrite ?Hd.
  - now rewrite IH.
  - rewrite IH. destruct (split (String d s)); reflexivity.
Qed.

Lemma split_cons2 (c d : ascii) (t : string) :
  split (String c (String d t)) =
  if is_space c then split (String d t)
  else if is_space d then String c "" :: split (String d t)
       else match split (String d t) with
            | [] => [String c ""]
            | w :: ws => String c w :: ws
            end.
Proof. reflexivity. Qed.

Lemma split_lstrip (s : string) : split (lstrip_by is_space s) = split s.
Proof.
  induction s as [|c s IH]; [reflexivity|].
  cbn [lstrip_by]. destruct (is_space c) eqn:Hc; [|reflexivity].
  cbn [split]. now rewrite Hc.
Qed.

Lemma rstrip_empty_split (s : string) : rstrip_by is_space s = "" -> split s = [].
Proof.
  induction s as [|c s IH]; [reflexivity|].
  cbn [rstrip_by]. destruct (rstrip_by is_space s) eqn:E; [|discriminate].
  destruct (is_space c) eqn:Hc; [|discriminate].
  intros _. cbn [split]. rewrite Hc. now apply IH.
Qed.

Lemma rstrip_head (s : string) (d : ascii) (t : string) :
  rstrip_by is_space s = String d t -> exists t', s = String d t'.
Proof.
  destruct s as [|c s]; [discriminate|].
  cbn [rstrip_by]. destruct (rstrip_by is_space s).
  - destruct (is_space c); [discriminate|]. intro H. injection H as <- _. eauto.
  - intro H. injection H as <- _. eauto.
Qed.

Lemma split_rstrip (s : string) : split (rstrip_by is_space s) = split s.
Proof.
  induction s as [|c s IH]; [reflexivity|].
  cbn [rstrip_by]. destruct (rstrip_by is_space s) as [|d t] eqn:E.
  - apply rstrip_empty_split in E as Hs.
    destruct (is_space c) eqn:Hc.
    + cbn [split]. now rewrite Hc.
    + cbn [split]. rewrite Hc. destruct s as [|e s]; [reflexivity|].
      rewrite Hs. destruct (is_space e); reflexivity.
  - destruct (rstrip_head _ _ _ E) as [t' ->].
    rewrite !split_cons2, IH. reflexivity.
Qed.

Lemma split_strip (s : string) : split (strip s) = split s.
Proof. unfold strip, strip_by. now rewrite split_rstrip, split_lstrip. Qed.

Lemma lower_idem (s : string) : lower (lower s) = lower s.
Proof.
  unfold lower. induction s as [|c s IH]; simpl; [reflexivity|].
  now rewrite lower_char_idem, IH.
Qed.

(** The tokens of a processed text are the lowered words of the text with
    its other characters blanked. *)
Lemma split_default_process (s : string) :
  split (Fuzz.default_process s) = map lower (split (smap Fuzz.word_or_space s)).
Proof.
  unfold Fuzz.default_process, lower.
  rewrite split_smap by apply is_space_lower_char.
  now rewrite split_strip.
Qed.

Lemma sany_smap (p q : ascii -> bool) (f : ascii -> ascii) (s : string) :
  (forall c, p c = true -> q (f c) = true) -> sany p s = true -> sany q (smap f s) = true.
Proof.
  intro Hpq. induction s as [|c s IH]; simpl; [discriminate|].
  intro H. apply orb_prop in H as [Hc|Hs].
  - now rewrite (Hpq _ Hc).
  - rewrite (IH Hs). apply orb_true_r.
Qed.

Lemma processed_tidy (s : string) :
  sall is_ascii s = true -> sall Fuzz.tidy (Fuzz.default_process s) = true.
Proof.
  intro H. unfold Fuzz.default_process, lower.
  apply sall_smap with (p := Fuzz.tidy); [exact tidy_lower_char|].
  apply sall_strip.
  apply sall_smap with (p := is_ascii); [exact tidy_word_or_space | exact H].
Qed.

(** The tokens of the query, after its two passes through the processor,
    when the query is an ASCII text. *)
Lemma query_tokens (name : string) :
  sall is_ascii name = true ->
  split (Fuzz.full_process true (Fuzz.full_process false name))
  = map lower (split (smap Fuzz.word_or_space name)).
Proof.
  intro H. pose proof (processed_tidy name H) as Ht.
  unfold Fuzz.full_process, Fuzz.ascii_only.
  rewrite sfilter_sall
    by (eapply sall_impl; [|exact Ht]; intros c Hc; apply (tidy_fixed c Hc)).
  rewrite split_default_process.
  rewrite (smap_fixed Fuzz.tidy)
    by (auto; intros c Hc; apply (tidy_fixed c Hc)).
  rewrite split_default_process, map_map.
  apply map_ext. exact lower_idem.
Qed.

(** The tokens of the search key of a record with an ASCII name: the
    tokens of the name, then those of the alias field. *)
Lemma key_tokens (name aliases : string) :
  sall is_ascii name = true ->
  split (Fuzz.full_process true (name ++ " " ++ aliases))
  = (map lower (split (smap Fuzz.word_or_space name))
     ++ map lower (split (smap Fuzz.word_or_space (Fuzz.ascii_only aliases))))%list.
Proof.
  intro H. unfold Fuzz.full_process, Fuzz.ascii_only.
  rewrite !sfilter_app, (sfilter_sall _ _ H).
  rewrite split_default_process, !smap_app.
  change (smap Fuzz.word_or_space (sfilter is_ascii " ")) with " ".
  now rewrite split_app_space, map_app.
Qed.

Lemma name_has_token (name : string) :
  sany is_ascii_alnum name = true -> split (smap Fuzz.word_or_space name) <> [].
Proof.
  intro H. apply split_sany.
  apply sany_smap with (p := is_ascii_alnum); [|exact H].
  intros c Hc. now rewrite is_space_word_or_space.
Qed.

(** *** Token sets *)

Lemma mem_In (x : string) (l : list string) : Fuzz.mem x l = true <-> In x l.
Proof.
  unfold Fuzz.mem. rewrite existsb_exists. split.
  - intros (y & Hin & Heq). apply String.eqb_eq in Heq. now subst.
  - intro Hin. exists x. split; [exact Hin | apply String.eqb_refl].
Qed.

Lemma to_set_In (x : string) (l : list string) : In x (Fuzz.to_set l) <-> In x l.
Proof.
  induction l as [|a l IH]; [reflexivity|].
  cbn [Fuzz.to_set]. destruct (Fuzz.mem a l) eqn:E.
  - rewrite IH. apply mem_In in E. simpl. split; [auto|].
    intros [<-|H]; assumption.
  - simpl. now rewrite IH.
Qed.

Lemma filter_none {A : Type} (p : A -> bool) (l : list A) :
  (forall x, In x l -> p x = false) -> filter p l = [].
Proof.
  induction l as [|a l IH]; intro H; [reflexivity|].
  simpl. rewrite (H a) by (left; reflexivity). apply IH. intros x Hx. apply H. now right.
Qed.

Lemma filter_some {A : Type} (p : A -> bool) (l : list A) (x : A) :
  In x l -> p x = true -> filter p l <> [].
Proof.
  intros Hin Hp E. assert (H : In x (filter p l)) by (apply filter_In; auto).
  rewrite E in H. exact H.
Qed.

(** When every token of the first text is a token of the second, the
    score is 100: "one sentence is part of the other one". *)
Lemma token_set_ratio_subset (s1 s2 : string) (A B : list string) (cutoff : Q) :
  split s1 = A -> split s2 = (A ++ B)%list -> A <> [] ->
  Fuzz.token_set_ratio s1 s2 cutoff = 100%Q.
Proof.
  intros H1 H2 HA.
  destruct A as [|a A]; [congruence|].
  assert (T1 : truthy s1 = true) by (destruct s1; [discriminate|reflexivity]).
  assert (T2 : truthy s2 = true) by (destruct s2; [discriminate|reflexivity]).
  unfold Fuzz.token_set_ratio. rewrite T1, T2, H1, H2. cbn [negb orb].
  assert (Ia : In a (Fuzz.to_set (a :: A))) by (apply to_set_In; left; reflexivity).
  assert (Ib : In a (Fuzz.to_set ((a :: A) ++ B)))
    by (apply to_set_In; left; reflexivity).
  assert (Hd : Fuzz.difference (Fuzz.to_set (a :: A)) (Fuzz.to_set ((a :: A) ++ B)) = []).
  { apply filter_none. intros x Hx. apply negb_false_iff, mem_In, to_set_In.
    apply (proj1 (to_set_In _ _)) in Hx. apply in_or_app. now left. }
  assert (Hi : Fuzz.intersection (Fuzz.to_set ((a :: A) ++ B)) (Fuzz.to_set (a :: A)) <> []).
  { apply filter_some with (x := a); [exact Ib | now apply mem_In]. }
  rewrite Hd.
  destruct (Fuzz.to_set (a :: A)) as [|ta tas]; [contradiction|].
  destruct (Fuzz.to_set ((a :: A) ++ B)) as [|tb tbs]; [contradiction|].
  destruct (Fuzz.intersection (tb :: tbs) (ta :: tas)); [congruence|reflexivity].
Qed.

(** The score of a record for its own name. *)
Lemma own_name_scores_100 (r : Row) :
  sall is_ascii (Name r) = true ->
  sany is_ascii_alnum (Name r) = true ->
  Fuzz.token_set_ratio (Fuzz.full_process true (Fuzz.full_process false (Name r)))
                       (Fuzz.full_process true (search_key r)) 0%Q = 100%Q.
Proof.
  intros Ha Hn. eapply token_set_ratio_subset.
  - now apply query_tokens.
  - unfold search_key. now apply key_tokens.
  - intro E. apply map_eq_nil in E. now apply (name_has_token (Name r)).
Qed.

(** *** Scores are at most 100 *)

Lemma Qnat_nonneg (n : nat) : (0 <= Fuzz.Qnat n)%Q.
Proof. unfold Fuzz.Qnat, Qle. simpl. lia. Qed.

Lemma norm_distance_le_100 (dist lensum : nat) (cutoff : Q) :
  (Fuzz.norm_distance dist lensum cutoff <= 100)%Q.
Proof.
  unfold Fuzz.norm_distance.
  assert (H : (0 <= 100 * Fuzz.Qnat dist / Fuzz.Qnat lensum)%Q).
  { unfold Qdiv. apply Qmult_le_0_compat.
    - apply Qmult_le_0_compat; [discriminate | apply Qnat_nonneg].
    - apply Qinv_le_0_compat, Qnat_nonneg. }
  destruct (lensum =? 0); destruct (Qle_bool cutoff _); try discriminate; lra.
Qed.

Lemma max2_le_100 (a b : Q) : (a <= 100)%Q -> (b <= 100)%Q -> (Fuzz.max2 a b <= 100)%Q.
Proof. intros Ha Hb. unfold Fuzz.max2. destruct (Qle_bool b a); assumption. Qed.

Lemma token_set_ratio_le_100 (s1 s2 : string) (cutoff : Q) :
  (Fuzz.token_set_ratio s1 s2 cutoff <= 100)%Q.
Proof.
  unfold Fuzz.token_set_ratio.
  destruct (negb (truthy s1) || negb (truthy s2)); [discriminate|].
  destruct (Fuzz.to_set (split s1)); [discriminate|].
  destruct (Fuzz.to_set (split s2)); [discriminate|].
  destruct (negb _ && _); [discriminate|].
  set (result := if (_ <=? _)%Z then _ else 0%Q).
  assert (Hr : (result <= 100)%Q).
  { subst result. destruct (_ <=? _)%Z; [apply norm_distance_le_100 | discriminate]. }
  destruct (_ =? 0); [exact Hr|].
  unfold Fuzz.max3. repeat apply max2_le_100; auto using norm_distance_le_100.
Qed.

Lemma py_round_le_100 (x : Q) : (x <= 100)%Q -> (Fuzz.py_round x <= 100)%Z.
Proof.
  destruct x as [n d]. unfold Qle, Fuzz.py_round. cbn [Qnum Qden]. intro H.
  pose proof (Z.div_mod n (Z.pos d) ltac:(lia)) as Hdm.
  pose proof (Z.mod_pos_bound n (Z.pos d) ltac:(lia)) as Hb.
  set (f := (n / Z.pos d)%Z) in *. set (r := (n mod Z.pos d)%Z) in *.
  destruct (Z.ltb_spec (2 * r) (Z.pos d)); [nia|].
  assert (f <= 99)%Z by nia.
  destruct (Z.pos d <? 2 * r)%Z; [lia|]. destruct (Z.even f); lia.
Qed.

Lemma py_round_100 (x : Q) : (100 <= x)%Q -> (x <= 100)%Q -> Fuzz.py_round x = 100%Z.
Proof.
  destruct x as [n d]. unfold Qle, Fuzz.py_round. cbn [Qnum Qden]. intros H1 H2.
  assert (Hn : n = (100 * Z.pos d)%Z) by lia. subst n.
  rewrite Z.div_mul, Z.mod_mul by lia. reflexivity.
Qed.

Lemma In_firstn {A : Type} (n : nat) (l : list A) (x : A) :
  In x (firstn n l) -> In x l.
Proof.
  revert l. induction n as [|n IH]; intros [|a l]; simpl; try tauto.
  intros [H|H]; auto.
Qed.

Lemma In_insert_desc (y z : Fuzz.scored) (t : list Fuzz.scored) :
  In y (Fuzz.insert_desc z t) <-> y = z \/ In y t.
Proof.
  induction t as [|b t IH]; simpl.
  - intuition auto.
  - destruct (Qle_bool (snd b) (snd z)); simpl; rewrite ?IH; intuition auto.
Qed.

Lemma In_sort_desc (y : Fuzz.scored) (l : list Fuzz.scored) :
  In y (Fuzz.sort_desc l) <-> In y l.
Proof.
  induction l as [|a l IH]; simpl; [reflexivity|].
  rewrite In_insert_desc, IH. intuition auto.
Qed.

(** Every score that [extract] reports is at most 100. *)
Lemma extract_scores_le_100 (query : string) (choices : list string) (limit : nat)
      (m : string * Z) :
  In m (Fuzz.extract query choices limit) -> (snd m <= 100)%Z.
Proof.
  unfold Fuzz.extract, Fuzz.rapidfuzz_extract, Fuzz.nlargest. intro H.
  apply in_map_iff in H as (x & <- & Hx). simpl.
  apply py_round_le_100.
  apply In_firstn, In_sort_desc, filter_In in Hx as [Hx _].
  apply in_map_iff in Hx as (c & <- & _). simpl.
  apply token_set_ratio_le_100.
Qed.

(** *** The ranking *)

Section Ranking.
Import Fuzz.

Lemma insert_desc_sorted (x : scored) (l : list scored) :
  StronglySorted ranks_before l -> StronglySorted ranks_before (insert_desc x l).
Proof.
  induction 1 as [|y l Hl IH Hy]; simpl.
  - repeat constructor.
  - destruct (Qle_bool (snd y) (snd x)) eqn:E.
    + apply Qle_bool_iff in E. constructor; [now constructor|].
      constructor; [exact E|].
      eapply Forall_impl; [|exact Hy]. unfold ranks_before. intros z Hz.
      now apply Qle_trans with (snd y).
    + constructor; [exact IH|].
      apply Forall_forall. intros z Hz.
      apply (proj1 (In_insert_desc _ _ _)) in Hz as [->|Hz].
      * unfold ranks_before. apply Qlt_le_weak, Qnot_le_lt.
        intro H. apply Qle_bool_iff in H. congruence.
      * rewrite Forall_forall in Hy. now apply Hy.
Qed.

Lemma sort_desc_sorted (l : list scored) : StronglySorted ranks_before (sort_desc l).
Proof.
  induction l as [|a l IH]; simpl; [constructor | now apply insert_desc_sorted].
Qed.

(** An element that scores at least as high as all of a ranking goes to
    its head. *)
Lemma insert_desc_top (x : scored) (l : list scored) :
  (forall y, In y l -> (snd y <= snd x)%Q) -> insert_desc x l = x :: l.
Proof.
  destruct l as [|y l]; [reflexivity|]. intro H. simpl.
  assert (E : Qle_bool (snd y) (snd x) = true)
    by (apply Qle_bool_iff, H; left; reflexivity).
  now rewrite E.
Qed.

(** An element that scores lower than [x] does not push [x] down. *)
Lemma insert_desc_keeps_rank (x p : scored) (l : list scored) (n : nat) :
  StronglySorted ranks_before l ->
  Qle_bool (snd x) (snd p) = false ->
  In x (firstn n l) -> In x (firstn n (insert_desc p l)).
Proof.
  intros Hl Hp. revert n. induction Hl as [|y l Hl IH Hy]; intros n Hin.
  - destruct n; contradiction.
  - destruct n as [|n]; [contradiction|]. simpl in Hin. simpl.
    destruct (Qle_bool (snd y) (snd p)) eqn:E.
    + exfalso. apply Qle_bool_iff in E.
      assert (Hx : (snd x <= snd y)%Q).
      { destruct Hin as [->|Hin]; [apply Qle_refl|].
        apply In_firstn in Hin. rewrite Forall_forall in Hy. now apply Hy. }
      assert (H : Qle_bool (snd x) (snd p) = true)
        by (apply Qle_bool_iff; now apply Qle_trans with (snd y)).
      congruence.
    + simpl. destruct Hin as [->|Hin]; [now left|]. right. now apply IH.
Qed.

(** The rank of an element that no element outscores: it comes after
    the earlier elements that score as high, and before all others. *)
Lemma top_score_rank (x : scored) (pre post : list scored) :
  (forall y, In y (pre ++ post) -> (snd y <= snd x)%Q) ->
  In x (firstn (S (List.length (filter (fun p => Qle_bool (snd x) (snd p)) pre)))
               (sort_desc (pre ++ x :: post))).
Proof.
  induction pre as [|p pre IH]; intro Hmax.
  - change (sort_desc ([] ++ x :: post)) with (insert_desc x (sort_desc post)).
    rewrite insert_desc_top; [now left|].
    intros y Hy. apply (proj1 (In_sort_desc _ _)) in Hy. now apply Hmax.
  - assert (Hmax' : forall y, In y (pre ++ post) -> (snd y <= snd x)%Q)
      by (intros y Hy; apply Hmax; now right).
    specialize (IH Hmax').
    change (sort_desc ((p :: pre) ++ x :: post))
      with (insert_desc p (sort_desc (pre ++ x :: post))).
    cbn [filter]. destruct (Qle_bool (snd x) (snd p)) eqn:E.
    + rewrite insert_desc_top.
      * cbn [List.length]. right. exact IH.
      * intros y Hy. apply (proj1 (In_sort_desc _ _)) in Hy. apply Qle_bool_iff in E.
        apply Qle_trans with (snd x); [|exact E].
        apply in_app_or in Hy as [Hy|[<-|Hy]];
          [apply Hmax'|apply Qle_refl|apply Hmax']; apply in_or_app; auto.
    + apply insert_desc_keeps_rank; [apply sort_desc_sorted | exact E | exact IH].
Qed.

Lemma In_firstn_le {A : Type} (a b : nat) (l : list A) (x : A) :
  a <= b -> In x (firstn a l) -> In x (firstn b l).
Proof.
  revert b l. induction a as [|a IH]; intros b l Hab Hin; [contradiction|].
  destruct l as [|y l]; [contradiction|].
  destruct b as [|b]; [lia|]. simpl in *.
  destruct Hin as [->|Hin]; [now left|]. right. apply IH; [lia | exact Hin].
Qed.

Lemma filter_length_impl {A : Type} (p q : A -> bool) (l : list A) :
  (forall x, In x l -> p x = true -> q x = true) ->
  List.length (filter p l) <= List.length (filter q l).
Proof.
  induction l as [|a l IH]; intro H; [reflexivity|]. simpl.
  assert (IH' : List.length (filter p l) <= List.length (filter q l))
    by (apply IH; intros x Hx; apply H; now right).
  destruct (p a) eqn:Ep.
  - rewrite (H a) by (auto; now left). simpl. lia.
  - destruct (q a); simpl; lia.
Qed.

Lemma filter_filter_length {A : Type} (p q : A -> bool) (l : list A) :
  List.length (filter p (filter q l)) <= List.length (filter p l).
Proof.
  induction l as [|a l IH]; [reflexivity|]. simpl.
  destruct (q a); simpl; destruct (p a); simpl; lia.
Qed.

Lemma filter_map_length {A B : Type} (p : B -> bool) (f : A -> B) (l : list A) :
  List.length (filter p (map f l)) = List.length (filter (fun x => p (f x)) l).
Proof.
  induction l as [|a l IH]; [reflexivity|]. simpl.
  destruct (p (f a)); simpl; now rewrite IH.
Qed.

End Ranking.

(** ** Screening with the name of a record *)

(** C1, as stated, fails: the tabular extractor takes the name "-" from a
    row whose name cell holds a dash.  The name is not empty, the
    processor leaves no token of it, and the record scores 0 for its own
    name. *)
Lemma dash_name_scores_0 :
  exists r,
    KDN.parse_row [Some "7"; Some "KDN.I.07-2014"; Some "-"; None; None;
                   Some "1.1.1970"; None; Some "Abu Hamzah"] = Some r
    /\ Name r = "-" /\ Name r <> ""
    /\ search_key r = "- Abu Hamzah"
    /\ Fuzz.score (Name r) (search_key r) = 0%Z
    /\ Fuzz.extract (Name r) (map search_key [r]) 10 = [("- Abu Hamzah", 0%Z)].
Proof.
  eexists. split; [reflexivity|]. cbn [Name].
  split; [reflexivity|]. split; [discriminate|]. repeat split.
Qed.

(** A name need not be free of letters to miss the score 100.  The query
    passes the processor twice, first with its characters outside ASCII
    in place and then without them, the search key only once without
    them.  A no-break space in a name separates two tokens of the query
    and none of the key, and the record scores 69 for its own name, below
    the threshold. *)
Lemma no_break_space_name_scores_69 :
  exists r,
    KDN.parse_row [Some "7"; Some "KDN.I.07-2014"; Some ("ABDUL" ++ String NBSP "BASIR");
                   None; None; Some "1.1.1970"; None; Some "Haji Basir"] = Some r
    /\ Name r = "ABDUL" ++ String NBSP "BASIR"
    /\ Fuzz.full_process true (Fuzz.full_process false (Name r)) = "abdul basir"
    /\ Fuzz.full_process true (search_key r) = "abdulbasir haji basir"
    /\ Fuzz.score (Name r) (search_key r) = 69%Z.
Proof.
  eexists. split; [reflexivity|]. cbn [Name]. repeat split.
Qed.

(** The scored choices of [extract] when the store holds a record whose
    key scores 100: the record stands between those before and after. *)
Lemma nlargest_top (limit : nat) (pre post : list Fuzz.scored) (x : Fuzz.scored) :
  (forall y, In y (pre ++ post) -> (snd y <= snd x)%Q) ->
  0 < limit ->
  (exists h t, Fuzz.nlargest limit (pre ++ x :: post) = h :: t
               /\ (snd x <= snd h)%Q /\ In h (pre ++ x :: post))
  /\ (List.length (filter (fun p => Qle_bool (snd x) (snd p)) pre) < limit ->
      In x (Fuzz.nlargest limit (pre ++ x :: post))).
Proof.
  intros Hmax Hlimit. unfold Fuzz.nlargest.
  pose proof (top_score_rank x pre post Hmax) as Hrank.
  split.
  - pose proof (sort_desc_sorted (pre ++ x :: post)) as Hs.
    destruct (Fuzz.sort_desc (pre ++ x :: post)) as [|h t] eqn:E;
      [destruct (List.length _); contradiction|].
    destruct limit as [|limit]; [lia|]. exists h, (firstn limit t).
    split; [reflexivity|].
    assert (Hx : In x (h :: t)) by (eapply In_firstn; exact Hrank).
    split.
    + destruct Hx as [->|Hx]; [apply Qle_refl|].
      inversion Hs as [|? ? _ Hh]; subst. rewrite Forall_forall in Hh. now apply Hh.
    + apply In_sort_desc. rewrite E. now left.
  - intro Hlt. eapply In_firstn_le; [|exact Hrank]. lia.
Qed.

(** C1, amended. For every record of the store whose name is an ASCII
    text with at least one letter or digit, screening with the name as
    query gives the search key of the record the score 100.  No returned
    candidate scores higher, the first returned candidate scores 100, and
    the record is among the returned candidates when fewer than ten
    earlier records of the store score 100 too.  These candidates are the
    ones the search logic gets for the query and filters by the
    threshold. *)
Theorem own_name_ranks_first (df : DataFrame) (earlier later : list Row) (r : Row) :
  rows df = (earlier ++ r :: later)%list ->
  sall is_ascii (Name r) = true ->
  sany is_ascii_alnum (Name r) = true ->
  let candidates := Fuzz.extract (Name r) (map search_key (rows df)) 10 in
  Fuzz.score (Name r) (search_key r) = 100%Z
  /\ (forall m, In m candidates -> (snd m <= 100)%Z)
  /\ (exists c rest, candidates = (c, 100%Z) :: rest)
  /\ (Claims.ties_before (Name r) earlier < 10 -> In (search_key r, 100%Z) candidates)
  /\ (forall ss df' ss' ev,
        search_logic true (Name r) df ss = Done (df', ss', ev) ->
        ev = [Screened (Name r) (map search_key (rows df))]
        /\ high_risk_matches ss' = filter is_high_risk candidates).
Proof.
  intros Hrows Ha Hn candidates.
  pose proof (own_name_scores_100 r Ha Hn) as Hown.
  split; [unfold Fuzz.score; now rewrite Hown|].
  split; [intros m Hm; eapply extract_scores_le_100; exact Hm|].
  assert (Hlogic : forall ss df' ss' ev,
             search_logic true (Name r) df ss = Done (df', ss', ev) ->
             ev = [Screened (Name r) (map search_key (rows df))]
             /\ high_risk_matches ss' = filter is_high_risk candidates).
  { intros ss df' ss' ev H.
    assert (Hq : Name r <> "") by (destruct (Name r); [discriminate Hn | discriminate]).
    destruct (search_logic_screened _ _ _ _ _ _ Hq H) as (Hev & _ & _ & _ & Hhr).
    split; assumption. }
  cut ((exists c rest, candidates = (c, 100%Z) :: rest)
       /\ (Claims.ties_before (Name r) earlier < 10 -> In (search_key r, 100%Z) candidates));
    [tauto|]. clear Hlogic.
  subst candidates. unfold Fuzz.extract, Fuzz.rapidfuzz_extract.
  set (q := Fuzz.full_process true (Fuzz.full_process false (Name r))) in *.
  set (scorer := fun choice : string =>
                   (choice, Fuzz.token_set_ratio q (Fuzz.full_process true choice) 0%Q)).
  set (ok := fun y : string * Q => Qle_bool 0 (snd y)).
  set (x := (search_key r, 100%Q)).
  set (pre := filter ok (map scorer (map search_key earlier))).
  set (post := filter ok (map scorer (map search_key later))).
  assert (HF : filter ok (map scorer (map search_key (rows df))) = (pre ++ x :: post)%list).
  { assert (Hx : scorer (search_key r) = x) by (unfold scorer, x; now rewrite Hown).
    rewrite Hrows, !map_app, filter_app. cbn [map filter]. rewrite Hx. reflexivity. }
  rewrite HF.
  assert (Hmax : forall y, In y (pre ++ post) -> (snd y <= snd x)%Q).
  { intros y Hy. cbn [snd x].
    assert (Hy' : exists c, y = scorer c).
    { apply in_app_or in Hy as [Hy|Hy]; apply filter_In in Hy as [Hy _];
        apply in_map_iff in Hy as (c & <- & _); eauto. }
    destruct Hy' as [c ->]. apply token_set_ratio_le_100. }
  destruct (nlargest_top 10 pre post x Hmax ltac:(lia)) as [(h & t & Hht & Hge & Hin) Hrank].
  unfold Fuzz.scored in *.
  split.
  - rewrite Hht. cbn [map]. exists (fst h), (map (fun y => (fst y, Fuzz.py_round (snd y))) t).
    f_equal. f_equal. apply py_round_100; [exact Hge|].
    apply in_app_or in Hin as [Hin|[<-|Hin]];
      [apply Hmax; apply in_or_app; now left
      | apply Qle_refl
      | apply Hmax; apply in_or_app; now right].
  - intro Hties.
    apply (in_map (fun y : string * Q => (fst y, Fuzz.py_round (snd y))) _ x).
    apply Hrank.
    eapply Nat.le_lt_trans; [|exact Hties].
    unfold pre, Claims.ties_before.
    eapply Nat.le_trans; [apply filter_filter_length|].
    rewrite map_map, filter_map_length.
    apply filter_length_impl. intros r' _ H.
    apply Z.eqb_eq. unfold Fuzz.score. fold q.
    apply py_round_100; [|apply token_set_ratio_le_100].
    cbn [snd x scorer] in H. now apply Qle_bool_iff in H.
Qed.

Lemma own_name_ranks_first_witness :
  Fuzz.score "ABDUL BASIR NOORZAI"
             "ABDUL BASIR NOORZAI Haji Abdul Basir | Haji Basir Noorzai" = 100%Z
  /\ In ("ABDUL BASIR NOORZAI Haji Abdul Basir | Haji Basir Noorzai", 100%Z)
        (Fuzz.extract "ABDUL BASIR NOORZAI" (map search_key sample_rows) 10).
Proof.
  destruct (own_name_ranks_first
              get_sample_data (firstn 4 sample_rows) (skipn 5 sample_rows)
              (mkRow "UNSCR 1988 (Taliban)" "TAi.173" "ABDUL BASIR NOORZAI"
                     "Haji Abdul Basir | Haji Basir Noorzai" "1965" "Haji" "Afghanistan"
                     "Owner of Haji Basir and Zarjmil Company")
              eq_refl eq_refl eq_refl) as (Hscore & _ & _ & Hin & _).
  split; [exact Hscore|]. apply Hin. vm_compute. lia.
Defined.

(* ================================================================== *)
(** * Further properties of the extractors and of the search logic *)
(* ================================================================== *)

(** ** Rows and fields of the tabular extractor *)

(** X1. A row of a table gives a record exactly when one of its cells holds
    the marker "KDN": the test on the text of the whole row never takes the
    letters of two cells, or the quotes and escapes of the text, for the
    marker. *)
Theorem kdn_row_recorded_iff_marker_cell (row : list cell) :
  (exists r, KDN.parse_row row = Some r)
  <-> (exists s, In (Some s) row /\ contains "KDN" s = true).
Proof.
  unfold KDN.parse_row. rewrite qualifies_iff_kdn_cell. split.
  - intros [r H]. destruct (existsb KDN.is_kdn_cell row) eqn:E; [|discriminate].
    apply existsb_exists in E as ([s|] & Hin & Hk); [|discriminate].
    exists s. split; [exact Hin|]. now rewrite <- is_kdn_cell_contains.
  - intros (s & Hin & Hk).
    assert (E : existsb KDN.is_kdn_cell row = true).
    { apply existsb_exists. exists (Some s). split; [exact Hin|].
      now rewrite is_kdn_cell_contains. }
    rewrite E. eauto.
Qed.

Lemma contains_char (c : ascii) (s : string) :
  contains (String c "") s = sany (Ascii.eqb c) s.
Proof.
  induction s as [|d s IH]; [reflexivity|].
  cbn [contains startswith sany]. rewrite IH. now rewrite andb_true_r.
Qed.

Lemma sany_app (p : ascii -> bool) (a b : string) :
  sany p (a ++ b) = sany p a || sany p b.
Proof.
  induction a as [|c a IH]; [reflexivity|].
  simpl. now rewrite IH, orb_assoc.
Qed.

(** The text that replaces a line feed has none, so the result has none. *)
Lemma replace_line_feeds (sep s : string) :
  sany (Ascii.eqb LF) sep = false ->
  sany (Ascii.eqb LF) (replace NL sep s) = false.
Proof.
  intro Hsep. unfold replace, NL. induction s as [|c s IH]; [reflexivity|].
  cbn [replace_from startswith]. rewrite andb_true_r.
  change (String.length (String LF "") - 1) with 0.
  destruct (Ascii.eqb LF c) eqn:E.
  - now rewrite sany_app, Hsep, IH.
  - cbn [sany]. now rewrite E, IH.
Qed.

Lemma clean_without_line_feed (x : cell) (sep default : string) :
  sany (Ascii.eqb LF) sep = false ->
  sany (Ascii.eqb LF) default = false ->
  contains NL (KDN.clean x sep default) = false.
Proof.
  intros Hsep Hdef. unfold NL. rewrite contains_char. unfold KDN.clean.
  destruct x as [s|]; [|exact Hdef].
  destruct (truthy s); [|exact Hdef]. now apply replace_line_feeds.
Qed.

(** X2. No field that the tabular extractor takes from a cell holds a line
    break: the reference, the name, the aliases, the date of birth and the
    identification number of every record are single lines. *)
Theorem kdn_fields_are_single_lines (row : list cell) (r : Row) :
  KDN.parse_row row = Some r ->
  contains NL (Reference_No r) = false
  /\ contains NL (Name r) = false
  /\ contains NL (Aliases r) = false
  /\ contains NL (DOB r) = false
  /\ contains NL (Raw_Data r) = false.
Proof.
  unfold KDN.parse_row. destruct (contains "KDN" (KDN.str_row row)); [|discriminate].
  intro H. injection H as <-. cbn [Reference_No Name Aliases DOB Raw_Data].
  repeat split; apply clean_without_line_feed; reflexivity.
Qed.

Lemma kdn_fields_are_single_lines_witness :
  exists r,
    KDN.parse_row [Some "1"; Some ("KDN.I." ++ NL ++ "08-2014");
                   Some ("Halimah binti" ++ NL ++ "Hussein")] = Some r
    /\ Reference_No r = "KDN.I. | 08-2014"
    /\ contains NL (Name r) = false.
Proof.
  eexists. split; [reflexivity|]. split; [reflexivity|].
  refine (proj1 (proj2 (kdn_fields_are_single_lines
                          [Some "1"; Some ("KDN.I." ++ NL ++ "08-2014");
                           Some ("Halimah binti" ++ NL ++ "Hussein")] _ eq_refl))).
Defined.

(** Replacing the line feeds of a text by " | " moves the scanner for the
    marker as the text itself does. *)
Lemma run_replace_line_feeds (s : string) (st : Marker.state) :
  Marker.run st (replace NL " | " s) = Marker.run st s.
Proof.
  unfold replace, NL. revert st. induction s as [|c s IH]; intro st; [reflexivity|].
  cbn [replace_from startswith]. rewrite andb_true_r.
  change (String.length (String LF "") - 1) with 0.
  destruct (Ascii.eqb_spec LF c) as [<-|Hc].
  - rewrite run_app, IH. destruct st; reflexivity.
  - cbn [Marker.run]. apply IH.
Qed.

(** X3. The reference number of every record of the tabular extractor
    holds the marker "KDN"; neither of the sentinels "Unknown" and "N/A"
    is ever a reference number. *)
Theorem kdn_reference_holds_marker (row : list cell) (r : Row) :
  KDN.parse_row row = Some r ->
  contains "KDN" (Reference_No r) = true
  /\ Reference_No r <> "Unknown" /\ Reference_No r <> "N/A".
Proof.
  intro H.
  assert (Hq : contains "KDN" (KDN.str_row row) = true).
  { unfold KDN.parse_row in H. destruct (contains "KDN" (KDN.str_row row));
      [reflexivity | discriminate]. }
  assert (Hk : contains "KDN" (Reference_No r) = true).
  { rewrite qualifies_iff_kdn_cell in Hq.
    destruct (existsb_find _ _ Hq) as ([s|] & Hfind & Hs); [|discriminate].
    unfold KDN.parse_row in H. rewrite qualifies_iff_kdn_cell, Hq in H.
    injection H as <-. cbn [Reference_No].
    rewrite scan_ref_find, Hfind. unfold KDN.clean.
    rewrite is_kdn_cell_contains in Hs.
    assert (Ht : truthy s = true) by (destruct s; [discriminate Hs | reflexivity]).
    rewrite Ht.
    pose proof (run_contains (replace NL " | " s) Marker.Start) as H1.
    pose proof (run_contains s Marker.Start) as H2. cbn beta iota in H1, H2.
    now rewrite <- H1, run_replace_line_feeds, H2. }
  split; [exact Hk|].
  split; intro E; rewrite E in Hk; discriminate.
Qed.

Lemma kdn_reference_holds_marker_witness :
  exists r,
    KDN.parse_row [None; Some ("ref" ++ NL ++ "KDN.I.08-2014"); Some "Halimah"] = Some r
    /\ contains "KDN" (Reference_No r) = true.
Proof.
  eexists. split; [reflexivity|].
  refine (proj1 (kdn_reference_holds_marker
                   [None; Some ("ref" ++ NL ++ "KDN.I.08-2014"); Some "Halimah"] _ eq_refl)).
Defined.

Lemma parse_pages_from (pages : list (outcome (list table))) (data : list Row) :
  KDN.parse_pages pages data = (data ++ KDN.parse_pages pages [])%list.
Proof.
  revert data. induction pages as [|p pages IH]; intro data; simpl.
  - now rewrite app_nil_r.
  - destruct p as [tables|]; [|now rewrite app_nil_r].
    rewrite IH, (IH (flat_map KDN.parse_table tables)). now rewrite app_assoc.
Qed.

(** X4. The tabular extractor reads a document page by page: the records
    of the pages that are read come first, in the order of the pages, and
    what follows them is what the extractor gives for the rest of the
    document.  No page that is read loses a record to a later page. *)
Theorem kdn_pages_compose (pages : list (list table)) (rest : list (outcome (list table))) :
  KDN.parse_data (Returns (map Returns pages ++ rest)%list)
  = (flat_map (flat_map KDN.parse_table) pages ++ KDN.parse_data (Returns rest))%list.
Proof.
  unfold KDN.parse_data. induction pages as [|p pages IH]; [reflexivity|].
  cbn [map app KDN.parse_pages flat_map].
  rewrite parse_pages_from, IH. cbn [app]. now rewrite app_assoc.
Qed.

(** ** The candidates of a screening *)

Lemma py_round_nonneg (x : Q) : (0 <= x)%Q -> (0 <= Fuzz.py_round x)%Z.
Proof.
  destruct x as [n d]. unfold Qle, Fuzz.py_round. cbn [Qnum Qden]. intro H.
  assert (Hn : (0 <= n)%Z) by lia.
  pose proof (Z.div_pos n (Z.pos d) Hn ltac:(lia)) as Hf.
  destruct (_ <? _)%Z; [exact Hf|].
  destruct (_ <? _)%Z; [lia|]. destruct (Z.even _); lia.
Qed.

Lemma candidates_in_choices (query : string) (choices : list string) (limit : nat)
      (m : string * Z) :
  In m (Fuzz.extract query choices limit) ->
  In (fst m) choices /\ snd m = Fuzz.score query (fst m).
Proof.
  unfold Fuzz.extract, Fuzz.rapidfuzz_extract, Fuzz.nlargest. intro H.
  apply in_map_iff in H as (x & <- & Hx). cbn [fst snd].
  apply In_firstn in Hx. apply (proj1 (In_sort_desc _ _)) in Hx.
  apply filter_In in Hx as [Hx _].
  apply in_map_iff in Hx as (c & <- & Hc). cbn [fst snd]. split; [exact Hc | reflexivity].
Qed.

(** X5. Every candidate that the engine returns is the search key of a
    record of the store, with the score of that key for the query, and the
    score is between 0 and 100. *)
Theorem candidates_are_scored_store_keys
        (query : string) (df : DataFrame) (limit : nat) (m : string * Z) :
  In m (Fuzz.extract query (map search_key (rows df)) limit) ->
  (exists r, In r (rows df) /\ fst m = search_key r)
  /\ snd m = Fuzz.score query (fst m)
  /\ (0 <= snd m <= 100)%Z.
Proof.
  intro H. pose proof (extract_scores_le_100 _ _ _ _ H) as Hle.
  unfold Fuzz.extract, Fuzz.rapidfuzz_extract, Fuzz.nlargest in H.
  apply in_map_iff in H as (x & <- & Hx). cbn [fst snd] in *.
  apply In_firstn in Hx. apply (proj1 (In_sort_desc _ _)) in Hx.
  apply filter_In in Hx as [Hx Hcut].
  apply in_map_iff in Hx as (c & <- & Hc). cbn [fst snd] in *.
  apply in_map_iff in Hc as (r & <- & Hr).
  split; [eauto|]. split; [reflexivity|]. split; [|exact Hle].
  apply py_round_nonneg. now apply Qle_bool_iff.
Qed.

Lemma candidates_are_scored_store_keys_witness :
  (0 <= 45 <= 100)%Z
  /\ Fuzz.score "Abdul Basir Noorzai" "QASEM SOLEIMANI Qasim Soleimani" = 45%Z.
Proof.
  destruct (candidates_are_scored_store_keys
              "Abdul Basir Noorzai" get_sample_data 10
              ("QASEM SOLEIMANI Qasim Soleimani", 45%Z))
    as (_ & Hscore & Hrange).
  - vm_compute. right. left. reflexivity.
  - split; [exact Hrange | symmetry; exact Hscore].
Defined.

(** ** Runs of the search logic *)

Lemma mapM_succeeds {A B : Type} (f : A -> result B) (l : list A) :
  (forall a, In a l -> exists b, f a = Done b) -> exists l', mapM f l = Done l'.
Proof.
  induction l as [|a l IH]; intro H; [now exists []|].
  destruct (H a) as [b Hb]; [now left|].
  destruct IH as [bs Hbs]; [intros x Hx; apply H; now right|].
  exists (b :: bs). simpl. now rewrite Hb, Hbs.
Qed.

Lemma first_index_succeeds (keys : list string) (key : string) (i : nat) :
  In key keys ->
  exists j, first_index keys key i = Done j /\ i <= j < i + List.length keys.
Proof.
  revert i. induction keys as [|k keys IH]; intros i Hin; [contradiction|].
  cbn [first_index]. destruct (String.eqb_spec k key) as [->|Hk].
  - exists i. simpl. split; [reflexivity | lia].
  - destruct Hin as [Hin|Hin]; [congruence|].
    destruct (IH (S i) Hin) as (j & Hj & Hb). exists j. simpl. split; [exact Hj | lia].
Qed.

Lemma mapM_Forall {A B : Type} (f : A -> result B) (P : B -> Prop) (l : list A) (l' : list B) :
  (forall a b, In a l -> f a = Done b -> P b) -> mapM f l = Done l' -> Forall P l'.
Proof.
  intros H Hm. apply mapM_Forall2 in Hm.
  induction Hm as [|a b l0 l0' Hab _ IH]; constructor.
  - apply (H a); [now left | exact Hab].
  - apply IH. intros x y Hx. apply H. now right.
Qed.

(** With the columns of the records in the store, the search logic ends
    without an exception. *)
Lemma search_logic_completes (search_btn : bool) (query : string) (df : DataFrame)
      (ss : session_state) :
  has_column df "Name" = true -> has_column df "Aliases" = true ->
  exists out, search_logic search_btn query df ss = Done out.
Proof.
  intros Hn Ha. unfold search_logic.
  destruct search_btn; [|eauto]. destruct (truthy query); [|eauto].
  unfold getitem. rewrite Hn, Ha. cbn [field_of String.eqb Ascii.eqb Bool.eqb bind].
  simpl bind. rewrite add_columns_map.
  set (vector := map (fun r => Name r ++ " " ++ Aliases r) (rows df)).
  set (high_risk := filter is_high_risk (Fuzz.extract query vector 10)).
  destruct (nonempty high_risk); [|eauto].
  destruct (mapM_succeeds (fun m => first_index vector (fst m) 0) high_risk) as [idx Hidx].
  { intros m Hm. apply filter_In in Hm as [Hm _].
    destruct (candidates_in_choices query vector 10 m Hm) as [Hin _].
    destruct (first_index_succeeds vector (fst m) 0 Hin) as (j & Hj & _). eauto. }
  rewrite Hidx. cbn [bind].
  match goal with |- context [mapM ?f idx] => destruct (mapM_succeeds f idx) as [found Hf] end.
  { intros j Hj. unfold loc. cbn [rows].
    assert (Hlt : j < List.length (rows df)).
    { eapply (mapM_Forall _ (fun j => j < List.length (rows df))) in Hidx.
      - rewrite Forall_forall in Hidx. now apply Hidx.
      - intros m b Hm Hb. apply filter_In in Hm as [Hm _].
        apply first_index_nth in Hb as [_ Hb].
        assert (Hl : b - 0 < List.length vector) by (apply nth_error_Some; congruence).
        unfold vector in Hl. rewrite length_map in Hl. lia. }
    apply nth_error_Some in Hlt. destruct (nth_error (rows df) j); [eauto | congruence]. }
  rewrite Hf. cbn [bind]. eauto.
Qed.

Lemma fold_union_row_keys (frames : list DataFrame) :
  Forall from_records frames ->
  fold_left union_labels (map columns frames) row_keys = row_keys.
Proof.
  induction 1 as [|df frames [data ->] _ IH]; [reflexivity|].
  cbn [map fold_left]. destruct data; exact IH.
Qed.

(** The frames of the extractors combine to a store with the columns of the
    records, or to a store without columns and without rows. *)
Lemma concat_columns (frames : list DataFrame) :
  Forall from_records frames ->
  columns (concat frames) = row_keys
  \/ (columns (concat frames) = [] /\ rows (concat frames) = []).
Proof.
  unfold concat. cbn [columns rows].
  induction 1 as [|df frames [data ->] Hfr IH]; [right; split; reflexivity|].
  cbn [map fold_left flat_map]. destruct data as [|r data].
  - cbn [of_records columns rows union_labels app]. exact IH.
  - left. apply (fold_union_row_keys frames Hfr).
Qed.

(** X6. A run of [main] ends with an exception in one case only: the
    button is pressed with a non-empty query, documents were supplied, and
    none of them gave a record; the exception is then [KeyError: 'Name'].
    With no document supplied, or with at least one record, every run
    ends without an exception. *)
Theorem main_fails_only_on_empty_store
        (u : uploads) (search_btn : bool) (query : string) (ss : session_state) :
  (exists out, main u search_btn query ss = Done out)
  \/ (main u search_btn query ss = Fails (KeyError "Name")
      /\ search_btn = true /\ query <> "" /\ load_frames u <> []
      /\ rows (combine (load_frames u)) = []).
Proof.
  unfold main.
  assert (Hcols : columns (combine (load_frames u)) = row_keys
                  \/ (columns (combine (load_frames u)) = []
                      /\ rows (combine (load_frames u)) = []
                      /\ load_frames u <> [])).
  { pose proof (load_frames_from_records u) as Hfr. unfold combine.
    destruct (load_frames u) as [|df frames]; [left; reflexivity|].
    destruct (concat_columns _ Hfr) as [H|[H1 H2]]; [now left|].
    right. repeat split; [exact H1 | exact H2 | discriminate]. }
  destruct Hcols as [Hc|(Hc & Hr & Hne)].
  - left. apply search_logic_completes; unfold has_column; rewrite Hc; reflexivity.
  - destruct search_btn; [|left; eexists; reflexivity].
    destruct (truthy query) eqn:Hq.
    + right. split; [|repeat split; auto; now apply truthy_nonempty].
      unfold search_logic. rewrite Hq. unfold getitem, has_column. now rewrite Hc.
    + left. unfold search_logic. rewrite Hq. eauto.
Qed.

Lemma existsb_app_r (x : string) (l : list string) :
  existsb (String.eqb x) (l ++ [x]) = true.
Proof.
  rewrite existsb_app. cbn [existsb]. rewrite String.eqb_refl.
  now rewrite orb_true_r, orb_true_l || rewrite orb_true_r.
Qed.

Lemma union_labels_twice (cols : list string) (x : string) :
  union_labels (union_labels cols [x]) [x] = union_labels cols [x].
Proof.
  cbn [union_labels]. destruct (existsb (String.eqb x) cols) eqn:E.
  - now rewrite E.
  - now rewrite existsb_app_r.
Qed.

Lemma has_column_union (df : DataFrame) (key x : string) :
  existsb (String.eqb key) (columns df) = true ->
  existsb (String.eqb key) (union_labels (columns df) [x]) = true.
Proof.
  intro H. cbn [union_labels]. destruct (existsb (String.eqb x) (columns df)); [exact H|].
  rewrite existsb_app, H. reflexivity.
Qed.

(** The search logic on a store that has the columns of the names and of
    the aliases, for a query that is not empty. *)
Lemma search_logic_on_columns (query : string) (df : DataFrame) (ss : session_state) :
  truthy query = true ->
  has_column df "Name" = true -> has_column df "Aliases" = true ->
  search_logic true query df ss =
  let vector := map search_key (rows df) in
  let df1 := {| columns := union_labels (columns df) ["Search_Vector"];
                rows := rows df; search_vector := Some vector |} in
  let high_risk := filter is_high_risk (Fuzz.extract query vector 10) in
  if nonempty high_risk then
    bind (mapM (fun m => first_index vector (fst m) 0) high_risk)
         (fun idx =>
            bind (mapM (loc df1) idx)
                 (fun found =>
                    Done (df1,
                          {| search_results := Some found; search_performed := true;
                             high_risk_matches := high_risk |},
                          [Screened query vector])))
  else Done (df1,
             {| search_results := None; search_performed := true;
                high_risk_matches := high_risk |},
             [Screened query vector]).
Proof.
  intros Hq Hn Ha. unfold search_logic. rewrite Hq. unfold getitem. rewrite Hn, Ha.
  cbn [field_of String.eqb Ascii.eqb Bool.eqb bind]. simpl bind.
  rewrite add_columns_map. reflexivity.
Qed.

Lemma search_logic_done_columns (query : string) (df : DataFrame) (ss : session_state)
      (out : DataFrame * session_state * list event) :
  truthy query = true ->
  search_logic true query df ss = Done out ->
  has_column df "Name" = true /\ has_column df "Aliases" = true.
Proof.
  intros Hq. unfold search_logic. rewrite Hq. unfold getitem.
  destruct (has_column df "Name"); [|discriminate].
  destruct (has_column df "Aliases"); [auto|].
  cbn [field_of String.eqb Ascii.eqb Bool.eqb]. simpl bind. discriminate.
Qed.

(** X7. Screening again changes nothing: when a run of the search logic
    ends, a second run with the same query on the store and the session
    state that the first run left gives the same store, the same session
    state and the same events. *)
Theorem screening_again_changes_nothing
        (query : string) (df df' : DataFrame) (ss ss' : session_state) (ev : list event) :
  search_logic true query df ss = Done (df', ss', ev) ->
  search_logic true query df' ss' = Done (df', ss', ev).
Proof.
  destruct (truthy query) eqn:Hq.
  2:{ unfold search_logic. rewrite Hq. intro H. injection H as <- <- <-. reflexivity. }
  intro H. destruct (search_logic_done_columns _ _ _ _ Hq H) as [Hn Ha].
  pose proof H as H0.
  rewrite (search_logic_on_columns _ _ _ Hq Hn Ha) in H. cbv zeta in H.
  set (df1 := {| columns := union_labels (columns df) ["Search_Vector"];
                 rows := rows df;
                 search_vector := Some (map search_key (rows df)) |}) in *.
  assert (Hn1 : has_column df1 "Name" = true) by (apply has_column_union; exact Hn).
  assert (Ha1 : has_column df1 "Aliases" = true) by (apply has_column_union; exact Ha).
  assert (Hrun : search_logic true query df1 ss' = search_logic true query df ss).
  { rewrite !search_logic_on_columns by assumption. cbv zeta.
    unfold df1. cbn [rows columns]. rewrite union_labels_twice. reflexivity. }
  assert (Hdf : df' = df1).
  { destruct (nonempty _) in H.
    - destruct (mapM _ _) as [idx|] in H; [|discriminate]. simpl bind in H.
      destruct (mapM _ idx) as [found|] in H; [|discriminate]. simpl bind in H.
      now injection H as <- _ _.
    - now injection H as <- _ _. }
  rewrite Hdf, Hrun, H0, Hdf. reflexivity.
Qed.

Lemma screening_again_changes_nothing_witness :
  exists out,
    search_logic true "Halimah Hussein" get_sample_data initial_state = Done out
    /\ search_logic true "Halimah Hussein" (fst (fst out)) (snd (fst out)) = Done out.
Proof.
  eexists (_, _, _). split; [vm_compute; reflexivity|].
  cbn [fst snd].
  apply (screening_again_changes_nothing "Halimah Hussein" get_sample_data _ initial_state).
  vm_compute. reflexivity.
Defined.

(** X8. What is displayed after the search logic.  After a screening the
    red alert is shown exactly when a candidate scores at least 80, and
    the no-match notice exactly when every candidate scores less; one of
    the two is always shown.  After an empty query neither is shown,
    whatever matches an earlier screening left in the session. *)
Theorem display_after_search_logic
        (query : string) (df df' : DataFrame) (ss ss' : session_state) (ev : list event) :
  search_logic true query df ss = Done (df', ss', ev) ->
  let candidates := Fuzz.extract query (map search_key (rows df)) 10 in
  (query = "" -> display ss' = Nothing)
  /\ (query <> "" ->
      (display ss' = RED_ALERT <-> exists m, In m candidates /\ (80 <= snd m)%Z)
      /\ (display ss' = NO_MATCH_FOUND <-> forall m, In m candidates -> (snd m < 80)%Z)
      /\ display ss' <> Nothing).
Proof.
  intros H candidates. split.
  - intros ->. injection H as _ <- _. reflexivity.
  - intro Hq.
    destruct (search_logic_screened _ _ _ _ _ _ Hq H) as (_ & _ & _ & Hp & Hhr).
    fold candidates in Hhr. unfold display. rewrite Hp, Hhr.
    assert (Hin : forall m, In m (filter is_high_risk candidates)
                            <-> In m candidates /\ (80 <= snd m)%Z).
    { intro m. rewrite filter_In. unfold is_high_risk, threshold.
      now rewrite Z.leb_le. }
    destruct (filter is_high_risk candidates) as [|m0 hr] eqn:E; cbn [nonempty].
    + assert (Hnone : forall m, In m candidates -> (snd m < 80)%Z).
      { intros m Hm. destruct (Z.lt_ge_cases (snd m) 80) as [Hlt|Hge]; [exact Hlt|].
        exfalso. apply (proj2 (Hin m)). now split. }
      repeat split; try discriminate; auto.
      intros (m & Hm & Hge). specialize (Hnone m Hm). lia.
    + assert (Hsome : In m0 candidates /\ (80 <= snd m0)%Z)
        by (apply Hin; now left).
      repeat split; try discriminate; eauto.
      intro Hall. destruct Hsome as [Hm Hge]. specialize (Hall m0 Hm). lia.
Qed.

Lemma display_after_search_logic_witness :
  exists out,
    search_logic true "John Smith Unrelated Person" get_sample_data initial_state = Done out
    /\ display (snd (fst out)) = NO_MATCH_FOUND.
Proof.
  eexists (_, _, _). split; [vm_compute; reflexivity|]. cbn [fst snd].
  destruct (display_after_search_logic
              "John Smith Unrelated Person" get_sample_data _ initial_state _ _
              ltac:(vm_compute; reflexivity)) as [_ H].
  destruct (H ltac:(discriminate)) as (_ & Hno & _).
  apply Hno. vm_compute. intros m Hm.
  repeat (destruct Hm as [<-|Hm]; [reflexivity|]). contradiction.
Defined.

(** ** The sources of the store *)





(** * The narrative extractor and its patterns *)

Lemma length_app (a b : string) :
  String.length (a ++ b) = String.length a + String.length b.
Proof. induction a; simpl; auto. Qed.

Lemma app_assoc (a b c : string) : ((a ++ b) ++ c)%string = (a ++ b ++ c)%string.
Proof. induction a; simpl; congruence. Qed.

Lemma app_empty_r (a : string) : (a ++ "")%string = a.
Proof. induction a; simpl; congruence. Qed.

Lemma substring_all (a b : string) :
  String.substring 0 (String.length a) (a ++ b) = a.
Proof. induction a; simpl; [now destruct b|congruence]. Qed.

(** The text between two offsets of a subject made of three parts. *)
Lemma slice_middle (a w b : string) :
  slice (String.length a) (String.length a + String.length w) (a ++ w ++ b) = w.
Proof.
  unfold slice. replace (String.length a + String.length w - String.length a)
    with (String.length w) by lia.
  induction a; simpl; [apply substring_all|exact IHa].
Qed.

Lemma lit_rest_app (l s s' : string) : Re.lit_rest l s = Some s' -> s = (l ++ s')%string.
Proof.
  revert s. induction l as [|a l IH]; intros [|b s]; simpl; try congruence.
  destruct (Ascii.eqb_spec a b) as [->|]; [|discriminate].
  intro H. now rewrite (IH _ H).
Qed.

Lemma star_greedy_sound (p : ascii -> bool) (k : Re.cont) (s : string) :
  forall pos caps res,
    Re.star_greedy p k s pos caps = Some res ->
    exists w rest, s = (w ++ rest)%string /\ sall p w = true
                   /\ k rest (pos + String.length w) caps = Some res.
Proof.
  induction s as [|c s IH]; intros pos caps res H; cbn [Re.star_greedy] in H.
  - exists "", "". rewrite Nat.add_0_r. auto.
  - destruct (p c) eqn:Hc.
    + destruct (Re.star_greedy p k s (S pos) caps) as [r1|] eqn:E; cbn [Re.or_else] in H.
      * injection H as <-. destruct (IH _ _ _ E) as (w & rest & -> & Hw & Hk).
        exists (String c w), rest. cbn [sall String.length]. rewrite Hc, Hw.
        rewrite Nat.add_succ_r. auto.
      * exists "", (String c s). rewrite Nat.add_0_r. auto.
    + exists "", (String c s). rewrite Nat.add_0_r. auto.
Qed.

Lemma star_lazy_sound (p : ascii -> bool) (k : Re.cont) (s : string) :
  forall pos caps res,
    Re.star_lazy p k s pos caps = Some res ->
    exists w rest, s = (w ++ rest)%string /\ sall p w = true
                   /\ k rest (pos + String.length w) caps = Some res.
Proof.
  induction s as [|c s IH]; intros pos caps res H; cbn [Re.star_lazy] in H.
  - destruct (k "" pos caps) eqn:E; [|discriminate].
    exists "", "". rewrite Nat.add_0_r. rewrite E. auto.
  - destruct (k (String c s) pos caps) eqn:E.
    + exists "", (String c s). rewrite Nat.add_0_r, E. auto.
    + destruct (p c) eqn:Hc; [|discriminate].
      destruct (IH _ _ _ H) as (w & rest & -> & Hw & Hk).
      exists (String c w), rest. cbn [sall String.length]. rewrite Hc, Hw.
      rewrite Nat.add_succ_r. auto.
Qed.

(** Whatever the matcher finds, the pattern can match. *)
Lemma m_sound (r : Re.regex) :
  forall k s pos caps res,
    Re.m r k s pos caps = Some res ->
    exists w rest new,
      s = (w ++ rest)%string /\ Lang.matches r pos w rest new
      /\ k rest (pos + String.length w) (new ++ caps)%list = Some res.
Proof.
  induction r as [l|p|p|p|r1 IH1 r2 IH2|r1 IH1 r2 IH2|n r1 IH1|r1 IH1];
    intros k s pos caps res H; cbn [Re.m] in H.
  - destruct (Re.lit_rest l s) as [s'|] eqn:E; [|discriminate].
    exists l, s', []. rewrite (lit_rest_app _ _ _ E). cbn [Lang.matches]. auto.
  - destruct s as [|c s]; [discriminate|]. destruct (p c) eqn:Hc; [|discriminate].
    exists (String c ""), s, []. cbn [Lang.matches String.length].
    rewrite Nat.add_1_r. repeat split; eauto.
  - destruct (star_greedy_sound _ _ _ _ _ _ H) as (w & rest & -> & Hw & Hk).
    exists w, rest, []. cbn [Lang.matches]. auto.
  - destruct s as [|c s]; [discriminate|]. destruct (p c) eqn:Hc; [|discriminate].
    destruct (star_lazy_sound _ _ _ _ _ _ H) as (w & rest & -> & Hw & Hk).
    exists (String c w), rest, []. cbn [Lang.matches sall String.length].
    rewrite Hc, Hw, Nat.add_succ_r. repeat split; auto. discriminate.
  - destruct (IH1 _ _ _ _ _ H) as (w1 & rest1 & n1 & -> & M1 & H1).
    destruct (IH2 _ _ _ _ _ H1) as (w2 & rest & n2 & -> & M2 & H2).
    exists (w1 ++ w2)%string, rest, (n2 ++ n1)%list. cbn [Lang.matches].
    rewrite app_assoc, length_app, Nat.add_assoc, <- List.app_assoc.
    repeat split; auto. exists w1, w2, n1, n2. auto.
  - destruct (Re.m r1 k s pos caps) as [x|] eqn:E; cbn [Re.or_else] in H.
    + injection H as <-. destruct (IH1 _ _ _ _ _ E) as (w & rest & new & -> & M1 & H1).
      exists w, rest, new. cbn [Lang.matches]. auto.
    + destruct (IH2 _ _ _ _ _ H) as (w & rest & new & -> & M2 & H2).
      exists w, rest, new. cbn [Lang.matches]. auto.
  - destruct (IH1 _ _ _ _ _ H) as (w & rest & n1 & -> & M1 & H1).
    exists w, rest, ((n, (pos, pos + String.length w)) :: n1). cbn [Lang.matches].
    repeat split; eauto.
  - destruct (Re.m r1 _ s pos caps) as [[e caps']|] eqn:E; [|discriminate].
    destruct (IH1 _ _ _ _ _ E) as (w1 & rest1 & new & -> & M1 & H1).
    injection H1 as _ <-.
    exists "", (w1 ++ rest1)%string, new. cbn [Lang.matches String.length].
    rewrite Nat.add_0_r. repeat split; eauto.
Qed.

(** A match found by [re.search] splits the subject in three. *)
Lemma search_from_sound (r : Re.regex) (s : string) :
  forall pos x,
    Re.search_from r s pos = Some x ->
    exists pre w rest,
      s = (pre ++ w ++ rest)%string
      /\ Re.m_start x = pos + String.length pre
      /\ Re.m_end x = Re.m_start x + String.length w
      /\ Lang.matches r (Re.m_start x) w rest (Re.m_caps x).
Proof.
  assert (Hat : forall s pos x, Re.match_at r false s pos = Some x ->
            exists w rest, s = (w ++ rest)%string /\ Re.m_start x = pos
                           /\ Re.m_end x = pos + String.length w
                           /\ Lang.matches r pos w rest (Re.m_caps x)).
  { intros s0 pos x H. unfold Re.match_at in H.
    destruct (Re.m r _ s0 pos []) as [[e caps]|] eqn:E; [|discriminate].
    injection H as <-. destruct (m_sound _ _ _ _ _ _ E) as (w & rest & new & -> & M & Hk).
    unfold Re.success in Hk. cbn [andb] in Hk. injection Hk as <- <-.
    rewrite List.app_nil_r. exists w, rest. cbn. auto. }
  induction s as [|c s IH]; intros pos x H; cbn [Re.search_from] in H.
  - destruct (Re.match_at r false "" pos) eqn:E; [|discriminate]. injection H as ->.
    destruct (Hat _ _ _ E) as (w & rest & Hs & Hst & He & M).
    exists "", w, rest. cbn [String.length append]. rewrite Hst, Nat.add_0_r. auto.
  - destruct (Re.match_at r false (String c s) pos) eqn:E.
    + injection H as ->. destruct (Hat _ _ _ E) as (w & rest & Hs & Hst & He & M).
      exists "", w, rest. cbn [String.length append]. rewrite Hst, Nat.add_0_r. auto.
    + destruct (IH _ _ H) as (pre & w & rest & -> & Hst & He & M).
      exists (String c pre), w, rest. cbn [String.length append].
      rewrite Nat.add_succ_r. auto.
Qed.

Lemma search_sound (r : Re.regex) (s : string) (x : Re.rmatch) :
  Re.search r s = Some x ->
  exists pre w rest,
    s = (pre ++ w ++ rest)%string
    /\ Re.m_start x = String.length pre
    /\ Lang.matches r (String.length pre) w rest (Re.m_caps x).
Proof.
  intro H. destruct (search_from_sound _ _ _ _ H) as (pre & w & rest & Hs & Hst & _ & M).
  cbn in Hst. rewrite Hst in M. eauto 6.
Qed.

(** Every record of the narrative extractor is the record of a chunk. *)
Lemma parse_data_entry (pdf : text_pdf) (list_name : string) (r : Row) :
  In r (UN.parse_data pdf list_name) ->
  exists entry, UN.parse_entry list_name entry = Some r.
Proof.
  unfold UN.parse_data. destruct pdf as [pages|]; [|contradiction].
  destruct (UN.read_pages pages "") as [full_text|]; [|contradiction].
  unfold UN.parse_text. intro H. apply in_flat_map in H as (entry & _ & H).
  exists entry. destruct (UN.parse_entry list_name entry); [|contradiction].
  destruct H as [->|[]]. reflexivity.
Qed.

Lemma parse_entry_fields (list_name entry : string) (r : Row) :
  UN.parse_entry list_name entry = Some r ->
  strip entry <> ""
  /\ (exists mt, Re.search UN.ref_re entry = Some mt
                 /\ Reference_No r = Re.group entry mt 1)
  /\ Name r = UN.extract_name entry
  /\ Aliases r = join " | " (UN.extract_aliases entry)
  /\ DOB r = UN.extract_dob entry
  /\ Raw_Data r = take 300 entry.
Proof.
  unfold UN.parse_entry. destruct (truthy (strip entry)) eqn:Hs; [|discriminate].
  cbn [negb]. destruct (Re.search UN.ref_re entry) as [mt|] eqn:Hm; [|discriminate].
  intro H. injection H as <-. cbn. apply truthy_nonempty in Hs. eauto 10.
Qed.

Lemma reference_found (entry : string) (mt : Re.rmatch) :
  Re.search UN.ref_re entry = Some mt ->
  exists pre rest,
    entry = (pre ++ Re.group entry mt 1 ++ rest)%string
    /\ Lang.reference_number (Re.group entry mt 1).
Proof.
  intro H. destruct (search_sound _ _ _ H) as (pre & w & rest & Hs & _ & M).
  unfold UN.ref_re, UN.ref_pattern, Re.Plus in M. cbn [Re.seq Lang.matches] in M.
  destruct M as (n1 & Hcaps & M).
  assert (Hg : Re.group entry mt 1 = w).
  { unfold Re.group. rewrite Hcaps. cbn [Re.lookup Nat.eqb]. rewrite Hs.
    apply slice_middle. }
  rewrite Hg. exists pre, rest. split; [exact Hs|]. clear Hs Hg Hcaps.
  destruct M as (w1 & w2 & ? & ? & -> & _ & ((a & -> & Ha) & _) & M).
  destruct M as (w3 & w4 & ? & ? & -> & _ & ((b & -> & Hb) & _) & M).
  destruct M as (w5 & w6 & ? & ? & -> & _ & ((c & -> & Hc) & _) & M).
  destruct M as (w7 & w8 & ? & ? & -> & _ & (-> & _) & M).
  destruct M as (w9 & w10 & ? & ? & -> & _ & ((d & -> & Hd) & _) & (Hds & _)).
  exists a, b, c, (String d w10). cbn [append sall]. rewrite Hd, Hds.
  repeat split; auto; try discriminate.
  unfold UN.ie_bar in Hc. cbn [mem_char] in Hc.
  destruct (Ascii.eqb_spec c "i"); [subst; simpl; tauto|].
  destruct (Ascii.eqb_spec c "|"); [subst; simpl; tauto|].
  destruct (Ascii.eqb_spec c "e"); [subst; simpl; tauto|discriminate].
Qed.

(** X10. The reference number of every record of the narrative extractor
    has the form the reference pattern describes: two capital letters from
    A to Z, then one of the characters i, | and e, a full stop, and one or
    more digits. *)
Theorem narrative_reference_well_formed (pdf : text_pdf) (list_name : string) (r : Row) :
  In r (UN.parse_data pdf list_name) -> Lang.reference_number (Reference_No r).
Proof.
  intro H. apply parse_data_entry in H as (entry & H).
  apply parse_entry_fields in H as (_ & (mt & Hm & ->) & _).
  now destruct (reference_found _ _ Hm) as (_ & _ & _ & Hr).
Qed.

Lemma narrative_reference_well_formed_witness : Lang.reference_number "KP|.7".
Proof.
  apply (narrative_reference_well_formed
           (Returns [Returns (Some "see KP|.7 and QDi.001")]) "UNSCR 1718 (DPRK)"
           (UN.make_record "UNSCR 1718 (DPRK)" "KP|.7" "Unknown Name" [] "NA"
                           " KP|.7 and")).
  vm_compute. tauto.
Defined.

(** ** The fields found by a label *)

(** The name and the date of birth are found by patterns of one shape: a
    label, white space, the captured text, white space again, and one of
    the terminators [T]. *)
Lemma labeled_value_found (l : string) (p : ascii -> bool) (T : Re.regex)
      (P : string -> Prop) (entry : string) (mt : Re.rmatch) :
  (forall pos w rest new, Lang.matches T pos w rest new -> new = [] /\ P w) ->
  Re.search (Re.seq [Re.Lit l; Re.Star is_space; Re.Grp 1 (Re.PlusLazy p);
                     Re.Plus is_space; T]) entry = Some mt ->
  exists pre gap value gap' label rest,
    entry = (pre ++ l ++ gap ++ value ++ gap' ++ label ++ rest)%string
    /\ sall is_space gap = true
    /\ value <> "" /\ sall p value = true
    /\ gap' <> "" /\ sall is_space gap' = true
    /\ P label
    /\ Re.group entry mt 1 = value.
Proof.
  intros HT H. destruct (search_sound _ _ _ H) as (pre & w & rest & Hs & _ & M).
  unfold Re.Plus in M. cbn [Re.seq Lang.matches] in M.
  destruct M as (w1 & w2 & n1 & n2 & -> & Hcaps & (-> & ->) & M).
  destruct M as (gap & w3 & n3 & n4 & -> & -> & (Hgap & ->) & M).
  destruct M as (value & w4 & n5 & n6 & -> & -> & (n7 & -> & Hne & Hvalue & ->) & M).
  destruct M as (gap' & label & n8 & n9 & -> & -> & M & Hlabel).
  destruct M as (w5 & w6 & n10 & n11 & -> & -> & ((c & -> & Hc) & ->) & (Hw6 & ->)).
  apply HT in Hlabel as [-> Hlabel].
  cbn [List.app] in Hcaps.
  exists pre, gap, value, (String c "" ++ w6)%string, label, rest.
  rewrite !app_assoc in Hs. cbn [append sall]. rewrite Hc, Hw6.
  repeat split; auto; try discriminate.
  unfold Re.group. rewrite Hcaps. cbn [Re.lookup Nat.eqb].
  replace (String.length pre + String.length l + String.length gap)
    with (String.length (pre ++ l ++ gap)) by (rewrite !length_app; lia).
  replace entry
    with ((pre ++ l ++ gap) ++ value ++ String c "" ++ w6 ++ label ++ rest)%string
    by (rewrite Hs, !app_assoc; reflexivity).
  apply slice_middle.
Qed.

Lemma startswith_app (l rest : string) : startswith l (l ++ rest) = true.
Proof. induction l as [|a l IH]; simpl; [reflexivity|]. now rewrite Ascii.eqb_refl. Qed.

Lemma contains_app (l pre rest : string) : contains l (pre ++ l ++ rest) = true.
Proof.
  induction pre as [|c pre IH]; cbn [append].
  - destruct (l ++ rest)%string eqn:E; cbn [contains]; rewrite <- E, startswith_app;
      reflexivity.
  - cbn [contains]. rewrite IH. apply orb_true_r.
Qed.

Lemma sall_not_newline (s : string) :
  sall Re.not_newline s = true -> contains NL s = false.
Proof.
  unfold NL. rewrite contains_char. induction s as [|c s IH]; [reflexivity|].
  cbn [sall sany]. unfold Re.not_newline at 1. intro H.
  apply andb_prop in H as [Hc Hs]. rewrite (IH Hs), orb_false_r.
  rewrite Ascii.eqb_sym. now apply negb_true_iff.
Qed.

(** X11. The name of a record of the narrative extractor is the sentinel
    "Unknown Name", or the chunk holds the label "Name:", white space or
    nothing, a non-empty text, white space and one of the four labels that
    end a name, and the name is that text cleaned. *)
Theorem narrative_name_from_labeled_text (list_name entry : string) (r : Row) :
  UN.parse_entry list_name entry = Some r ->
  Name r = "Unknown Name"
  \/ exists pre gap value gap' label rest,
       entry = (pre ++ "Name:" ++ gap ++ value ++ gap' ++ label ++ rest)%string
       /\ sall is_space gap = true
       /\ value <> ""
       /\ gap' <> "" /\ sall is_space gap' = true
       /\ In label ["Name (original"; "Title:"; "Designation:"; "DOB:"]
       /\ Name r = UN.clean_raw_name value.
Proof.
  intro H. apply parse_entry_fields in H as (_ & _ & -> & _).
  unfold UN.extract_name.
  destruct (Re.search UN.name_re entry) as [mt|] eqn:E; [right|now left].
  apply (labeled_value_found _ _ _
           (fun w => In w ["Name (original"; "Title:"; "Designation:"; "DOB:"])) in E.
  - destruct E as (pre & gap & value & gap' & label & rest & Hs & ? & ? & _ & ? & ? & ? & ->).
    exists pre, gap, value, gap', label, rest. auto 10.
  - cbn [Re.alt Lang.matches In]. intuition auto.
Qed.

Lemma narrative_name_from_labeled_text_witness :
  "ABDUL BASIR" = "Unknown Name"
  \/ exists pre gap value gap' label rest,
       "TAi.173 Name: 1: ABDUL 2: BASIR Title: Haji"
       = (pre ++ "Name:" ++ gap ++ value ++ gap' ++ label ++ rest)%string
       /\ sall is_space gap = true
       /\ value <> ""
       /\ gap' <> "" /\ sall is_space gap' = true
       /\ In label ["Name (original"; "Title:"; "Designation:"; "DOB:"]
       /\ "ABDUL BASIR" = UN.clean_raw_name value.
Proof.
  exact (narrative_name_from_labeled_text
           "UNSCR 1988 (Taliban)" "TAi.173 Name: 1: ABDUL 2: BASIR Title: Haji"
           (UN.make_record "UNSCR 1988 (Taliban)" "TAi.173" "ABDUL BASIR" [] "NA"
                           "TAi.173 Name: 1: ABDUL 2: BASIR Title: Haji")
           eq_refl).
Defined.

(** X12. The date of birth of a record of the narrative extractor is the
    sentinel "NA", or the chunk holds the label "DOB:", white space or
    nothing, a non-empty text without line feed, white space and one of
    the two labels that end a date, and the date is that text stripped.
    A chunk without the label "DOB:" gets the sentinel. *)
Theorem narrative_dob_from_labeled_text (list_name entry : string) (r : Row) :
  UN.parse_entry list_name entry = Some r ->
  (contains "DOB:" entry = false -> DOB r = "NA")
  /\ (DOB r = "NA"
      \/ exists pre gap value gap' label rest,
           entry = (pre ++ "DOB:" ++ gap ++ value ++ gap' ++ label ++ rest)%string
           /\ sall is_space gap = true
           /\ value <> "" /\ contains NL value = false
           /\ gap' <> "" /\ sall is_space gap' = true
           /\ In label ["POB:"; "Good quality"]
           /\ DOB r = strip value).
Proof.
  intro H. apply parse_entry_fields in H as (_ & _ & _ & _ & -> & _).
  unfold UN.extract_dob.
  destruct (Re.search UN.dob_re entry) as [mt|] eqn:E; [|split; auto].
  apply (labeled_value_found _ _ _ (fun w => In w ["POB:"; "Good quality"])) in E.
  - destruct E as (pre & gap & value & gap' & label & rest & Hs & ? & ? & Hv & ? & ? & ? & ->).
    split.
    + intro Hno. rewrite Hs, contains_app in Hno. discriminate.
    + right. exists pre, gap, value, gap', label, rest.
      apply sall_not_newline in Hv. auto 10.
  - cbn [Lang.matches In]. intuition auto.
Qed.

Lemma narrative_dob_from_labeled_text_witness :
  (contains "DOB:" "QDi.006 Name: 1: AIMAN Title: Doctor DOB: 19 Jun. 1951 POB: Giza" = false
   -> "19 Jun. 1951" = "NA")
  /\ ("19 Jun. 1951" = "NA"
      \/ exists pre gap value gap' label rest,
           "QDi.006 Name: 1: AIMAN Title: Doctor DOB: 19 Jun. 1951 POB: Giza"
           = (pre ++ "DOB:" ++ gap ++ value ++ gap' ++ label ++ rest)%string
           /\ sall is_space gap = true
           /\ value <> "" /\ contains NL value = false
           /\ gap' <> "" /\ sall is_space gap' = true
           /\ In label ["POB:"; "Good quality"]
           /\ "19 Jun. 1951" = strip value).
Proof.
  exact (narrative_dob_from_labeled_text
           "UNSCR 1267 (ISIL/Al-Qaida)"
           "QDi.006 Name: 1: AIMAN Title: Doctor DOB: 19 Jun. 1951 POB: Giza"
           (UN.make_record "UNSCR 1267 (ISIL/Al-Qaida)" "QDi.006" "AIMAN" [] "19 Jun. 1951"
                           "QDi.006 Name: 1: AIMAN Title: Doctor DOB: 19 Jun. 1951 POB: Giza")
           eq_refl).
Defined.

(** X13. The aliases of a record of the narrative extractor are empty, or
    the chunk holds one of the two alias labels, a non-empty block and one
    of the four labels that end the block, and the aliases are those of
    the block, joined by " | ".  A chunk that holds neither alias label
    has no aliases. *)
Theorem narrative_aliases_from_labeled_text (list_name entry : string) (r : Row) :
  UN.parse_entry list_name entry = Some r ->
  (contains "Good quality a.k.a.:" entry = false ->
   contains "Low quality a.k.a.:" entry = false -> Aliases r = "")
  /\ (Aliases r = ""
      \/ exists pre label block label' rest,
           entry = (pre ++ label ++ block ++ label' ++ rest)%string
           /\ In label ["Good quality a.k.a.:"; "Low quality a.k.a.:"]
           /\ block <> ""
           /\ In label' ["Nationality:"; "Passport no:"; "National identification"; "Address:"]
           /\ Aliases r = join " | " (UN.aliases_of_block block)).
Proof.
  intro H. apply parse_entry_fields in H as (_ & _ & _ & -> & _).
  unfold UN.extract_aliases.
  destruct (Re.search UN.alias_re entry) as [mt|] eqn:E; [|split; auto].
  destruct (search_sound _ _ _ E) as (pre & w & rest & Hs & _ & M).
  unfold UN.alias_re in M. cbn [Re.seq Re.alt Lang.matches] in M.
  destruct M as (label & w2 & n1 & n2 & -> & Hcaps & (n3 & -> & Hlabel) & M).
  destruct M as (block & label' & n4 & n5 & -> & -> & (n6 & -> & Hne & _ & ->) & M).
  destruct M as (n7 & -> & Hlabel').
  assert (Hl : In label ["Good quality a.k.a.:"; "Low quality a.k.a.:"]
               /\ n3 = []) by (cbn [In]; intuition auto).
  assert (Hl' : In label' ["Nationality:"; "Passport no:"; "National identification";
                           "Address:"] /\ n7 = []) by (cbn [In]; intuition auto).
  destruct Hl as [Hl ->]. destruct Hl' as [Hl' ->]. clear Hlabel Hlabel'.
  rewrite !app_assoc in Hs.
  assert (Hg : Re.group entry mt 2 = block).
  { unfold Re.group. rewrite Hcaps. cbn [List.app Re.lookup Nat.eqb].
    replace (String.length pre + String.length label)
      with (String.length (pre ++ label)) by apply length_app.
    replace entry with ((pre ++ label) ++ block ++ label' ++ rest)%string
      by (rewrite Hs, !app_assoc; reflexivity).
    apply slice_middle. }
  rewrite Hg. split.
  - intros Hgood Hlow. rewrite Hs in Hgood, Hlow.
    destruct Hl as [<-|[<-|[]]]; rewrite contains_app in *; discriminate.
  - right. exists pre, label, block, label', rest. auto.
Qed.

Lemma narrative_aliases_from_labeled_text_witness :
  (contains "Good quality a.k.a.:"
            "TAi.173 Name: 1: ABDUL Title: Haji Good quality a.k.a.: a) Haji Basir Nationality: na"
   = false ->
   contains "Low quality a.k.a.:"
            "TAi.173 Name: 1: ABDUL Title: Haji Good quality a.k.a.: a) Haji Basir Nationality: na"
   = false -> "Haji Basir" = "")
  /\ ("Haji Basir" = ""
      \/ exists pre label block label' rest,
           "TAi.173 Name: 1: ABDUL Title: Haji Good quality a.k.a.: a) Haji Basir Nationality: na"
           = (pre ++ label ++ block ++ label' ++ rest)%string
           /\ In label ["Good quality a.k.a.:"; "Low quality a.k.a.:"]
           /\ block <> ""
           /\ In label' ["Nationality:"; "Passport no:"; "National identification"; "Address:"]
           /\ "Haji Basir" = join " | " (UN.aliases_of_block block)).
Proof.
  exact (narrative_aliases_from_labeled_text
           "UNSCR 1988 (Taliban)"
           "TAi.173 Name: 1: ABDUL Title: Haji Good quality a.k.a.: a) Haji Basir Nationality: na"
           (UN.make_record "UNSCR 1988 (Taliban)" "TAi.173" "ABDUL" ["Haji Basir"] "NA"
              "TAi.173 Name: 1: ABDUL Title: Haji Good quality a.k.a.: a) Haji Basir Nationality: na")
           eq_refl).
Defined.

(** ** Line feeds and surrounding white space in the fields *)

Lemma sall_app (p : ascii -> bool) (a b : string) :
  sall p (a ++ b) = sall p a && sall p b.
Proof. induction a as [|c a IH]; [reflexivity|]. simpl. now rewrite IH, andb_assoc. Qed.

Lemma sall_substring (p : ascii -> bool) (s : string) :
  sall p s = true -> forall n len, sall p (String.substring n len s) = true.
Proof.
  induction s as [|c s IH]; intros H n len.
  - destruct n, len; reflexivity.
  - apply andb_prop in H as [Hc Hs]. destruct n as [|n]; cbn [String.substring].
    + destruct len as [|len]; [reflexivity|]. cbn [sall]. now rewrite Hc, IH.
    + now apply IH.
Qed.

Lemma sall_pieces (p : ascii -> bool) (s : string) (ms : list Re.rmatch) :
  sall p s = true ->
  forall last, Forall (fun x => sall p x = true) (Re.pieces s last ms).
Proof.
  intro H. induction ms as [|x ms IH]; intro last; cbn [Re.pieces];
    constructor; auto; now apply sall_substring.
Qed.

Lemma sall_concat (p : ascii -> bool) (sep : string) (l : list string) :
  sall p sep = true -> Forall (fun x => sall p x = true) l ->
  sall p (String.concat sep l) = true.
Proof.
  intros Hsep H. induction H as [|x l Hx Hl IH]; [reflexivity|].
  cbn [String.concat]. destruct l; [exact Hx|].
  now rewrite !sall_app, Hx, Hsep, IH.
Qed.

Lemma sall_join (p : ascii -> bool) (sep : string) (l : list string) :
  sall p sep = true -> Forall (fun x => sall p x = true) l ->
  sall p (join sep l) = true.
Proof.
  intros Hsep H. induction H as [|x l Hx Hl IH]; [reflexivity|].
  cbn [join]. destruct l; [exact Hx|].
  now rewrite !sall_app, Hx, Hsep, IH.
Qed.

Lemma sall_sub (p : ascii -> bool) (r : Re.regex) (repl s : string) :
  sall p repl = true -> sall p s = true -> sall p (Re.sub r repl s) = true.
Proof. intros Hr Hs. unfold Re.sub. now apply sall_concat, sall_pieces. Qed.

Lemma replace_not_newline (sep s : string) :
  sall Re.not_newline sep = true -> sall Re.not_newline (replace NL sep s) = true.
Proof.
  intro Hsep. unfold replace, NL. induction s as [|c s IH]; [reflexivity|].
  cbn [replace_from startswith]. rewrite andb_true_r.
  change (String.length (String LF "") - 1) with 0.
  destruct (Ascii.eqb LF c) eqn:E.
  - now rewrite sall_app, Hsep, IH.
  - cbn [sall]. rewrite IH, andb_true_r. unfold Re.not_newline.
    now rewrite Ascii.eqb_sym, E.
Qed.

Lemma reference_number_line (s : string) :
  Lang.reference_number s -> sall Re.not_newline s = true.
Proof.
  intros (a & b & c & digits & -> & Ha & Hb & Hc & _ & Hd).
  assert (Hup : forall x, is_upper_az x = true -> Re.not_newline x = true)
    by (intros [[] [] [] [] [] [] [] []]; try discriminate; reflexivity).
  assert (Hdig : forall x, is_digit x = true -> Re.not_newline x = true)
    by (intros [[] [] [] [] [] [] [] []]; try discriminate; reflexivity).
  cbn [sall append]. rewrite (Hup _ Ha), (Hup _ Hb), (sall_impl _ _ _ Hdig Hd).
  destruct Hc as [<-|[<-|[<-|[]]]]; reflexivity.
Qed.

Lemma rstrip_by_idem (p : ascii -> bool) (s : string) :
  rstrip_by p (rstrip_by p s) = rstrip_by p s.
Proof.
  induction s as [|c s IH]; [reflexivity|]. cbn [rstrip_by].
  destruct (rstrip_by p s) as [|d t] eqn:E.
  - destruct (p c) eqn:Hc; [reflexivity|]. cbn [rstrip_by]. now rewrite Hc.
  - change (rstrip_by p (String c (String d t)))
      with (match rstrip_by p (String d t) with
            | EmptyString => if p c then EmptyString else String c EmptyString
            | t0 => String c t0
            end).
    now rewrite IH.
Qed.

Lemma lstrip_by_head (p : ascii -> bool) (s : string) (d : ascii) (t : string) :
  lstrip_by p s = String d t -> p d = false.
Proof.
  induction s as [|c s IH]; [discriminate|]. cbn [lstrip_by].
  destruct (p c) eqn:Hc; [exact IH|]. intro H. now injection H as <- _.
Qed.

Lemma rstrip_by_head (p : ascii -> bool) (d : ascii) (t : string) :
  p d = false -> exists t', rstrip_by p (String d t) = String d t'.
Proof.
  intro Hd. cbn [rstrip_by]. destruct (rstrip_by p t); [rewrite Hd|]; eauto.
Qed.

(** Stripping a stripped text changes nothing. *)
Lemma strip_by_idem (p : ascii -> bool) (s : string) :
  strip_by p (strip_by p s) = strip_by p s.
Proof.
  unfold strip_by. destruct (lstrip_by p s) as [|d t] eqn:E; [reflexivity|].
  apply lstrip_by_head in E as Hd.
  destruct (rstrip_by_head p d t Hd) as [t' Ht]. rewrite Ht.
  cbn [lstrip_by]. rewrite Hd, <- Ht. apply rstrip_by_idem.
Qed.

Lemma extract_name_line (entry : string) :
  sall Re.not_newline (UN.extract_name entry) = true.
Proof.
  unfold UN.extract_name. destruct (Re.search UN.name_re entry); [|reflexivity].
  unfold UN.clean_raw_name. apply sall_sub; [reflexivity|].
  apply sall_strip, replace_not_newline. reflexivity.
Qed.

Lemma aliases_of_block_line (block : string) :
  Forall (fun a => sall Re.not_newline a = true) (UN.aliases_of_block block).
Proof.
  unfold UN.aliases_of_block. apply Forall_map, Forall_forall. intros f Hf.
  apply filter_In in Hf as [Hf _].
  unfold UN.trim_fragment, strip_chars. apply sall_strip.
  unfold strip_by. apply sall_rstrip, sall_lstrip.
  revert f Hf. apply Forall_forall. apply sall_pieces.
  apply replace_not_newline. reflexivity.
Qed.

Lemma extract_dob_line (entry : string) :
  sall Re.not_newline (UN.extract_dob entry) = true.
Proof.
  unfold UN.extract_dob. destruct (Re.search UN.dob_re entry) as [mt|] eqn:E; [|reflexivity].
  apply (labeled_value_found _ _ _ (fun _ => True)) in E.
  - destruct E as (_ & _ & value & _ & _ & _ & _ & _ & _ & Hv & _ & _ & _ & ->).
    now apply sall_strip.
  - cbn [Lang.matches]. intuition auto.
Qed.

(** X14. No field that the narrative extractor takes from a chunk holds a
    line feed: the reference number, the name, the aliases and the date
    of birth of every record are single lines.  The date of birth has no
    white space around it, and neither has any of the aliases. *)
Theorem narrative_fields_are_single_lines (list_name entry : string) (r : Row) :
  UN.parse_entry list_name entry = Some r ->
  contains NL (Reference_No r) = false
  /\ contains NL (Name r) = false
  /\ contains NL (Aliases r) = false
  /\ contains NL (DOB r) = false
  /\ strip (DOB r) = DOB r
  /\ Aliases r = join " | " (UN.extract_aliases entry)
  /\ Forall (fun a => strip a = a) (UN.extract_aliases entry).
Proof.
  intro H. apply parse_entry_fields in H as (_ & (mt & Hm & ->) & -> & -> & -> & _).
  repeat split.
  - apply sall_not_newline, reference_number_line.
    now destruct (reference_found _ _ Hm) as (_ & _ & _ & Hr).
  - apply sall_not_newline, extract_name_line.
  - apply sall_not_newline, sall_join; [reflexivity|].
    unfold UN.extract_aliases. destruct (Re.search UN.alias_re entry); [|constructor].
    apply aliases_of_block_line.
  - apply sall_not_newline, extract_dob_line.
  - unfold UN.extract_dob. destruct (Re.search UN.dob_re entry); [|reflexivity].
    apply strip_by_idem.
  - unfold UN.extract_aliases. destruct (Re.search UN.alias_re entry); [|constructor].
    unfold UN.aliases_of_block. apply Forall_map, Forall_forall. intros f _.
    apply strip_by_idem.
Qed.

Lemma narrative_fields_are_single_lines_witness :
  let entry := "QDi.006 Name: 1: AIMAN" ++ NL ++ "2: MUHAMMED Title: Doctor DOB: 19 Jun. 1951 POB: Giza"
               ++ " Good quality a.k.a.: a) Ayman" ++ NL ++ "Al-Zawahari b) Abu Fatima Nationality: Egypt" in
  let r := UN.make_record "UNSCR 1267 (ISIL/Al-Qaida)" "QDi.006" "AIMAN MUHAMMED"
                          ["Ayman Al-Zawahari"; "Abu Fatima"] "19 Jun. 1951" entry in
  contains NL (Reference_No r) = false
  /\ contains NL (Name r) = false
  /\ contains NL (Aliases r) = false
  /\ contains NL (DOB r) = false
  /\ strip (DOB r) = DOB r
  /\ Aliases r = join " | " (UN.extract_aliases entry)
  /\ Forall (fun a => strip a = a) (UN.extract_aliases entry).
Proof.
  intros entry r.
  exact (narrative_fields_are_single_lines "UNSCR 1267 (ISIL/Al-Qaida)" entry r eq_refl).
Defined.

(** ** The white space of a name *)

Lemma substring_0_len (n : nat) (s : string) : String.substring n 0 s = "".
Proof. revert n. induction s as [|c s IH]; intros [|n]; cbn; auto. Qed.

Lemma slice_empty (n : nat) (s : string) : slice n n s = "".
Proof. unfold slice. rewrite Nat.sub_diag. apply substring_0_len. Qed.

Lemma substring_snoc (pre : string) (c : ascii) (s : string) :
  forall last, last <= String.length pre ->
    String.substring last (S (String.length pre) - last) (pre ++ String c s)
    = (String.substring last (String.length pre - last) (pre ++ String c s)
       ++ String c "")%string.
Proof.
  induction pre as [|d pre IH]; intros last Hl; cbn [String.length append] in *.
  - assert (last = 0) as -> by lia. cbn. now rewrite substring_0_len.
  - destruct last as [|last].
    + cbn [Nat.sub String.substring append]. f_equal.
      specialize (IH 0 (Nat.le_0_l _)). rewrite !Nat.sub_0_r in IH. exact IH.
    + cbn [String.substring]. rewrite <- IH by lia.
      replace (S (S (String.length pre)) - S last) with (S (String.length pre) - last) by lia.
      reflexivity.
Qed.

Lemma slice_snoc (pre : string) (c : ascii) (s : string) (last : nat) :
  last <= String.length pre ->
  slice last (S (String.length pre)) (pre ++ String c s)
  = (slice last (String.length pre) (pre ++ String c s) ++ String c "")%string.
Proof. apply substring_snoc. Qed.

Lemma app_snoc (pre : string) (c : ascii) (s : string) :
  (pre ++ String c s)%string = ((pre ++ String c "") ++ s)%string.
Proof. now rewrite app_assoc. Qed.

Lemma length_snoc (pre : string) (c : ascii) :
  String.length (pre ++ String c "") = S (String.length pre).
Proof. rewrite length_app. cbn. lia. Qed.

Lemma concat_pieces (sep x s : string) (e : nat) (ms : list Re.rmatch) :
  String.concat sep (x :: Re.pieces s e ms)
  = (x ++ sep ++ String.concat sep (Re.pieces s e ms))%string.
Proof. destruct ms; reflexivity. Qed.

(** A run of white space is matched whole. *)
Lemma star_greedy_run (b : bool) (start : nat) (s : string) :
  forall pos, start < pos ->
    Re.star_greedy is_space (Re.success b start) s pos []
    = Some (pos + Runs.run_length is_space s, []).
Proof.
  assert (Hk : forall s0 pos, start < pos ->
                 Re.success b start s0 pos [] = Some (pos, [])).
  { intros s0 pos Hp. unfold Re.success.
    destruct (Nat.eqb_spec pos start); [lia|]. now rewrite andb_false_r. }
  induction s as [|c s IH]; intros pos Hp; cbn [Re.star_greedy Runs.run_length].
  - rewrite Nat.add_0_r. now apply Hk.
  - destruct (is_space c).
    + rewrite IH by lia. cbn [Re.or_else]. now rewrite Nat.add_succ_r.
    + rewrite Nat.add_0_r. now apply Hk.
Qed.

Lemma match_at_spaces (b : bool) (s : string) (pos : nat) :
  Re.match_at (Re.Plus is_space) b s pos
  = match s with
    | String c s' =>
        if is_space c
        then Some {| Re.m_start := pos;
                     Re.m_end := S pos + Runs.run_length is_space s';
                     Re.m_caps := [] |}
        else None
    | EmptyString => None
    end.
Proof.
  unfold Re.match_at, Re.Plus. cbn [Re.m]. destruct s as [|c s]; [reflexivity|].
  destruct (is_space c); [|reflexivity].
  now rewrite star_greedy_run by lia.
Qed.

(** [re.sub(r'\s+', ' ', s)] replaces every run of white space by one
    space. *)
Lemma sub_spaces_from (s : string) :
  forall pre,
    (forall last, last <= String.length pre ->
       String.concat " " (Re.pieces (pre ++ s) last
                            (Re.finditer_from (Re.Plus is_space) s (String.length pre) 0))
       = (slice last (String.length pre) (pre ++ s) ++ Runs.squeeze false s)%string)
    /\ String.concat " " (Re.pieces (pre ++ s)
                            (String.length pre + Runs.run_length is_space s)
                            (Re.finditer_from (Re.Plus is_space) s (String.length pre)
                                              (Runs.run_length is_space s)))
       = Runs.squeeze true s.
Proof.
  induction s as [|c s IH]; intro pre.
  - cbn [Re.finditer_from Runs.run_length Runs.squeeze]. rewrite match_at_spaces.
    cbn [Re.pieces String.concat]. rewrite !app_empty_r, Nat.add_0_r.
    split; [intros last _; now rewrite app_empty_r|apply slice_empty].
  - destruct (IH (pre ++ String c "")%string) as [IH1 IH2].
    rewrite <- app_snoc, length_snoc in IH1, IH2.
    assert (H1 : forall last, last <= String.length pre ->
       String.concat " " (Re.pieces (pre ++ String c s) last
                            (Re.finditer_from (Re.Plus is_space) (String c s)
                                              (String.length pre) 0))
       = (slice last (String.length pre) (pre ++ String c s)
          ++ Runs.squeeze false (String c s))%string).
    { intros last Hl. cbn [Re.finditer_from Runs.squeeze]. rewrite match_at_spaces.
      destruct (is_space c) eqn:Hc.
      - cbn [Re.m_end Re.m_start].
        destruct (Nat.eqb_spec (S (String.length pre) + Runs.run_length is_space s)
                               (String.length pre)) as [E|_]; [lia|].
        replace (S (String.length pre) + Runs.run_length is_space s
                 - String.length pre - 1) with (Runs.run_length is_space s) by lia.
        cbn [Re.pieces Re.m_start Re.m_end]. rewrite concat_pieces, IH2. reflexivity.
      - rewrite IH1 by lia. rewrite slice_snoc by exact Hl.
        now rewrite app_assoc. }
    split; [exact H1|].
    cbn [Runs.run_length Runs.squeeze]. destruct (is_space c) eqn:Hc.
    + cbn [Re.finditer_from]. rewrite Nat.add_succ_r. exact IH2.
    + rewrite Nat.add_0_r, H1 by lia. rewrite slice_empty.
      cbn [Runs.squeeze]. now rewrite Hc.
Qed.

Lemma sub_spaces (s : string) : Re.sub (Re.Plus is_space) " " s = Runs.squeeze false s.
Proof.
  unfold Re.sub, Re.finditer.
  destruct (sub_spaces_from s "") as [H _]. specialize (H 0 (Nat.le_refl _)).
  cbn [append String.length] in H. rewrite H, slice_empty. reflexivity.
Qed.

Lemma split_empty_rstrip (s : string) : split s = [] -> rstrip_by is_space s = "".
Proof.
  induction s as [|c s IH]; [reflexivity|]. intro H.
  destruct (is_space c) eqn:Hc.
  - cbn [split] in H. rewrite Hc in H. cbn [rstrip_by]. now rewrite (IH H), Hc.
  - now apply split_nonspace_cons with (s := s) in Hc.
Qed.

Lemma rstrip_fixed_tail (c : ascii) (s : string) :
  rstrip_by is_space (String c s) = String c s -> rstrip_by is_space s = s.
Proof.
  cbn [rstrip_by]. destruct (rstrip_by is_space s) as [|d t] eqn:E.
  - destruct (is_space c); [discriminate|]. intro H. now injection H as <-.
  - intro H. now injection H as <-.
Qed.

Lemma join_cons_char (sep : string) (c : ascii) (t : string) (ts : list string) :
  join sep (String c t :: ts) = String c (join sep (t :: ts)).
Proof. destruct ts; reflexivity. Qed.

(** A text with no white space at its end, squeezed, is its words joined
    by single spaces; white space at its head disappears when the space
    that stands for it is written already. *)
Lemma squeeze_join (s : string) :
  rstrip_by is_space s = s ->
  Runs.squeeze true s = join " " (split s)
  /\ ((forall c t, s = String c t -> is_space c = false) ->
      Runs.squeeze false s = join " " (split s)).
Proof.
  induction s as [|c s IH]; intro Hr; [split; reflexivity|].
  specialize (IH (rstrip_fixed_tail _ _ Hr)). destruct IH as [IH1 IH2].
  destruct (is_space c) eqn:Hc.
  - split.
    + cbn [Runs.squeeze split]. now rewrite Hc.
    + intro H. specialize (H c s eq_refl). congruence.
  - assert (H : Runs.squeeze false (String c s) = join " " (split (String c s))).
    { cbn [Runs.squeeze]. rewrite Hc. destruct s as [|d s]; [cbn; now rewrite Hc|].
      rewrite split_cons2, Hc. destruct (is_space d) eqn:Hd.
      - assert (Hne : split (String d s) <> []).
        { intro E. apply split_empty_rstrip in E.
          rewrite (rstrip_fixed_tail _ _ Hr) in E. discriminate. }
        destruct (split (String d s)) as [|t ts] eqn:E; [congruence|].
        cbn [join]. cbn [Runs.squeeze] in *. rewrite Hd in *. now rewrite IH1.
      - rewrite IH2 by (intros ? ? [= <- _]; exact Hd).
        pose proof (split_nonspace_cons d s Hd) as Hne.
        destruct (split (String d s)) as [|t ts]; [congruence|].
        now rewrite join_cons_char. }
    split; [|intros _; exact H].
    rewrite <- H. cbn [Runs.squeeze]. now rewrite Hc.
Qed.

Lemma strip_head (s : string) (c : ascii) (t : string) :
  strip s = String c t -> is_space c = false.
Proof.
  unfold strip, strip_by. intro H. apply rstrip_head in H as [t' H].
  now apply lstrip_by_head in H.
Qed.

Lemma sub_spaces_strip (s : string) :
  Re.sub (Re.Plus is_space) " " (strip s) = join " " (split s).
Proof.
  rewrite sub_spaces, <- (split_strip s).
  apply squeeze_join; [apply rstrip_by_idem|]. intros c t. apply strip_head.
Qed.

(** The words of a text hold no white space. *)
Lemma split_words (s : string) :
  Forall (fun w => sall (fun c => negb (is_space c)) w = true) (split s).
Proof.
  induction s as [|c s IH]; [constructor|].
  destruct (is_space c) eqn:Hc; [cbn [split]; now rewrite Hc|].
  destruct s as [|d s]; [cbn [split]; rewrite Hc; repeat constructor; cbn; now rewrite Hc|].
  rewrite split_cons2, Hc. destruct (is_space d) eqn:Hd.
  - constructor; [cbn; now rewrite Hc|exact IH].
  - destruct (split (String d s)) as [|t ts]; [repeat constructor; cbn; now rewrite Hc|].
    inversion IH as [|? ? Ht Hts]; subst. constructor; [|exact Hts].
    cbn [sall]. now rewrite Hc, Ht.
Qed.

Lemma replace_char (a b : ascii) (s : string) :
  replace (String a "") (String b "") s
  = smap (fun c => if Ascii.eqb a c then b else c) s.
Proof.
  unfold replace. induction s as [|c s IH]; [reflexivity|].
  cbn [replace_from startswith smap String.length Nat.sub]. rewrite andb_true_r.
  destruct (Ascii.eqb a c); cbn [append]; now rewrite IH.
Qed.

Lemma split_replace_line_feed (s : string) : split (replace NL " " s) = split s.
Proof.
  unfold NL. rewrite replace_char, split_smap.
  - rewrite <- (map_id (split s)) at 2. apply map_ext_Forall.
    eapply Forall_impl; [|apply split_words]. intros w Hw.
    apply (smap_fixed (fun c => negb (is_space c))); [|exact Hw].
    intros c Hc. destruct (Ascii.eqb_spec LF c) as [<-|]; [discriminate|reflexivity].
  - intro c. destruct (Ascii.eqb_spec LF c) as [<-|]; reflexivity.
Qed.

(** X15. The cleaning of a name: the text the name pattern captured loses
    its markers and every occurrence of the letters "na"; the name is the
    words that are left, joined by single spaces.  So a name has no white
    space at either end and none but single spaces inside. *)
Theorem narrative_name_is_joined_words (raw_name : string) :
  UN.clean_raw_name raw_name
  = join " " (split (replace "na" "" (Re.sub UN.marker_re "" raw_name))).
Proof.
  unfold UN.clean_raw_name. cbv zeta.
  now rewrite sub_spaces_strip, split_replace_line_feed.
Qed.

(** ** The chunks of the text *)

Lemma substring_add (s : string) :
  forall a k1 k2, a + k1 <= String.length s ->
    String.substring a (k1 + k2) s
    = (String.substring a k1 s ++ String.substring (a + k1) k2 s)%string.
Proof.
  induction s as [|c s IH]; intros a k1 k2 H; cbn [String.length] in H.
  - assert (a = 0) as -> by lia. assert (k1 = 0) as -> by lia. reflexivity.
  - destruct a as [|a].
    + destruct k1 as [|k1]; [reflexivity|].
      cbn [Nat.add String.substring append]. f_equal.
      apply (IH 0 k1 k2). lia.
    + cbn [Nat.add String.substring]. apply IH. lia.
Qed.

Lemma slice_join (s : string) (a b n : nat) :
  a <= b -> b <= n -> b <= String.length s ->
  (slice a b s ++ slice b n s)%string = slice a n s.
Proof.
  intros Hab Hbn Hb. unfold slice.
  replace (n - a) with ((b - a) + (n - b)) by lia.
  rewrite substring_add by lia. now replace (a + (b - a)) with b by lia.
Qed.

Lemma slice_whole (s : string) : slice 0 (String.length s) s = s.
Proof.
  unfold slice. rewrite Nat.sub_0_r. rewrite <- (app_empty_r s) at 2.
  apply substring_all.
Qed.

(** A lookahead matches the empty text only. *)
Lemma match_at_ahead (r : Re.regex) (b : bool) (s : string) (pos : nat) :
  Re.match_at (Re.Ahead r) b s pos
  = match Re.m r (fun _ pos' caps' => Some (pos', caps')) s pos [] with
    | Some (_, caps') =>
        if b then None
        else Some {| Re.m_start := pos; Re.m_end := pos; Re.m_caps := caps' |}
    | None => None
    end.
Proof.
  unfold Re.match_at. cbn [Re.m].
  destruct (Re.m r _ s pos []) as [[e caps']|]; [|reflexivity].
  unfold Re.success. rewrite Nat.eqb_refl. destruct b; reflexivity.
Qed.

Lemma split_ahead_from (r : Re.regex) (s : string) :
  forall pre last, last <= String.length pre ->
    String.concat "" (Re.pieces (pre ++ s) last
                        (Re.finditer_from (Re.Ahead r) s (String.length pre) 0))
    = slice last (String.length (pre ++ s)) (pre ++ s).
Proof.
  induction s as [|c s IH]; intros pre last Hl; cbn [Re.finditer_from];
    rewrite !match_at_ahead;
    destruct (Re.m r _ _ (String.length pre) []) as [[e caps']|].
  - cbn [Re.m_end Re.m_start]. rewrite Nat.eqb_refl.
    cbn [Re.pieces Re.m_start Re.m_end String.concat append].
    rewrite app_empty_r, slice_empty. apply app_empty_r.
  - reflexivity.
  - cbn [Re.m_end Re.m_start]. rewrite Nat.eqb_refl.
    cbn [Re.pieces Re.m_start Re.m_end]. rewrite concat_pieces. cbn [append].
    pose proof (IH (pre ++ String c "")%string (String.length pre)) as IH'.
    rewrite length_snoc, <- app_snoc in IH'. rewrite IH' by lia.
    apply slice_join; rewrite ?length_app; lia.
  - pose proof (IH (pre ++ String c "")%string last) as IH'.
    rewrite length_snoc, <- app_snoc in IH'. apply IH'. lia.
Qed.

(** X16. The chunks partition the text: the separator of the chunks is a
    lookahead, which consumes nothing, so the chunks put end to end are
    the text that was read. *)
Theorem narrative_chunks_partition_text (full_text : string) :
  String.concat "" (Re.split UN.entry_boundary full_text) = full_text.
Proof.
  unfold Re.split, Re.finditer, UN.entry_boundary.
  rewrite (split_ahead_from _ full_text "" 0 (Nat.le_refl _)).
  cbn [append]. apply slice_whole.
Qed.

Lemma concat_empty_cons (x : string) (l : list string) :
  String.concat "" (x :: l) = (x ++ String.concat "" l)%string.
Proof. destruct l; cbn [String.concat append]; [now rewrite app_empty_r|reflexivity]. Qed.

(** X17. The text of a document whose pages all extract: the texts of the
    pages that have one, each followed by a line feed, in the order of
    the pages.  A page without text, or with the empty text, adds
    nothing, and the records are those of the whole text, not of the
    pages one by one. *)
Theorem narrative_text_of_pages (pages : list (option string)) (list_name : string) :
  UN.parse_data (Returns (map Returns pages)) list_name
  = UN.parse_text
      (String.concat "" (map (fun t => t ++ NL)%string
                             (filter truthy (flat_map option_list pages))))
      list_name.
Proof.
  unfold UN.parse_data.
  assert (H : forall acc,
             UN.read_pages (map Returns pages) acc
             = Returns (acc ++ String.concat ""
                                (map (fun t => t ++ NL)%string
                                     (filter truthy (flat_map option_list pages))))%string).
  { induction pages as [|[t|] pages IH]; intro acc; cbn [map UN.read_pages flat_map].
    - now rewrite app_empty_r.
    - cbn [option_list List.app filter]. destruct (truthy t) eqn:Ht.
      + rewrite IH. cbn [map]. now rewrite concat_empty_cons, !app_assoc.
      + apply IH.
    - apply IH. }
  now rewrite H.
Qed.

(** ** What the matcher cannot miss *)

Lemma star_greedy_blind (p : ascii -> bool) (k : Re.cont) :
  Lang.blind k -> Lang.blind (Re.star_greedy p k).
Proof.
  intros Hk s. induction s as [|c s IH]; intros pos c1 c2; cbn [Re.star_greedy].
  - apply Hk.
  - destruct (p c); [|apply Hk].
    destruct (Re.star_greedy p k s (S pos) c1) eqn:E1; [discriminate|].
    cbn [Re.or_else]. intro H. rewrite (IH _ _ c2 E1). cbn [Re.or_else].
    now apply Hk with (c1 := c1).
Qed.

Lemma star_lazy_blind (p : ascii -> bool) (k : Re.cont) :
  Lang.blind k -> Lang.blind (Re.star_lazy p k).
Proof.
  intros Hk s. induction s as [|c s IH]; intros pos c1 c2; cbn [Re.star_lazy].
  - destruct (k "" pos c1) eqn:E1; [discriminate|]. intros _.
    now rewrite (Hk _ _ _ c2 E1).
  - destruct (k (String c s) pos c1) eqn:E1; [discriminate|].
    rewrite (Hk _ _ _ c2 E1). destruct (p c); [apply IH|reflexivity].
Qed.

Lemma m_blind (r : Re.regex) : forall k, Lang.blind k -> Lang.blind (Re.m r k).
Proof.
  induction r as [l|p|p|p|r1 IH1 r2 IH2|r1 IH1 r2 IH2|n r1 IH1|r1 IH1];
    intros k Hk s pos c1 c2; cbn [Re.m].
  - destruct (Re.lit_rest l s); [apply Hk|reflexivity].
  - destruct s as [|c s]; [reflexivity|]. destruct (p c); [apply Hk|reflexivity].
  - now apply star_greedy_blind.
  - destruct s as [|c s]; [reflexivity|].
    destruct (p c); [now apply star_lazy_blind|reflexivity].
  - apply IH1. now apply IH2.
  - destruct (Re.m r1 k s pos c1) eqn:E1; [discriminate|]. cbn [Re.or_else].
    intro H. rewrite (IH1 _ Hk _ _ _ c2 E1). cbn [Re.or_else].
    now apply (IH2 _ Hk) with (c1 := c1).
  - apply IH1. intros s' pos' c1' c2'. apply Hk.
  - destruct (Re.m r1 _ s pos c1) as [[e1 c1']|] eqn:E1.
    + intro H. destruct (Re.m r1 _ s pos c2) as [[e2 c2']|]; [|reflexivity].
      now apply Hk with (c1 := c1').
    + intros _. erewrite IH1; [reflexivity| |exact E1]. intros ? ? ? ?; discriminate.
Qed.

Lemma lit_rest_of_app (l rest : string) : Re.lit_rest l (l ++ rest) = Some rest.
Proof. induction l as [|a l IH]; cbn; [reflexivity|]. now rewrite Ascii.eqb_refl. Qed.

Lemma star_greedy_complete (p : ascii -> bool) (k : Re.cont) (w : string) :
  forall rest pos caps,
    Re.star_greedy p k (w ++ rest) pos caps = None -> sall p w = true ->
    k rest (pos + String.length w) caps = None.
Proof.
  induction w as [|c w IH]; intros rest pos caps H Hw.
  - cbn [append String.length] in *. rewrite Nat.add_0_r.
    destruct rest as [|d rest]; cbn [Re.star_greedy] in H; [exact H|].
    destruct (p d); [|exact H].
    destruct (Re.star_greedy p k rest (S pos) caps); [discriminate|exact H].
  - cbn [append sall String.length] in *. apply andb_prop in Hw as [Hc Hw].
    cbn [Re.star_greedy] in H. rewrite Hc in H.
    destruct (Re.star_greedy p k (w ++ rest) (S pos) caps) eqn:E; [discriminate|].
    rewrite Nat.add_succ_r. now apply (IH rest (S pos)).
Qed.

Lemma star_lazy_complete (p : ascii -> bool) (k : Re.cont) (w : string) :
  forall rest pos caps,
    Re.star_lazy p k (w ++ rest) pos caps = None -> sall p w = true ->
    k rest (pos + String.length w) caps = None.
Proof.
  induction w as [|c w IH]; intros rest pos caps H Hw.
  - cbn [append String.length] in *. rewrite Nat.add_0_r.
    destruct rest as [|d rest]; cbn [Re.star_lazy] in H.
    + destruct (k "" pos caps); [discriminate|reflexivity].
    + destruct (k (String d rest) pos caps); [discriminate|reflexivity].
  - cbn [append sall String.length] in *. apply andb_prop in Hw as [Hc Hw].
    cbn [Re.star_lazy] in H. rewrite Hc in H.
    destruct (k (String c (w ++ rest)) pos caps); [discriminate|].
    rewrite Nat.add_succ_r. now apply (IH rest (S pos)).
Qed.

(** Whatever the pattern can match, the matcher tries: when it fails, the
    continuation fails after every text the pattern can match. *)
Lemma m_complete (r : Re.regex) :
  forall k s pos caps,
    Lang.blind k -> Re.m r k s pos caps = None ->
    forall w rest new caps',
      s = (w ++ rest)%string -> Lang.matches r pos w rest new ->
      k rest (pos + String.length w) caps' = None.
Proof.
  induction r as [l|p|p|p|r1 IH1 r2 IH2|r1 IH1 r2 IH2|n r1 IH1|r1 IH1];
    intros k s pos caps Hk H w rest new caps' -> M; cbn [Re.m Lang.matches] in *.
  - destruct M as [-> _]. rewrite lit_rest_of_app in H. now apply Hk with (c1 := caps).
  - destruct M as [(c & -> & Hc) _]. cbn [append String.length] in *.
    rewrite Hc in H. rewrite Nat.add_1_r. now apply Hk with (c1 := caps).
  - destruct M as [Hw _]. apply Hk with (c1 := caps).
    now apply star_greedy_complete with (p := p).
  - destruct M as (Hne & Hw & _). destruct w as [|c w]; [congruence|].
    cbn [append sall String.length] in *. apply andb_prop in Hw as [Hc Hw].
    rewrite Hc in H. rewrite Nat.add_succ_r. apply Hk with (c1 := caps).
    exact (star_lazy_complete p k w rest (S pos) caps H Hw).
  - destruct M as (w1 & w2 & n1 & n2 & -> & _ & M1 & M2).
    rewrite app_assoc in H. rewrite length_app, Nat.add_assoc.
    eapply (IH2 k _ _ caps Hk); [|reflexivity|exact M2].
    eapply (IH1 _ _ _ caps (m_blind r2 k Hk) H); [reflexivity|exact M1].
  - destruct (Re.m r1 k (w ++ rest) pos caps) eqn:E1; [discriminate|].
    cbn [Re.or_else] in H. destruct M as [M|M].
    + eapply (IH1 k _ _ caps Hk E1); [reflexivity|exact M].
    + eapply (IH2 k _ _ caps Hk H); [reflexivity|exact M].
  - destruct M as (n1 & _ & M).
    assert (Hk' : Lang.blind (fun s' pos' caps0 => k s' pos' ((n, (pos, pos')) :: caps0)))
      by (intros ? ? ? ?; apply Hk).
    apply Hk with (c1 := (n, (pos, pos + String.length w)) :: caps).
    eapply (IH1 _ _ _ caps Hk' H); [reflexivity|exact M].
  - destruct M as (-> & w1 & rest1 & -> & M). cbn [append String.length] in *.
    rewrite Nat.add_0_r.
    destruct (Re.m r1 _ (w1 ++ rest1) pos caps) as [[e c']|] eqn:E1.
    + now apply Hk with (c1 := c').
    + assert (Hk0 : Lang.blind (fun (_ : string) pos' caps0 => Some (pos', caps0)))
        by (intros ? ? ? ?; discriminate).
      pose proof (IH1 _ _ _ caps Hk0 E1 w1 rest1 new caps eq_refl M) as F.
      discriminate.
Qed.

(** A search that finds nothing: the pattern matches nowhere in the
    subject. *)
Lemma search_from_complete (r : Re.regex) (s : string) :
  forall pos,
    Re.search_from r s pos = None ->
    forall pre w rest new,
      s = (pre ++ w ++ rest)%string ->
      ~ Lang.matches r (pos + String.length pre) w rest new.
Proof.
  assert (Hat : forall s0 pos w rest new,
            Re.match_at r false s0 pos = None -> s0 = (w ++ rest)%string ->
            ~ Lang.matches r pos w rest new).
  { intros s0 pos w rest new H Hs M. unfold Re.match_at in H.
    destruct (Re.m r _ s0 pos []) as [[e c]|] eqn:E; [discriminate|].
    assert (Hk : Lang.blind (Re.success false pos)) by (intros ? ? ? ?; discriminate).
    pose proof (m_complete r _ _ _ _ Hk E w rest new [] Hs M) as F. discriminate. }
  induction s as [|c s IH]; intros pos H pre w rest new Hs; cbn [Re.search_from] in H.
  - destruct (Re.match_at r false "" pos) eqn:E; [discriminate|].
    destruct pre; [|discriminate]. cbn [String.length append] in *.
    rewrite Nat.add_0_r. now apply (Hat _ _ _ _ _ E).
  - destruct (Re.match_at r false (String c s) pos) eqn:E; [discriminate|].
    destruct pre as [|d pre]; cbn [String.length append] in *.
    + rewrite Nat.add_0_r. now apply (Hat _ _ _ _ _ E).
    + injection Hs as _ Hs. rewrite Nat.add_succ_r. now apply (IH (S pos) H pre).
Qed.

(** The match that a search finds is the leftmost. *)
Lemma search_from_leftmost (r : Re.regex) (s : string) :
  forall pos x,
    Re.search_from r s pos = Some x ->
    forall pre w rest new,
      s = (pre ++ w ++ rest)%string ->
      Lang.matches r (pos + String.length pre) w rest new ->
      Re.m_start x <= pos + String.length pre.
Proof.
  assert (Hst : forall s0 pos x, Re.match_at r false s0 pos = Some x -> Re.m_start x = pos).
  { intros s0 pos x H. unfold Re.match_at in H.
    destruct (Re.m r _ s0 pos []) as [[e c]|]; [|discriminate]. now injection H as <-. }
  assert (Hat : forall s0 pos w rest new,
            Re.match_at r false s0 pos = None -> s0 = (w ++ rest)%string ->
            ~ Lang.matches r pos w rest new).
  { intros s0 pos w rest new H Hs M. unfold Re.match_at in H.
    destruct (Re.m r _ s0 pos []) as [[e c]|] eqn:E; [discriminate|].
    assert (Hk : Lang.blind (Re.success false pos)) by (intros ? ? ? ?; discriminate).
    pose proof (m_complete r _ _ _ _ Hk E w rest new [] Hs M) as F. discriminate. }
  induction s as [|c s IH]; intros pos x H pre w rest new Hs M; cbn [Re.search_from] in H.
  - destruct (Re.match_at r false "" pos) eqn:E; [|discriminate]. injection H as ->.
    rewrite (Hst _ _ _ E). lia.
  - destruct (Re.match_at r false (String c s) pos) eqn:E.
    + injection H as ->. rewrite (Hst _ _ _ E). lia.
    + destruct pre as [|d pre]; cbn [String.length append] in *.
      * rewrite Nat.add_0_r in M. now apply (Hat _ _ _ _ _ E Hs) in M.
      * injection Hs as _ Hs. rewrite Nat.add_succ_r in *. now apply (IH (S pos) x H pre w rest new).
Qed.

(** ** The reference number of a chunk *)

Lemma reference_matches (w : string) :
  Lang.reference_number w ->
  forall pos rest,
    Lang.matches UN.ref_re pos w rest [(1, (pos, pos + String.length w))].
Proof.
  intros (a & b & c & digits & -> & Ha & Hb & Hc & Hne & Hd) pos rest.
  destruct digits as [|d digits]; [congruence|].
  cbn [sall] in Hd. apply andb_prop in Hd as [Hd Hds].
  unfold UN.ref_re, UN.ref_pattern, Re.Plus. cbn [Re.seq Lang.matches].
  eexists. split; [reflexivity|].
  exists (String a ""), (String b (String c ("." ++ String d digits))), [], [].
  repeat split; eauto.
  exists (String b ""), (String c ("." ++ String d digits)), [], [].
  repeat split; eauto.
  exists (String c ""), ("." ++ String d digits)%string, [], [].
  repeat split; eauto.
  { exists c. split; [reflexivity|]. unfold UN.ie_bar. cbn [mem_char].
    destruct Hc as [<-|[<-|[<-|[]]]]; reflexivity. }
  exists ".", (String d digits), [], [].
  repeat split; eauto.
  exists (String d ""), digits, [], [].
  repeat split; eauto.
Qed.

Lemma star_greedy_longest (p : ascii -> bool) (k : Re.cont)
      (F : nat -> Re.captures -> Re.captures) :
  (forall s pos caps, k s pos caps = Some (pos, F pos caps)) ->
  forall s pos caps,
    Re.star_greedy p k s pos caps
    = Some (pos + Runs.run_length p s, F (pos + Runs.run_length p s) caps).
Proof.
  intros Hk s. induction s as [|c s IH]; intros pos caps;
    cbn [Re.star_greedy Runs.run_length].
  - now rewrite Nat.add_0_r.
  - destruct (p c).
    + rewrite IH. cbn [Re.or_else]. now rewrite Nat.add_succ_r.
    + now rewrite Nat.add_0_r.
Qed.

Lemma run_length_app (p : ascii -> bool) (w rest : string) :
  sall p w = true ->
  Runs.run_length p (w ++ rest) = String.length w + Runs.run_length p rest.
Proof.
  induction w as [|c w IH]; [reflexivity|]. cbn [sall append Runs.run_length String.length].
  intro H. apply andb_prop in H as [Hc Hw]. now rewrite Hc, IH.
Qed.

Lemma search_from_at (r : Re.regex) (s : string) :
  forall pos x,
    Re.search_from r s pos = Some x ->
    exists pre s1,
      s = (pre ++ s1)%string /\ Re.match_at r false s1 (pos + String.length pre) = Some x.
Proof.
  induction s as [|c s IH]; intros pos x H; cbn [Re.search_from] in H.
  - destruct (Re.match_at r false "" pos) eqn:E; [|discriminate]. injection H as ->.
    exists "", "". cbn [String.length]. now rewrite Nat.add_0_r.
  - destruct (Re.match_at r false (String c s) pos) eqn:E.
    + injection H as ->. exists "", (String c s). cbn [String.length]. now rewrite Nat.add_0_r.
    + destruct (IH _ _ H) as (pre & s1 & -> & Hm).
      exists (String c pre), s1. cbn [String.length]. now rewrite Nat.add_succ_r.
Qed.

(** The reference pattern takes all the digits there are. *)
Lemma reference_match_longest (s : string) (p : nat) (x : Re.rmatch) :
  Re.match_at UN.ref_re false s p = Some x ->
  exists w rest,
    s = (w ++ rest)%string /\ Lang.reference_number w
    /\ Re.m_caps x = [(1, (p, p + String.length w))]
    /\ Runs.run_length is_digit rest = 0.
Proof.
  unfold Re.match_at. destruct (Re.m UN.ref_re _ s p []) as [[e caps]|] eqn:E; [|discriminate].
  intro H. injection H as <-. cbn [Re.m_caps].
  destruct (m_sound _ _ _ _ _ _ E) as (w & rest & new & -> & M & Hk).
  unfold Re.success in Hk. cbn [andb] in Hk. rewrite List.app_nil_r in Hk.
  injection Hk as <- <-.
  unfold UN.ref_re, UN.ref_pattern, Re.Plus in M. cbn [Re.seq Lang.matches] in M.
  destruct M as (n1 & -> & w1 & w2 & ? & ? & Hw & -> & ((a & -> & Ha) & ->) & M).
  destruct M as (w3 & w4 & ? & ? & -> & -> & ((b & -> & Hb) & ->) & M).
  destruct M as (w5 & w6 & ? & ? & -> & -> & ((c & -> & Hc) & ->) & M).
  destruct M as (w7 & w8 & ? & ? & -> & -> & (-> & ->) & M).
  destruct M as (w9 & digits & ? & ? & -> & -> & ((d & -> & Hd) & ->) & (Hds & ->)).
  subst w. cbn [append List.app] in *.
  exists (String a (String b (String c (String "." (String d digits))))), rest.
  split; [reflexivity|]. split.
  { exists a, b, c, (String d digits). cbn [append sall]. rewrite Hd, Hds.
    repeat split; auto; try discriminate.
    unfold UN.ie_bar in Hc. cbn [mem_char] in Hc.
    destruct (Ascii.eqb_spec c "i"); [subst; simpl; tauto|].
    destruct (Ascii.eqb_spec c "|"); [subst; simpl; tauto|].
    destruct (Ascii.eqb_spec c "e"); [subst; simpl; tauto|discriminate]. }
  split; [reflexivity|].
  unfold UN.ref_re, UN.ref_pattern, Re.Plus in E.
  cbn [Re.seq Re.m Re.lit_rest] in E. rewrite Ha, Hb, Hc in E.
  cbn [Ascii.eqb Bool.eqb] in E. rewrite Hd in E.
  rewrite (star_greedy_longest is_digit _ (fun pos' caps' => (1, (p, pos')) :: caps')) in E
    by reflexivity.
  injection E as E. rewrite run_length_app in E by exact Hds.
  cbn [String.length] in E. lia.
Qed.

Lemma run_length_0 (p : ascii -> bool) (s : string) :
  Runs.run_length p s = 0 -> forall d s', s = String d s' -> p d = false.
Proof. intros H d s' ->. cbn in H. now destruct (p d). Qed.

(** X18. The reference number of a record is the first one of its chunk,
    with all its digits: the chunk holds it, no digit follows it, and no
    text of the form of a reference number begins before it. *)
Theorem narrative_reference_is_leftmost_longest (list_name entry : string) (r : Row) :
  UN.parse_entry list_name entry = Some r ->
  exists pre rest,
    entry = (pre ++ Reference_No r ++ rest)%string
    /\ (forall d rest', rest = String d rest' -> is_digit d = false)
    /\ (forall pre' w' rest',
          entry = (pre' ++ w' ++ rest')%string -> Lang.reference_number w' ->
          String.length pre <= String.length pre').
Proof.
  intro H. apply parse_entry_fields in H as (_ & (mt & Hm & ->) & _).
  unfold Re.search in Hm.
  destruct (search_from_at _ _ _ _ Hm) as (pre & s1 & Hs & Hat). cbn [Nat.add] in Hat.
  destruct (reference_match_longest _ _ _ Hat) as (w & rest & -> & Hw & Hcaps & Hrun).
  assert (Hst : Re.m_start mt = String.length pre).
  { unfold Re.match_at in Hat. destruct (Re.m _ _ _ _ _) as [[e c]|]; [|discriminate].
    now injection Hat as <-. }
  assert (Hg : Re.group entry mt 1 = w).
  { unfold Re.group. rewrite Hcaps. cbn [Re.lookup Nat.eqb]. rewrite Hs.
    apply slice_middle. }
  rewrite Hg. exists pre, rest. split; [exact Hs|].
  split; [now apply run_length_0|].
  intros pre' w' rest' Hs' Hw'. rewrite <- Hst.
  apply (search_from_leftmost _ _ _ _ Hm pre' w' rest'
           [(1, (String.length pre', String.length pre' + String.length w'))] Hs').
  exact (reference_matches w' Hw' (String.length pre') rest').
Qed.

Lemma narrative_reference_is_leftmost_longest_witness :
  exists pre rest,
    "see QDi.0012 and TAi.173"%string = (pre ++ "QDi.0012" ++ rest)%string
    /\ (forall d rest', rest = String d rest' -> is_digit d = false)
    /\ (forall pre' w' rest',
          "see QDi.0012 and TAi.173"%string = (pre' ++ w' ++ rest')%string ->
          Lang.reference_number w' ->
          String.length pre <= String.length pre').
Proof.
  exact (narrative_reference_is_leftmost_longest
           "UNSCR 1267 (ISIL/Al-Qaida)" "see QDi.0012 and TAi.173"
           (UN.make_record "UNSCR 1267 (ISIL/Al-Qaida)" "QDi.0012" "Unknown Name" [] "NA"
                           "see QDi.0012 and TAi.173")
           eq_refl).
Defined.

(** X19. A chunk is dropped exactly when it is blank or holds no text of
    the form of a reference number; every other chunk gives a record. *)
Theorem narrative_chunk_dropped_iff (list_name entry : string) :
  UN.parse_entry list_name entry = None
  <-> strip entry = ""
      \/ (forall pre w rest,
            entry = (pre ++ w ++ rest)%string -> ~ Lang.reference_number w).
Proof.
  unfold UN.parse_entry. split.
  - destruct (truthy (strip entry)) eqn:Hs; cbn [negb].
    + destruct (Re.search UN.ref_re entry) as [mt|] eqn:Hm; [discriminate|].
      intros _. right. intros pre w rest He Hw.
      apply (search_from_complete _ _ _ Hm pre w rest
               [(1, (String.length pre, String.length pre + String.length w))] He).
      exact (reference_matches w Hw (String.length pre) rest).
    + intros _. left. destruct (strip entry); [reflexivity|discriminate].
  - intros [Hs|Hno].
    + now rewrite Hs.
    + destruct (negb (truthy (strip entry))); [reflexivity|].
      destruct (Re.search UN.ref_re entry) as [mt|] eqn:Hm; [|reflexivity].
      destruct (reference_found _ _ Hm) as (pre & rest & He & Hw).
      now apply Hno in He.
Qed.

(** * The ranking of the candidates *)

Lemma py_round_between (x : Q) :
  let f := (Qnum x / Z.pos (Qden x))%Z in
  (f <= Fuzz.py_round x <= f + 1)%Z.
Proof.
  unfold Fuzz.py_round. cbv zeta.
  destruct (_ <? _)%Z; [lia|]. destruct (_ <? _)%Z; [lia|]. destruct (Z.even _); lia.
Qed.

(** Rounding keeps the order of the scores. *)
Lemma py_round_monotone (x y : Q) : (x <= y)%Q -> (Fuzz.py_round x <= Fuzz.py_round y)%Z.
Proof.
  intro H. pose proof (py_round_between x) as Bx. pose proof (py_round_between y) as By.
  cbv zeta in Bx, By. revert Bx By.
  destruct x as [n1 d1], y as [n2 d2]. unfold Qle in H. cbn [Qnum Qden] in *.
  unfold Fuzz.py_round. cbn [Qnum Qden].
  pose proof (Z.div_mod n1 (Z.pos d1) ltac:(lia)) as E1.
  pose proof (Z.mod_pos_bound n1 (Z.pos d1) ltac:(lia)) as B1.
  pose proof (Z.div_mod n2 (Z.pos d2) ltac:(lia)) as E2.
  pose proof (Z.mod_pos_bound n2 (Z.pos d2) ltac:(lia)) as B2.
  set (f1 := (n1 / Z.pos d1)%Z) in *. set (r1 := (n1 mod Z.pos d1)%Z) in *.
  set (f2 := (n2 / Z.pos d2)%Z) in *. set (r2 := (n2 mod Z.pos d2)%Z) in *.
  set (D1 := Z.pos d1) in *. set (D2 := Z.pos d2) in *.
  assert (HD1 : (0 < D1)%Z) by (unfold D1; lia).
  assert (HD2 : (0 < D2)%Z) by (unfold D2; lia).
  assert (Hf : (f1 <= f2)%Z).
  { destruct (Z.le_gt_cases f1 f2) as [|Hgt]; [assumption|]. exfalso.
    assert ((f2 + 1) * (D1 * D2) <= f1 * (D1 * D2))%Z by (apply Z.mul_le_mono_nonneg_r; nia).
    nia. }
  intros Bx By.
  destruct (Z.eq_dec f1 f2) as [Heq|Hne]; [|lia].
  assert (Hr : (r1 * D2 <= r2 * D1)%Z) by nia.
  rewrite <- Heq in *.
  destruct (Z.ltb_spec (2 * r1) D1) as [L1|L1]; [lia|].
  destruct (Z.ltb_spec (2 * r2) D2) as [L2|L2]; [exfalso; nia|].
  destruct (Z.ltb_spec D1 (2 * r1)) as [G1|G1].
  - destruct (Z.ltb_spec D2 (2 * r2)) as [G2|G2]; [lia|]. exfalso. nia.
  - destruct (Z.ltb_spec D2 (2 * r2)) as [G2|G2]; [destruct (Z.even f1); lia|lia].
Qed.

Lemma norm_distance_nonneg (dist lensum : nat) : (0 <= Fuzz.norm_distance dist lensum 0)%Q.
Proof.
  unfold Fuzz.norm_distance.
  destruct (Qle_bool 0 _) eqn:E; [now apply Qle_bool_iff in E|apply Qle_refl].
Qed.

Lemma max2_nonneg (a b : Q) : (0 <= a)%Q -> (0 <= b)%Q -> (0 <= Fuzz.max2 a b)%Q.
Proof. intros Ha Hb. unfold Fuzz.max2. now destruct (Qle_bool b a). Qed.

(** Without a cutoff no score is negative, so no choice is filtered out. *)
Lemma token_set_ratio_nonneg (s1 s2 : string) : (0 <= Fuzz.token_set_ratio s1 s2 0)%Q.
Proof.
  unfold Fuzz.token_set_ratio.
  destruct (negb (truthy s1) || negb (truthy s2)); [apply Qle_refl|].
  destruct (Fuzz.to_set (split s1)); [apply Qle_refl|].
  destruct (Fuzz.to_set (split s2)); [apply Qle_refl|].
  destruct (negb _ && _); [discriminate|].
  set (result := if (_ <=? _)%Z then _ else 0%Q).
  assert (Hr : (0 <= result)%Q).
  { subst result. destruct (_ <=? _)%Z; [apply norm_distance_nonneg | apply Qle_refl]. }
  destruct (_ =? 0); [exact Hr|].
  unfold Fuzz.max3.
  apply max2_nonneg; [apply max2_nonneg; [exact Hr|]|]; apply norm_distance_nonneg.
Qed.

Lemma length_insert_desc (x : Fuzz.scored) (l : list Fuzz.scored) :
  List.length (Fuzz.insert_desc x l) = S (List.length l).
Proof.
  induction l as [|y l IH]; [reflexivity|]. cbn [Fuzz.insert_desc].
  destruct (Qle_bool _ _); cbn [List.length]; congruence.
Qed.

Lemma length_sort_desc (l : list Fuzz.scored) :
  List.length (Fuzz.sort_desc l) = List.length l.
Proof.
  induction l as [|x l IH]; [reflexivity|]. cbn [Fuzz.sort_desc fold_right].
  fold (Fuzz.sort_desc l). now rewrite length_insert_desc, IH.
Qed.

Lemma filter_all {A : Type} (p : A -> bool) (l : list A) :
  Forall (fun x => p x = true) l -> filter p l = l.
Proof.
  induction 1 as [|x l Hx _ IH]; [reflexivity|]. cbn [filter]. now rewrite Hx, IH.
Qed.

Lemma StronglySorted_firstn {A : Type} (R : A -> A -> Prop) (l : list A) :
  StronglySorted R l -> forall n, StronglySorted R (firstn n l).
Proof.
  induction 1 as [|x l Hl IH Hx]; intros [|n]; cbn [firstn]; try constructor; auto.
  apply Forall_forall. intros y Hy. apply In_firstn in Hy.
  rewrite Forall_forall in Hx. auto.
Qed.

Lemma StronglySorted_map {A B : Type} (R : A -> A -> Prop) (R' : B -> B -> Prop)
      (f : A -> B) (l : list A) :
  (forall a b, R a b -> R' (f a) (f b)) ->
  StronglySorted R l -> StronglySorted R' (map f l).
Proof.
  intro Hf. induction 1 as [|x l Hl IH Hx]; cbn [map]; constructor; auto.
  apply Forall_map. eapply Forall_impl; [|exact Hx]. intros; now apply Hf.
Qed.

(** In a list in descending order of [f], the elements that reach a
    threshold come first. *)
Lemma filter_sorted_prefix {A : Type} (f : A -> Z) (t : Z) (l : list A) :
  StronglySorted (fun a b => (f b <= f a)%Z) l ->
  filter (fun x => (t <=? f x)%Z) l
  = firstn (List.length (filter (fun x => (t <=? f x)%Z) l)) l.
Proof.
  induction 1 as [|x l Hl IH Hx]; [reflexivity|]. cbn [filter].
  destruct (Z.leb_spec t (f x)) as [Hle|Hlt].
  - cbn [List.length firstn]. now rewrite <- IH.
  - rewrite filter_none; [reflexivity|].
    intros y Hy. rewrite Forall_forall in Hx. specialize (Hx y Hy).
    apply Z.leb_gt. lia.
Qed.

Lemma extract_sorted (query : string) (choices : list string) (limit : nat) :
  StronglySorted (fun a b => (snd b <= snd a)%Z) (Fuzz.extract query choices limit).
Proof.
  unfold Fuzz.extract, Fuzz.rapidfuzz_extract, Fuzz.nlargest.
  apply (StronglySorted_map Fuzz.ranks_before).
  - intros a b Hab. cbn [snd]. now apply py_round_monotone.
  - apply StronglySorted_firstn, sort_desc_sorted.
Qed.

(** X20. The candidates of a screening are ranked: they come in
    descending order of their scores, and there are as many as the limit
    allows, the limit or the number of choices, whichever is less; so in
    a store of at most ten records every record is a candidate. *)
Theorem candidates_are_ranked (query : string) (choices : list string) (limit : nat) :
  StronglySorted (fun a b => (snd b <= snd a)%Z) (Fuzz.extract query choices limit)
  /\ List.length (Fuzz.extract query choices limit) = Nat.min limit (List.length choices).
Proof.
  split; [apply extract_sorted|].
  unfold Fuzz.extract, Fuzz.rapidfuzz_extract, Fuzz.nlargest.
  rewrite length_map, length_firstn, length_sort_desc, filter_all, length_map;
    [reflexivity|].
  apply Forall_map, Forall_forall. intros c _. cbn [snd].
  apply Qle_bool_iff, token_set_ratio_nonneg.
Qed.

(** X21. The high-risk matches of a screening are the leading candidates
    of the ranking: the candidates that score at least 80 are the first
    ones, in their order, with no other candidate between them. *)
Theorem high_risk_matches_lead_ranking
        (query : string) (df df' : DataFrame) (ss ss' : session_state) (ev : list event) :
  query <> "" ->
  search_logic true query df ss = Done (df', ss', ev) ->
  high_risk_matches ss'
  = firstn (List.length (high_risk_matches ss'))
           (Fuzz.extract query (map search_key (rows df)) 10).
Proof.
  intros Hq H.
  destruct (search_logic_screened _ _ _ _ _ _ Hq H) as (_ & _ & _ & _ & ->).
  apply (filter_sorted_prefix snd threshold), extract_sorted.
Qed.

Lemma high_risk_matches_lead_ranking_witness :
  exists out,
    search_logic true "Basir Noorzai" get_sample_data initial_state = Done out
    /\ high_risk_matches (snd (fst out))
       = firstn (List.length (high_risk_matches (snd (fst out))))
                (Fuzz.extract "Basir Noorzai" (map search_key (rows get_sample_data)) 10).
Proof.
  eexists (_, _, _). split; [vm_compute; reflexivity|]. cbn [fst snd].
  eapply (high_risk_matches_lead_ranking "Basir Noorzai" get_sample_data _ initial_state).
  - discriminate.
  - vm_compute. reflexivity.
Defined.

(** * What the scores do not see *)

Lemma is_word_lower_char (c : ascii) : is_word (lower_char c) = is_word c.
Proof. each_char c. Qed.

Lemma is_ascii_lower_char (c : ascii) : is_ascii (lower_char c) = is_ascii c.
Proof. each_char c. Qed.

Lemma word_or_space_lower_char (c : ascii) :
  Fuzz.word_or_space (lower_char c) = lower_char (Fuzz.word_or_space c).
Proof. each_char c. Qed.

Lemma smap_smap (f g : ascii -> ascii) (s : string) :
  smap f (smap g s) = smap (fun c => f (g c)) s.
Proof. induction s as [|c s IH]; simpl; congruence. Qed.

Lemma smap_ext (f g : ascii -> ascii) (s : string) :
  (forall c, f c = g c) -> smap f s = smap g s.
Proof. intro H. induction s as [|c s IH]; simpl; congruence. Qed.

Lemma lstrip_smap (p : ascii -> bool) (f : ascii -> ascii) (s : string) :
  (forall c, p (f c) = p c) -> lstrip_by p (smap f s) = smap f (lstrip_by p s).
Proof.
  intro H. induction s as [|c s IH]; [reflexivity|]. cbn [smap lstrip_by].
  rewrite H. now destruct (p c).
Qed.

Lemma rstrip_smap (p : ascii -> bool) (f : ascii -> ascii) (s : string) :
  (forall c, p (f c) = p c) -> rstrip_by p (smap f s) = smap f (rstrip_by p s).
Proof.
  intro H. induction s as [|c s IH]; [reflexivity|]. cbn [smap rstrip_by].
  rewrite IH, H. destruct (rstrip_by p s); [now destruct (p c)|reflexivity].
Qed.

Lemma strip_smap (f : ascii -> ascii) (s : string) :
  (forall c, is_space (f c) = is_space c) -> strip (smap f s) = smap f (strip s).
Proof.
  intro H. unfold strip, strip_by. now rewrite lstrip_smap, rstrip_smap.
Qed.

Lemma sfilter_smap (p : ascii -> bool) (f : ascii -> ascii) (s : string) :
  (forall c, p (f c) = p c) -> sfilter p (smap f s) = smap f (sfilter p s).
Proof.
  intro H. induction s as [|c s IH]; [reflexivity|]. cbn [smap sfilter].
  rewrite H, IH. now destruct (p c).
Qed.

Lemma default_process_lower (s : string) :
  Fuzz.default_process (lower s) = Fuzz.default_process s.
Proof.
  unfold Fuzz.default_process, lower at 2.
  rewrite smap_smap, (smap_ext _ _ _ word_or_space_lower_char), <- smap_smap.
  rewrite strip_smap by apply is_space_lower_char. apply lower_idem.
Qed.

Lemma full_process_lower (force_ascii : bool) (s : string) :
  Fuzz.full_process force_ascii (lower s) = Fuzz.full_process force_ascii s.
Proof.
  unfold Fuzz.full_process. destruct force_ascii; [|apply default_process_lower].
  unfold Fuzz.ascii_only, lower at 1.
  rewrite sfilter_smap by apply is_ascii_lower_char. apply default_process_lower.
Qed.

(** X22. The scores do not see the case of the letters: lowering the
    query or the search key of a record leaves the score as it is.  The
    texts are those of this development, of characters below code point
    256, where lowering a character keeps it in or out of ASCII. *)
Theorem score_ignores_letter_case (query choice : string) :
  Fuzz.score (lower query) choice = Fuzz.score query choice
  /\ Fuzz.score query (lower choice) = Fuzz.score query choice.
Proof.
  unfold Fuzz.score. now rewrite !full_process_lower.
Qed.

(** A text made of characters to strip is stripped to nothing. *)
Lemma strip_by_all (p : ascii -> bool) (s : string) :
  sall p s = true -> strip_by p s = "".
Proof.
  intro H. unfold strip_by. replace (lstrip_by p s) with ""%string; [reflexivity|].
  induction s as [|c s IH]; [reflexivity|]. cbn [sall lstrip_by] in *.
  apply andb_prop in H as [Hc Hs]. rewrite Hc. auto.
Qed.

Lemma full_process_no_word (s : string) :
  sall (fun c => negb (is_ascii c && is_word c)) s = true ->
  Fuzz.full_process true s = "".
Proof.
  intro H. unfold Fuzz.full_process, Fuzz.default_process, Fuzz.ascii_only.
  rewrite (strip_by_all is_space); [reflexivity|].
  induction s as [|c s IH]; [reflexivity|]. cbn [sall sfilter] in *.
  apply andb_prop in H as [Hc Hs]. specialize (IH Hs).
  destruct (is_ascii c) eqn:Ha; [|exact IH].
  cbn [smap sall]. rewrite IH, andb_true_r.
  cbn [andb] in Hc. apply negb_true_iff in Hc. unfold Fuzz.word_or_space.
  now rewrite Hc.
Qed.

Lemma default_process_no_word (s : string) :
  sall (fun c => negb (is_ascii c && is_word c)) s = true ->
  sall (fun c => negb (is_ascii c && is_word c)) (Fuzz.default_process s) = true.
Proof.
  intro H. unfold Fuzz.default_process, lower.
  apply sall_smap with (p := fun c => negb (is_ascii c && is_word c)).
  { intro c. now rewrite is_ascii_lower_char, is_word_lower_char. }
  apply sall_strip.
  apply sall_smap with (p := fun c => negb (is_ascii c && is_word c)); [|exact H].
  intros [[] [] [] [] [] [] [] []] Hc; try discriminate Hc; reflexivity.
Qed.

(** X23. A query without any ASCII letter, digit or underscore scores 0
    against every search key, and so does every query against a search
    key without one: such a text is empty once it is processed.  The
    texts are those of this development, of characters below code point
    256. *)
Theorem text_without_ascii_word_character_scores_0 (query choice : string) :
  sall (fun c => negb (is_ascii c && is_word c)) query = true
  \/ sall (fun c => negb (is_ascii c && is_word c)) choice = true ->
  Fuzz.score query choice = 0%Z.
Proof.
  unfold Fuzz.score. intros [H|H].
  - rewrite (full_process_no_word (Fuzz.full_process false query));
      [reflexivity|].
    now apply default_process_no_word.
  - rewrite (full_process_no_word choice H). unfold Fuzz.token_set_ratio.
    now rewrite orb_true_r.
Qed.

Lemma text_without_ascii_word_character_scores_0_witness :
  Fuzz.score "?!" "Halimah binti Hussein " = 0%Z.
Proof.
  apply text_without_ascii_word_character_scores_0. left. reflexivity.
Defined.

(** * The rows of the results *)

Lemma first_index_first (keys : list string) (key : string) :
  forall i j,
    first_index keys key i = Done j ->
    exists before after,
      keys = (before ++ key :: after)%list
      /\ j = i + List.length before
      /\ Forall (fun k => k <> key) before.
Proof.
  induction keys as [|k keys IH]; intros i j H; cbn [first_index] in H; [discriminate|].
  destruct (String.eqb_spec k key) as [->|Hne].
  - injection H as <-. exists [], keys. cbn. rewrite Nat.add_0_r. auto.
  - destruct (IH _ _ H) as (before & after & -> & -> & Hb).
    exists (k :: before), after. cbn [List.app List.length]. rewrite Nat.add_succ_r.
    auto.
Qed.

(** X24. The row shown for a high-risk match is the first record of the
    store that has the text of the match as its search key; a later
    record with the same name and aliases is never shown in its own
    right. *)
Theorem result_rows_are_first_with_key
        (query : string) (df df' : DataFrame) (ss ss' : session_state)
        (ev : list event) (found : list Row) :
  query <> "" ->
  search_logic true query df ss = Done (df', ss', ev) ->
  search_results ss' = Some found ->
  Forall2 (fun m r =>
             exists before after,
               rows df = (before ++ r :: after)%list
               /\ search_key r = fst m
               /\ Forall (fun r' => search_key r' <> fst m) before)
          (high_risk_matches ss') found.
Proof.
  intros Hq H Hf. apply truthy_nonempty in Hq.
  unfold search_logic in H. rewrite Hq in H.
  destruct (getitem df "Name") as [names|] eqn:Hn; simpl in H; [|discriminate].
  destruct (getitem df "Aliases") as [aliases|] eqn:Ha; simpl in H; [|discriminate].
  apply getitem_Name in Hn. apply getitem_Aliases in Ha. subst names aliases.
  rewrite add_columns_map in H. fold search_key in H.
  change (map (fun r => search_key r) (rows df)) with (map search_key (rows df)) in H.
  destruct (nonempty _) in H.
  2:{ injection H as <- <- <-. simpl in Hf. discriminate. }
  destruct (mapM _ _) as [idx|] eqn:Hidx in H; simpl in H; [|discriminate].
  destruct (mapM _ idx) as [found'|] eqn:Hfound in H; simpl in H; [|discriminate].
  injection H as <- <- <-. simpl in Hf. injection Hf as ->. simpl.
  apply mapM_Forall2 in Hidx. apply mapM_Forall2 in Hfound.
  revert found Hfound.
  induction Hidx as [|m i ms idxs Hi _ IH]; intros found Hfound;
    inversion Hfound as [|? r ? rs Hr Hrs]; subst; constructor; auto.
  apply first_index_first in Hi as (kb & ka & Hkeys & -> & Hb).
  apply map_eq_app in Hkeys as (before & rest & Hrows & <- & Hrest).
  apply map_eq_cons in Hrest as (r0 & after & -> & Hk & _).
  unfold loc in Hr. cbn [rows] in Hr. rewrite Hrows in Hr.
  rewrite length_map in Hr. cbn [Nat.add] in Hr.
  rewrite nth_error_app2, Nat.sub_diag in Hr by lia. cbn in Hr. injection Hr as <-.
  exists before, after. repeat split; auto.
  rewrite Forall_map in Hb. exact Hb.
Qed.

Lemma result_rows_are_first_with_key_witness :
  exists out found,
    search_logic true "Haji Basir" get_sample_data initial_state = Done out
    /\ search_results (snd (fst out)) = Some found
    /\ Forall2 (fun m r =>
                  exists before after,
                    rows get_sample_data = (before ++ r :: after)%list
                    /\ search_key r = fst m
                    /\ Forall (fun r' => search_key r' <> fst m) before)
               (high_risk_matches (snd (fst out))) found.
Proof.
  eexists (_, _, _), _. split; [vm_compute; reflexivity|].
  split; [vm_compute; reflexivity|]. cbn [fst snd].
  eapply (result_rows_are_first_with_key "Haji Basir" get_sample_data _ initial_state).
  - discriminate.
  - vm_compute. reflexivity.
  - reflexivity.
Defined.

(** * Shared words *)

Lemma token_set_ratio_incl (s1 s2 : string) (cutoff : Q) :
  split s1 <> [] -> split s2 <> [] ->
  incl (split s1) (split s2) \/ incl (split s2) (split s1) ->
  Fuzz.token_set_ratio s1 s2 cutoff = 100%Q.
Proof.
  intros H1 H2 Hincl.
  assert (T1 : truthy s1 = true) by (destruct s1; [now elim H1|reflexivity]).
  assert (T2 : truthy s2 = true) by (destruct s2; [now elim H2|reflexivity]).
  unfold Fuzz.token_set_ratio. rewrite T1, T2. cbn [negb orb].
  set (A := Fuzz.to_set (split s1)). set (B := Fuzz.to_set (split s2)).
  assert (HA : A <> []).
  { destruct (split s1) as [|a l] eqn:E; [congruence|].
    intro F. assert (Hin : In a A) by (apply to_set_In; left; reflexivity).
    rewrite F in Hin. exact Hin. }
  assert (HB : B <> []).
  { destruct (split s2) as [|b l] eqn:E; [congruence|].
    intro F. assert (Hin : In b B) by (apply to_set_In; left; reflexivity).
    rewrite F in Hin. exact Hin. }
  assert (Hi : Fuzz.intersection B A <> []).
  { destruct Hincl as [Hsub|Hsub].
    - destruct A as [|a A'] eqn:EA; [congruence|].
      assert (Ha : In a (split s1)) by (apply to_set_In; fold A; rewrite EA; now left).
      apply filter_some with (x := a).
      + apply to_set_In, Hsub, Ha.
      + apply mem_In. now left.
    - destruct B as [|b B'] eqn:EB; [congruence|].
      assert (Hb : In b (split s2)) by (apply to_set_In; fold B; rewrite EB; now left).
      apply filter_some with (x := b); [now left|].
      apply mem_In. unfold A. apply to_set_In, Hsub, Hb. }
  assert (Hd : Fuzz.difference A B = [] \/ Fuzz.difference B A = []).
  { destruct Hincl as [Hsub|Hsub]; [left|right]; apply filter_none; intros x Hx;
      apply negb_false_iff, mem_In, to_set_In, Hsub;
      now apply (proj1 (to_set_In _ _)) in Hx. }
  destruct A as [|a A']; [congruence|]. destruct B as [|b B']; [congruence|].
  destruct (Fuzz.intersection (b :: B') (a :: A')); [congruence|].
  destruct Hd as [-> | ->]; cbn [negb andb orb]; [reflexivity|].
  now destruct (Fuzz.difference (a :: A') (b :: B')).
Qed.

(** X25. Shared words give a full score.  When the processed query has a
    word and each of its words is a word of the processed search key, the
    score is 100, whatever else the key holds and whatever the order of
    the words; the same holds when each word of the key is a word of the
    query.  So a query made of one word of a record's name is a
    high-risk match for the record. *)
Theorem shared_words_score_100 (query choice : string) :
  let q := split (Fuzz.full_process true (Fuzz.full_process false query)) in
  let k := split (Fuzz.full_process true choice) in
  q <> [] -> k <> [] -> incl q k \/ incl k q ->
  Fuzz.score query choice = 100%Z /\ is_high_risk (choice, Fuzz.score query choice) = true.
Proof.
  intros q k Hq Hk Hincl. unfold Fuzz.score, is_high_risk. cbn [snd].
  rewrite (token_set_ratio_incl _ _ 0%Q Hq Hk Hincl). split; reflexivity.
Qed.

Lemma shared_words_score_100_witness :
  Fuzz.score "BINTI" "Halimah binti Hussein " = 100%Z
  /\ is_high_risk ("Halimah binti Hussein "%string,
                   Fuzz.score "BINTI" "Halimah binti Hussein ") = true.
Proof.
  apply (shared_words_score_100 "BINTI" "Halimah binti Hussein ").
  - discriminate.
  - discriminate.
  - left. intros t Ht. vm_compute in Ht. destruct Ht as [<-|[]].
    vm_compute. tauto.
Defined.

(** * The store of a run *)

Lemma rows_concat (frames : list DataFrame) : rows (concat frames) = flat_map rows frames.
Proof. reflexivity. Qed.

(** X26. When documents are uploaded, the store holds the records of the
    uploads one list after the other, in the fixed order of the sidebar:
    the domestic list, then the lists of resolutions 1267, 1988, 1718 and
    2231, each with its records in the order of extraction; the number
    of entities shown is the sum of their numbers. *)
Theorem store_holds_uploads_in_order (u : uploads) :
  load_frames u <> [] ->
  let moha := match file_moha u with Some pdf => KDN.parse_data pdf | None => [] end in
  let un := fun (f : option text_pdf) (list_name : string) =>
              match f with Some pdf => UN.parse_data pdf list_name | None => [] end in
  rows (combine (load_frames u))
  = (moha ++ un (file_1267 u) "UNSCR 1267 (ISIL/Al-Qaida)"
          ++ un (file_1988 u) "UNSCR 1988 (Taliban)"
          ++ un (file_1718 u) "UNSCR 1718 (DPRK)"
          ++ un (file_2231 u) "UNSCR 2231 (Iran)")%list
  /\ len (combine (load_frames u))
     = List.length moha
       + List.length (un (file_1267 u) "UNSCR 1267 (ISIL/Al-Qaida)")
       + List.length (un (file_1988 u) "UNSCR 1988 (Taliban)")
       + List.length (un (file_1718 u) "UNSCR 1718 (DPRK)")
       + List.length (un (file_2231 u) "UNSCR 2231 (Iran)").
Proof.
  intros Hne moha un.
  assert (Hrows : rows (combine (load_frames u))
                  = (moha ++ un (file_1267 u) "UNSCR 1267 (ISIL/Al-Qaida)"
                          ++ un (file_1988 u) "UNSCR 1988 (Taliban)"
                          ++ un (file_1718 u) "UNSCR 1718 (DPRK)"
                          ++ un (file_2231 u) "UNSCR 2231 (Iran)")%list).
  { unfold combine. destruct (load_frames u) as [|df0 frames] eqn:E; [congruence|].
    rewrite <- E, rows_concat. unfold load_frames, un_frame.
    rewrite !flat_map_app. subst moha un.
    destruct (file_moha u), (file_1267 u), (file_1988 u), (file_1718 u), (file_2231 u);
      cbn [flat_map rows KDN.parse_kdn_pdf UN.parse_un_style_pdf of_records];
      now rewrite ?List.app_nil_r. }
  split; [exact Hrows|].
  unfold len. rewrite Hrows, !List.length_app. lia.
Qed.

Lemma store_holds_uploads_in_order_witness :
  let u := {| file_moha := Some (Returns [Returns [[[Some "1"; Some "KDN.1"; Some "Ali"]]]]);
              file_1267 := None;
              file_1988 := Some (Returns [Returns (Some "TAi.173 Name: 1: ABDUL Title: Haji")]);
              file_1718 := None; file_2231 := None |} in
  map Reference_No (rows (combine (load_frames u))) = ["KDN.1"; "TAi.173"]
  /\ len (combine (load_frames u)) = 2.
Proof.
  intro u. destruct (store_holds_uploads_in_order u ltac:(discriminate)) as [Hrows Hlen].
  rewrite Hrows, Hlen. split; reflexivity.
Defined.

(** * The remaining fields *)

Lemma clean_cell_at (i : nat) (row : list cell) (sep : string) :
  KDN.clean (KDN.cell_at i row (Some "")) sep ""
  = match nth i row None with
    | Some s => replace NL sep s
    | None => ""
    end.
Proof.
  unfold KDN.cell_at, KDN.clean. destruct (Nat.ltb_spec i (List.length row)) as [Hi|Hi].
  - destruct (nth i row None) as [[|c s]|]; reflexivity.
  - now rewrite nth_overflow by exact Hi.
Qed.

(** X27. The aliases, the date of birth and the identification number of
    a tabular record come from the cells at the indices 7, 5 and 10 of
    the row, with each line feed replaced by a space for the aliases and
    by " | " for the other two.  A cell that is absent, None or empty
    gives the empty text: these fields have no sentinel, and the raw data
    always begin with "ID: ". *)
Theorem kdn_row_other_fields (row : list cell) (r : Row) :
  KDN.parse_row row = Some r ->
  let field := fun (i : nat) (sep : string) =>
                 match nth i row None with
                 | Some s => replace NL sep s
                 | None => ""
                 end in
  Aliases r = field 7 " "
  /\ DOB r = field 5 " | "
  /\ Raw_Data r = ("ID: " ++ field 10 " | ")%string.
Proof.
  unfold KDN.parse_row. destruct (contains "KDN" (KDN.str_row row)); [|discriminate].
  intro H. injection H as <-. cbn [Aliases DOB Raw_Data].
  now rewrite !clean_cell_at.
Qed.

Lemma kdn_row_other_fields_witness :
  let row := [Some "1"; Some "KDN.I.08-2014"; Some "Halimah binti Hussein"; None; None;
              Some ("9.12.1961" ++ NL ++ "1.1.1962"); None; Some ""] in
  exists r, KDN.parse_row row = Some r
            /\ Aliases r = "" /\ DOB r = "9.12.1961 | 1.1.1962" /\ Raw_Data r = "ID: ".
Proof.
  intro row. eexists. split; [reflexivity|].
  exact (kdn_row_other_fields row _ eq_refl).
Defined.

Lemma take_prefix (n : nat) (s : string) :
  exists rest, s = (take n s ++ rest)%string /\ (String.length s <= n -> rest = "").
Proof.
  revert s. induction n as [|n IH]; intros [|c s]; cbn [take append String.length].
  - exists "". auto.
  - exists (String c s). split; [reflexivity|]. lia.
  - exists "". auto.
  - destruct (IH s) as (rest & Hs & Hr). exists rest. split; [congruence|].
    intro H. apply Hr. lia.
Qed.

Lemma length_take (n : nat) (s : string) : String.length (take n s) <= n.
Proof.
  revert s. induction n as [|n IH]; intros [|c s]; cbn [take String.length]; try lia.
  specialize (IH s). lia.
Qed.

Lemma strip_nonempty (s : string) : strip s <> "" -> s <> "".
Proof. intros H ->. now apply H. Qed.

(** X28. The raw data of a narrative record are the head of its chunk:
    the whole chunk when it has at most 300 characters, its first 300
    characters otherwise; they are never empty. *)
Theorem narrative_raw_data_is_chunk_head (list_name entry : string) (r : Row) :
  UN.parse_entry list_name entry = Some r ->
  String.length (Raw_Data r) <= 300
  /\ Raw_Data r <> ""
  /\ exists rest, entry = (Raw_Data r ++ rest)%string
                  /\ (String.length entry <= 300 -> rest = "").
Proof.
  intro H. apply parse_entry_fields in H as (Hs & _ & _ & _ & _ & ->).
  split; [apply length_take|]. split; [|apply take_prefix].
  apply strip_nonempty in Hs. destruct entry; [congruence|discriminate].
Qed.

Lemma narrative_raw_data_is_chunk_head_witness :
  String.length "QDi.006 Name: 1: AIMAN Title: Doctor" <= 300
  /\ "QDi.006 Name: 1: AIMAN Title: Doctor"%string <> ""%string
  /\ exists rest,
       "QDi.006 Name: 1: AIMAN Title: Doctor"%string
       = ("QDi.006 Name: 1: AIMAN Title: Doctor" ++ rest)%string
       /\ (String.length "QDi.006 Name: 1: AIMAN Title: Doctor" <= 300 -> rest = "").
Proof.
  exact (narrative_raw_data_is_chunk_head
           "UNSCR 1267 (ISIL/Al-Qaida)" "QDi.006 Name: 1: AIMAN Title: Doctor"
           (UN.make_record "UNSCR 1267 (ISIL/Al-Qaida)" "QDi.006" "AIMAN" [] "NA"
                           "QDi.006 Name: 1: AIMAN Title: Doctor")
           eq_refl).
Defined.

(** * A labeled text is found *)

Lemma labeled_value_matches (l : string) (p : ascii -> bool) (T : Re.regex)
      (pos : nat) (gap value gap' label rest : string) :
  sall is_space gap = true ->
  value <> "" -> sall p value = true ->
  gap' <> "" -> sall is_space gap' = true ->
  (forall pos', Lang.matches T pos' label rest []) ->
  exists new,
    Lang.matches (Re.seq [Re.Lit l; Re.Star is_space; Re.Grp 1 (Re.PlusLazy p);
                          Re.Plus is_space; T])
                 pos (l ++ gap ++ value ++ gap' ++ label) rest new.
Proof.
  intros Hgap Hne Hvalue Hne' Hgap' HT.
  destruct gap' as [|c w6]; [congruence|].
  cbn [sall] in Hgap'. apply andb_prop in Hgap' as [Hc Hw6].
  unfold Re.Plus. cbn [Re.seq Lang.matches]. eexists.
  exists l, (gap ++ value ++ String c w6 ++ label)%string, [].
  eexists. split; [reflexivity|]. split; [reflexivity|]. split; [auto|].
  exists gap, (value ++ String c w6 ++ label)%string, [].
  eexists. split; [reflexivity|]. split; [reflexivity|]. split; [auto|].
  exists value, (String c w6 ++ label)%string.
  eexists. eexists. split; [reflexivity|]. split; [reflexivity|]. split.
  { eexists. split; [reflexivity|]. auto. }
  exists (String c w6), label.
  eexists. exists []. split; [reflexivity|]. split; [reflexivity|]. split; [|apply HT].
  exists (String c ""), w6, [], []. repeat split; eauto.
Qed.

Lemma sall_any (s : string) : sall Re.any s = true.
Proof. induction s; cbn; auto. Qed.

Lemma not_newline_sall (s : string) :
  contains NL s = false -> sall Re.not_newline s = true.
Proof.
  unfold NL. rewrite contains_char. induction s as [|c s IH]; [reflexivity|].
  cbn [sall sany]. intro H. apply orb_false_iff in H as [Hc Hs].
  rewrite (IH Hs), andb_true_r. unfold Re.not_newline.
  now rewrite Ascii.eqb_sym, Hc.
Qed.

(** X29. A labeled text is found.  When the chunk holds the label of the
    name, white space or nothing, a non-empty text, white space and a
    label that ends a name, the name of the record is the cleaning of a
    text the name pattern captured, not the sentinel put for a chunk
    without a name; likewise for the date of birth, whose text holds no
    line feed, and for the aliases. *)
Theorem narrative_labeled_text_is_found (list_name entry : string) (r : Row) :
  UN.parse_entry list_name entry = Some r ->
  let labeled := fun (l : string) (p : ascii -> bool) (ends : list string) =>
    exists pre gap value gap' label rest,
      entry = (pre ++ l ++ gap ++ value ++ gap' ++ label ++ rest)%string
      /\ sall is_space gap = true
      /\ value <> "" /\ sall p value = true
      /\ gap' <> "" /\ sall is_space gap' = true
      /\ In label ends in
  (labeled "Name:" Re.any ["Name (original"; "Title:"; "Designation:"; "DOB:"] ->
   exists mt, Re.search UN.name_re entry = Some mt
              /\ Name r = UN.clean_raw_name (Re.group entry mt 1))
  /\ (labeled "DOB:" Re.not_newline ["POB:"; "Good quality"] ->
      exists mt, Re.search UN.dob_re entry = Some mt
                 /\ DOB r = strip (Re.group entry mt 1))
  /\ ((exists pre label block label' rest,
         entry = (pre ++ label ++ block ++ label' ++ rest)%string
         /\ In label ["Good quality a.k.a.:"; "Low quality a.k.a.:"]
         /\ block <> ""
         /\ In label' ["Nationality:"; "Passport no:"; "National identification";
                       "Address:"]) ->
      exists mt, Re.search UN.alias_re entry = Some mt
                 /\ Aliases r = join " | " (UN.aliases_of_block (Re.group entry mt 2))).
Proof.
  intro H. apply parse_entry_fields in H as (_ & _ & -> & -> & -> & _).
  intro labeled. repeat split.
  - intros (pre & gap & value & gap' & label & rest & Hs & Hgap & Hne & Hv & Hne' & Hgap' & Hl).
    unfold UN.extract_name.
    destruct (Re.search UN.name_re entry) as [mt|] eqn:E; [eauto|]. exfalso.
    destruct (labeled_value_matches "Name:" Re.any
                (Re.alt (Re.Lit "Name (original")
                        [Re.Lit "Title:"; Re.Lit "Designation:"; Re.Lit "DOB:"])
                (String.length pre) gap value gap' label rest Hgap Hne Hv Hne' Hgap')
      as [new M].
    { intro pos'. cbn [Re.alt Lang.matches]. cbn [In] in Hl. intuition auto. }
    apply (search_from_complete _ _ _ E pre
             ("Name:" ++ gap ++ value ++ gap' ++ label)%string rest new); [|exact M].
    rewrite Hs, !app_assoc. reflexivity.
  - intros (pre & gap & value & gap' & label & rest & Hs & Hgap & Hne & Hv & Hne' & Hgap' & Hl).
    unfold UN.extract_dob.
    destruct (Re.search UN.dob_re entry) as [mt|] eqn:E; [eauto|]. exfalso.
    destruct (labeled_value_matches "DOB:" Re.not_newline
                (Re.Alt (Re.Lit "POB:") (Re.Lit "Good quality"))
                (String.length pre) gap value gap' label rest Hgap Hne Hv Hne' Hgap')
      as [new M].
    { intro pos'. cbn [Lang.matches]. cbn [In] in Hl. intuition auto. }
    apply (search_from_complete _ _ _ E pre
             ("DOB:" ++ gap ++ value ++ gap' ++ label)%string rest new); [|exact M].
    rewrite Hs, !app_assoc. reflexivity.
  - intros (pre & label & block & label' & rest & Hs & Hl & Hne & Hl').
    unfold UN.extract_aliases.
    destruct (Re.search UN.alias_re entry) as [mt|] eqn:E; [eauto|]. exfalso.
    assert (M : exists new, Lang.matches UN.alias_re (String.length pre)
                                         (label ++ block ++ label') rest new).
    { unfold UN.alias_re. cbn [Re.seq Re.alt Lang.matches]. eexists.
      exists label, (block ++ label')%string. eexists. eexists.
      split; [reflexivity|]. split; [reflexivity|]. split.
      { exists []. split; [reflexivity|]. cbn [In] in Hl. intuition auto. }
      exists block, label'. eexists. eexists.
      split; [reflexivity|]. split; [reflexivity|]. split.
      { exists []. split; [reflexivity|]. repeat split; auto. apply sall_any. }
      exists []. split; [reflexivity|]. cbn [In] in Hl'. intuition auto. }
    destruct M as [new M].
    apply (search_from_complete _ _ _ E pre (label ++ block ++ label')%string rest new);
      [|exact M].
    rewrite Hs, !app_assoc. reflexivity.
Qed.

Lemma narrative_labeled_text_is_found_witness :
  let entry := "TAi.173 Name: 1: ABDUL Title: Haji"%string in
  exists mt, Re.search UN.name_re entry = Some mt
             /\ "ABDUL"%string = UN.clean_raw_name (Re.group entry mt 1).
Proof.
  intro entry.
  destruct (narrative_labeled_text_is_found
              "UNSCR 1988 (Taliban)" entry
              (UN.make_record "UNSCR 1988 (Taliban)" "TAi.173" "ABDUL" [] "NA" entry)
              eq_refl) as [Hname _].
  apply Hname.
  exists "TAi.173 ", " ", "1: ABDUL", " ", "Title:", " Haji".
  repeat split; try reflexivity; try discriminate. cbn. tauto.
Defined.
